(** * Consensus arithmetic of the Electronero node

    A shallow embedding of
    - [cryptonote_basic/difficulty.cpp]: [mul], [cadd], [cadc], [check_hash]
      and the four retargeting functions [next_difficulty],
      [next_difficulty_v2], [next_difficulty_v3], [next_difficulty_v4];
    - [cryptonote_basic/cryptonote_basic_impl.cpp]: [get_min_block_size] and
      [get_block_reward];
    - [checkpoints/checkpoints.cpp]: the checkpoint registry.

    Conventions.  A [uint64_t] or [size_t] is a [Z] in [0, 2^64) and every
    operation writes its wrap-around out ([wrap64]); an [int64_t] is a [Z]
    in [-2^63, 2^63).  A [double] is a binary64 primitive float.  A
    [std::vector] is a list, a [std::map] a [gmap].  Code that can stop on
    an [assert], or run into behaviour the language leaves undefined,
    returns an [outcome]. *)

From Stdlib Require Import ZArith Lia Floats.
From stdpp Require Import gmap strings list sorting.

Local Open Scope Z_scope.
#[local] Set Warnings "-inexact-float".

(** * Machine integers *)

Abbreviation M32 := 4294967296 (only parsing).
Abbreviation M64 := 18446744073709551616 (only parsing).
Abbreviation M63 := 9223372036854775808 (only parsing).
Abbreviation M256 :=
  115792089237316195423570985008687907853269984665640564039457584007913129639936
  (only parsing).

(** Conversion of a mathematical integer to [uint64_t]. *)
Definition wrap64 (z : Z) : Z := z mod M64.

(** Conversion of a mathematical integer to [uint32_t]. *)
Definition wrap32 (z : Z) : Z := z mod M32.

(** Conversion of a [uint64_t] to [int64_t] (two's complement). *)
Definition to_int64 (z : Z) : Z :=
  let w := wrap64 z in if w <? M63 then w else w - M64.

Definition is_u64 (z : Z) : Prop := 0 <= z < M64.

(** * Outcomes of code with assertions *)

(** [Ret a]: the call returned [a].  [AssertionFailed]: an [assert] stopped
    the program (only when [NDEBUG] is not defined).  [Undefined]: the call
    ran into undefined behaviour (an index out of a vector's range, a
    division by zero, a signed overflow, a conversion of a [double] that
    does not fit).  [Thrown]: a C++ exception left the function. *)
Inductive outcome (A : Type) : Type :=
  | Ret (a : A)
  | AssertionFailed
  | Undefined
  | Thrown.
Arguments Ret {A} a.
Arguments AssertionFailed {A}.
Arguments Undefined {A}.
Arguments Thrown {A}.

#[export] Instance outcome_ret : MRet outcome := fun A a => Ret a.
#[export] Instance outcome_bind : MBind outcome := fun A B f m =>
  match m with
  | Ret a => f a
  | AssertionFailed => AssertionFailed
  | Undefined => Undefined
  | Thrown => Thrown
  end.

(** A [for] loop over the indices [idx], threading the loop's variables. *)
Fixpoint for_each {S : Type} (body : S -> Z -> outcome S) (idx : list Z) (s : S)
  : outcome S :=
  match idx with
  | [] => Ret s
  | i :: idx' => s' ← body s i; for_each body idx' s'
  end.

(** [assert(c)] of <cassert>: nothing when [NDEBUG] is defined. *)
Definition assert (NDEBUG : bool) (c : bool) : outcome unit :=
  if NDEBUG then Ret tt else if c then Ret tt else AssertionFailed.

(** [v[i]] on a [std::vector]: undefined out of range. *)
Definition at_index (v : list Z) (i : Z) : outcome Z :=
  if i <? 0 then Undefined
  else match v !! Z.to_nat i with
       | Some x => Ret x
       | None => Undefined
       end.

(** Unsigned division; by zero it is undefined. *)
Definition udiv (a b : Z) : outcome Z :=
  if b =? 0 then Undefined else Ret (a / b).

(** The result of a signed [int64_t] operation; overflow is undefined. *)
Definition signed64 (z : Z) : outcome Z :=
  if (- M63 <=? z) && (z <? M63) then Ret z else Undefined.

(** * 64 x 64 -> 128 bit multiplication *)

Module Mul.

(** Modelled from the spec: [mul128] of [common/int-util.h] is not among
    the sources; the spec asks for the full 128-bit product of two 64-bit
    words ("128-bit intermediate precision for multiplication").  The pair
    is (low word, high word). *)
Definition mul128 (a b : Z) : Z * Z := ((a * b) mod M64, (a * b) / M64).

(** [mul] for hosts other than x86_64, on 32-bit halves. *)
Definition mul_portable (a b : Z) : Z * Z :=
  let aLow := Z.land a 0xFFFFFFFF in
  let aHigh := Z.shiftr a 32 in
  let bLow := Z.land b 0xFFFFFFFF in
  let bHigh := Z.shiftr b 32 in
  let res := wrap64 (aLow * bLow) in
  let lowRes1 := Z.land res 0xFFFFFFFF in
  let carry := Z.shiftr res 32 in
  let res := wrap64 (aHigh * bLow + carry) in
  let highResHigh1 := Z.shiftr res 32 in
  let highResLow1 := Z.land res 0xFFFFFFFF in
  let res := wrap64 (aLow * bHigh) in
  let lowRes2 := Z.land res 0xFFFFFFFF in
  let carry := Z.shiftr res 32 in
  let res := wrap64 (aHigh * bHigh + carry) in
  let highResHigh2 := Z.shiftr res 32 in
  let highResLow2 := Z.land res 0xFFFFFFFF in
  let r := wrap64 (highResLow1 + lowRes2) in
  let carry := Z.shiftr r 32 in
  let low := Z.lor (wrap64 (Z.shiftl r 32)) lowRes1 in
  let r := wrap64 (highResHigh1 + highResLow2 + carry) in
  let d3 := Z.land r 0xFFFFFFFF in
  let carry := Z.shiftr r 32 in
  let r := wrap64 (highResHigh2 + carry) in
  let high := Z.lor d3 (wrap64 (Z.shiftl r 32)) in
  (low, high).

(** [mul]: [mul128] under [__x86_64__], the portable code elsewhere. *)
Definition mul (x86_64 : bool) (a b : Z) : Z * Z :=
  if x86_64 then mul128 a b else mul_portable a b.

Definition cadd (a b : Z) : bool := wrap64 (a + b) <? a.

Definition cadc (a b : Z) (c : bool) : bool :=
  (wrap64 (a + b) <? a) || (c && (wrap64 (a + b) =? wrap64 (-1))).

End Mul.

(** * Proof-of-work check *)

Module Pow.
Import Mul.

Definition bytes (bs : list Z) : Prop := Forall (fun b => 0 <= b < 256) bs.

(** A [crypto::hash] is 32 bytes. *)
Definition hash_wf (h : list Z) : Prop := length h = 32%nat /\ bytes h.

Fixpoint le_decode (bs : list Z) : Z :=
  match bs with
  | [] => 0
  | b :: bs' => b + 256 * le_decode bs'
  end.

Fixpoint le_encode (n : nat) (x : Z) : list Z :=
  match n with
  | O => []
  | S n' => x mod 256 :: le_encode n' (x / 256)
  end.

(** [((const uint64_t * ) &hash)[i]]: the eight bytes at offset [8 i], read
    in the byte order of the host. *)
Definition load64 (big_endian : bool) (h : list Z) (i : nat) : Z :=
  let bs := take 8 (drop (8 * i) h) in
  if big_endian then le_decode (rev bs) else le_decode bs.

(** Modelled from the spec: [swap64] and [swap64le] of [common/int-util.h]
    are not among the sources; the spec says that [check_hash] "must treat
    the hash as little-endian limbs" on hosts of either byte order, so
    [swap64le] is the identity on a little-endian host and the reversal of
    the eight bytes on a big-endian one. *)
Definition swap64 (x : Z) : Z := le_decode (rev (le_encode 8 x)).

Definition swap64le (big_endian : bool) (x : Z) : Z :=
  if big_endian then swap64 x else x.

Section Host.
Variables x86_64 big_endian : bool.

Definition limb (h : list Z) (i : nat) : Z :=
  swap64le big_endian (load64 big_endian h i).

Definition check_hash (h : list Z) (difficulty : Z) : bool :=
  (* First check the highest word *)
  let '(top, high) := mul x86_64 (limb h 3) difficulty in
  if negb (high =? 0) then false
  else
    let '(low, cur) := mul x86_64 (limb h 0) difficulty in
    let '(low, high) := mul x86_64 (limb h 1) difficulty in
    let carry := cadd cur low in
    let cur := high in
    let '(low, high) := mul x86_64 (limb h 2) difficulty in
    let carry := cadc cur low carry in
    let carry := cadc high top carry in
    negb carry.

End Host.

(** The 256-bit integer of the spec's [to_u256_le]. *)
Definition to_u256_le (h : list Z) : Z := le_decode h.

End Pow.

(** * Doubles *)

Module Double.

(** Conversion of an integer to [double], rounding to nearest even. *)
Definition of_Z (z : Z) : float := SF2Prim (binary_normalize prec emax z 0 false).

(** The integer part of a finite [double] (truncation towards zero). *)
Definition trunc (f : float) : option Z :=
  match Prim2SF f with
  | S754_zero _ => Some 0
  | S754_finite s m e =>
      let a := if 0 <=? e then Z.pos m * 2 ^ e else Z.pos m / 2 ^ (- e) in
      Some (if s then - a else a)
  | S754_infinity _ | S754_nan => None
  end.

(** [static_cast<uint64_t>(f)]: undefined when the integer part does not
    fit. *)
Definition to_uint64 (f : float) : outcome Z :=
  match trunc f with
  | Some z => if (0 <=? z) && (z <? M64) then Ret z else Undefined
  | None => Undefined
  end.

(** [boost::math::round] of Boost.Math: the nearest integer, a half away
    from zero; [rounding_error] is thrown on an argument that is not
    finite. *)
Definition round (f : float) : outcome Z :=
  match Prim2SF f with
  | S754_zero _ => Ret 0
  | S754_finite s m e =>
      let a :=
        if 0 <=? e then Z.pos m * 2 ^ e
        else
          let d := 2 ^ (- e) in
          if d <=? 2 * (Z.pos m mod d) then Z.pos m / d + 1 else Z.pos m / d in
      Ret (if s then - a else a)
  | S754_infinity _ | S754_nan => Thrown
  end.

End Double.

(** * Difficulty *)

Module Difficulty.
Import Mul.

Definition DIFFICULTY_WINDOW : Z := 720.
Definition DIFFICULTY_CUT : Z := 60.
Definition DIFFICULTY_WINDOW_V2 : Z := 70.
Definition DIFFICULTY_BLOCKS_COUNT_V12 : Z := DIFFICULTY_WINDOW_V2.

Definition size (v : list Z) : Z := Z.of_nat (length v).

(** [v.resize(n)]: keeps the first [n] elements, pads with zeros. *)
Definition resize_to (n : Z) (v : list Z) : list Z := resize (Z.to_nat n) 0 v.

(** [std::sort] on timestamps. *)
Definition sort (v : list Z) : list Z := merge_sort Z.le v.

(** Cumulative difficulties that grow with every block. *)
Definition increasing (v : list Z) : Prop :=
  forall (i j : nat) (a b : Z), (i < j)%nat -> v !! i = Some a -> v !! j = Some b -> a < b.

Section Build.
(** [NDEBUG]: whether assertions are compiled out.  [x86_64]: which [mul]
    is compiled.  [median]: [epee::misc_utils::median], which is not among
    the sources. *)
Variables NDEBUG x86_64 : bool.
Variable median : list Z -> Z.

Definition next_difficulty (timestamps cumulative_difficulties : list Z)
    (target_seconds : Z) : outcome Z :=
  let '(timestamps, cumulative_difficulties) :=
    if DIFFICULTY_WINDOW <? size timestamps
    then (resize_to DIFFICULTY_WINDOW timestamps,
          resize_to DIFFICULTY_WINDOW cumulative_difficulties)
    else (timestamps, cumulative_difficulties) in
  let length := size timestamps in
  _ ← assert NDEBUG (length =? size cumulative_difficulties);
  if length <=? 1 then Ret 1
  else
    _ ← assert NDEBUG (length <=? DIFFICULTY_WINDOW);
    let timestamps := sort timestamps in
    let '(cut_begin, cut_end) :=
      if length <=? DIFFICULTY_WINDOW - 2 * DIFFICULTY_CUT
      then (0, length)
      else
        let cut_begin :=
          wrap64 (wrap64 (length - (DIFFICULTY_WINDOW - 2 * DIFFICULTY_CUT)) + 1) / 2 in
        (cut_begin, wrap64 (cut_begin + (DIFFICULTY_WINDOW - 2 * DIFFICULTY_CUT))) in
    _ ← assert NDEBUG ((cut_begin + 2 <=? cut_end) && (cut_end <=? length));
    t_end ← at_index timestamps (cut_end - 1);
    t_begin ← at_index timestamps cut_begin;
    let time_span := wrap64 (t_end - t_begin) in
    let time_span := if time_span =? 0 then 1 else time_span in
    d_end ← at_index cumulative_difficulties (cut_end - 1);
    d_begin ← at_index cumulative_difficulties cut_begin;
    let total_work := wrap64 (d_end - d_begin) in
    _ ← assert NDEBUG (0 <? total_work);
    let '(low, high) := mul x86_64 total_work target_seconds in
    udiv (wrap64 (low + time_span - 1)) time_span.

Definition next_difficulty_v2 (timestamps cumulative_difficulties : list Z)
    (target_seconds : Z) : outcome Z :=
  let '(timestamps, cumulative_difficulties) :=
    if DIFFICULTY_WINDOW <? size timestamps
    then (resize_to DIFFICULTY_WINDOW timestamps,
          resize_to DIFFICULTY_WINDOW cumulative_difficulties)
    else (timestamps, cumulative_difficulties) in
  let length := size timestamps in
  _ ← assert NDEBUG (length =? size cumulative_difficulties);
  if length <=? 1 then Ret 1
  else
    _ ← assert NDEBUG (length <=? DIFFICULTY_WINDOW);
    let timestamps := sort timestamps in
    let '(cut_begin, cut_end) :=
      if length <=? DIFFICULTY_WINDOW - 2 * DIFFICULTY_CUT
      then (0, length)
      else
        let cut_begin :=
          wrap64 (wrap64 (length - (DIFFICULTY_WINDOW - 2 * DIFFICULTY_CUT)) + 1) / 2 in
        (cut_begin, wrap64 (cut_begin + (DIFFICULTY_WINDOW - 2 * DIFFICULTY_CUT))) in
    _ ← assert NDEBUG ((cut_begin + 2 <=? cut_end) && (cut_end <=? length));
    t_end ← at_index timestamps (cut_end - 1);
    t_begin ← at_index timestamps cut_begin;
    let time_span := wrap64 (t_end - t_begin) in
    let time_span := if time_span =? 0 then 1 else time_span in
    d_end ← at_index cumulative_difficulties (cut_end - 1);
    d_begin ← at_index cumulative_difficulties cut_begin;
    let total_work := wrap64 (d_end - d_begin) in
    _ ← assert NDEBUG (0 <? total_work);
    let '(low, high) := mul x86_64 total_work target_seconds in
    if negb (high =? 0) || (wrap64 (low + time_span - 1) <? low) then Ret 1
    else udiv (wrap64 (low + time_span - 1)) time_span.

(** One iteration of the LWMA loop of [next_difficulty_v3]; the loop's
    variables are [(LWMA, sum_inverse_D)]. *)
Definition v3_step (timestamps cumulative_difficulties : list Z) (T : Z)
    (k : float) (st : float * float) (i : Z) : outcome (float * float) :=
  let '(LWMA, sum_inverse_D) := st in
  t_i ← at_index timestamps i;
  t_p ← at_index timestamps (i - 1);
  solveTime ← signed64 (to_int64 t_i - to_int64 t_p);
  upper ← signed64 (T * 7);
  lower ← signed64 (-7 * T);
  let solveTime := Z.min upper (Z.max solveTime lower) in
  d_i ← at_index cumulative_difficulties i;
  d_p ← at_index cumulative_difficulties (i - 1);
  let difficulty := wrap64 (d_i - d_p) in
  let LWMA := (LWMA + Double.of_Z (to_int64 (wrap64 (solveTime * i))) / k)%float in
  let sum_inverse_D := (sum_inverse_D + 1 / Double.of_Z difficulty)%float in
  Ret (LWMA, sum_inverse_D).

(** The value of [nextDifficulty] in [next_difficulty_v3] once the window
    holds [n >= 6] entries; [N] is the number of blocks looked at. *)
Definition v3_nextDifficulty (timestamps cumulative_difficulties : list Z)
    (T N : Z) : outcome float :=
  let adjust := 0.998%float in
  let k := Double.of_Z (wrap64 (N * (N + 1)) / 2) in
  st ← for_each (v3_step timestamps cumulative_difficulties T k) (seqZ 1 N)
         (0%float, 0%float);
  let '(LWMA, sum_inverse_D) := st in
  rounded ← Double.round LWMA;
  rounded ← signed64 rounded;
  let LWMA := if rounded <? Z.quot T 20 then Double.of_Z (Z.quot T 20) else LWMA in
  let harmonic_mean_D := (Double.of_Z N / sum_inverse_D * adjust)%float in
  Ret (harmonic_mean_D * Double.of_Z T / LWMA)%float.

Definition next_difficulty_v3 (timestamps cumulative_difficulties : list Z)
    (target_seconds : Z) : outcome Z :=
  let T := to_int64 target_seconds in
  let N := DIFFICULTY_WINDOW_V2 in
  let '(timestamps, cumulative_difficulties) :=
    if N <? size timestamps
    then (resize_to (N + 1) timestamps, resize_to (N + 1) cumulative_difficulties)
    else (timestamps, cumulative_difficulties) in
  let n := size timestamps in
  _ ← assert NDEBUG (n =? size cumulative_difficulties);
  _ ← assert NDEBUG (n <=? DIFFICULTY_WINDOW_V2);
  if n <? 6 then Ret 1
  else
    let N := if n <? N + 1 then n - 1 else N in
    nextDifficulty ← v3_nextDifficulty timestamps cumulative_difficulties T N;
    next_difficulty ← Double.to_uint64 nextDifficulty;
    if next_difficulty <? 2000 then Ret 75723142
    else if 120307799 <? next_difficulty then Ret 120307799
    else Ret next_difficulty.

(** [for (size_t i = first; i < last; i++) out.push_back(v[i]);] *)
Definition collect (v : list Z) (first last : Z) : outcome (list Z) :=
  mapM (at_index v) (seqZ first (last - first)).

(** The three partitions of [next_difficulty_v4]. *)
Definition first_diffs (cumulative_difficulties : list Z) : outcome (list Z) :=
  collect cumulative_difficulties 0 (DIFFICULTY_BLOCKS_COUNT_V12 - 30).

Definition mid_diffs (cumulative_difficulties : list Z) : outcome (list Z) :=
  collect cumulative_difficulties (DIFFICULTY_BLOCKS_COUNT_V12 - 30)
    (DIFFICULTY_BLOCKS_COUNT_V12 - 10).

Definition last_diffs (cumulative_difficulties : list Z) : outcome (list Z) :=
  collect cumulative_difficulties (wrap64 (DIFFICULTY_BLOCKS_COUNT_V12 * -10))
    DIFFICULTY_BLOCKS_COUNT_V12.

(** [(median_first, median_mid, median_last)]. *)
Definition v4_medians (cumulative_difficulties : list Z) : outcome (Z * Z * Z) :=
  first ← first_diffs cumulative_difficulties;
  mid ← mid_diffs cumulative_difficulties;
  last ← last_diffs cumulative_difficulties;
  Ret (median first, median mid, median last).

(** The anti-manipulation branch: the two vectors after it. *)
Definition v4_shrink (timestamps cumulative_difficulties : list Z)
  : outcome (list Z * list Z) :=
  let length_cumul_diff := size cumulative_difficulties in
  if DIFFICULTY_BLOCKS_COUNT_V12 - 1 <=? length_cumul_diff then
    m ← v4_medians cumulative_difficulties;
    let '(median_first, median_mid, median_last) := m in
    if (wrap64 (median_mid * 6) / 5 <? median_first)
       && (wrap64 (median_last * 10) / 9 <? median_mid)
    then Ret (resize_to 25 timestamps, resize_to 25 cumulative_difficulties)
    else if (wrap64 (median_first * 6) / 5 <? median_mid)
            && (wrap64 (median_mid * 10) / 9 <? median_last)
    then Ret (resize_to 25 timestamps, resize_to 25 cumulative_difficulties)
    else Ret (timestamps, cumulative_difficulties)
  else Ret (timestamps, cumulative_difficulties).

(** The variables of the main loop of [next_difficulty_v4]. *)
Record v4_vars : Type := V4Vars {
  previous_max : Z;
  weighted_timespans : Z;
  nbShortTsLastNBlocks : Z;
  lastTimeWasShort : bool;
  lastShortTimeInARaw : Z;
  nbLongTsLastNBlocks : Z
}.

Definition v4_step (timestamps : list Z) (length target_seconds : Z)
    (s : v4_vars) (i : Z) : outcome v4_vars :=
  t_i ← at_index timestamps i;
  let max_timestamp := if previous_max s <? t_i then t_i else previous_max s in
  let timespan := wrap64 (max_timestamp - previous_max s) in
  let timespan :=
    if timespan =? 0 then 1
    else if wrap64 (11 * target_seconds) <? timespan then wrap64 (11 * target_seconds)
    else timespan in
  let '(nbShort, wasShort, inARaw, nbLong) :=
    if wrap64 (length - 7) <=? i then
      let '(nbShort, wasShort, inARaw) :=
        if timespan <? 30
        then (nbShortTsLastNBlocks s + 1, true, lastShortTimeInARaw s + 1)
        else (nbShortTsLastNBlocks s, false, 0) in
      (nbShort, wasShort, inARaw,
       if 100 <? timespan then nbLongTsLastNBlocks s + 1 else nbLongTsLastNBlocks s)
    else (nbShortTsLastNBlocks s, lastTimeWasShort s, lastShortTimeInARaw s,
          nbLongTsLastNBlocks s) in
  Ret (V4Vars max_timestamp (wrap64 (weighted_timespans s + wrap64 (i * timespan)))
         nbShort wasShort inARaw nbLong).

(** "adjust faster if many blocks found too fast". *)
Definition v4_adjust (s : v4_vars) : Z :=
  let w := weighted_timespans s in
  let seven_eighths (c : Z) (w : Z) :=
    if lastShortTimeInARaw s =? c then wrap64 (w * 7) / 8 else w in
  if lastTimeWasShort s then
    if 7 <=? nbShortTsLastNBlocks s then wrap64 (w * 1) / 2
    else if nbShortTsLastNBlocks s =? 6 then seven_eighths 6 (wrap64 (w * 3) / 5)
    else if nbShortTsLastNBlocks s =? 5 then seven_eighths 5 (wrap64 (w * 4) / 5)
    else if nbShortTsLastNBlocks s =? 4 then seven_eighths 4 (wrap64 (w * 9) / 10)
    else if nbShortTsLastNBlocks s =? 3 then seven_eighths 3 (wrap64 (w * 11) / 12)
    else w
  else w.

Definition next_difficulty_v4 (timestamps cumulative_difficulties : list Z)
    (target_seconds : Z) : outcome Z :=
  let '(timestamps, cumulative_difficulties) :=
    if DIFFICULTY_BLOCKS_COUNT_V12 <? size timestamps
    then (resize_to DIFFICULTY_BLOCKS_COUNT_V12 timestamps,
          resize_to DIFFICULTY_BLOCKS_COUNT_V12 cumulative_difficulties)
    else (timestamps, cumulative_difficulties) in
  vs ← v4_shrink timestamps cumulative_difficulties;
  let '(timestamps, cumulative_difficulties) := vs in
  let length := size timestamps in
  _ ← assert NDEBUG (length =? size cumulative_difficulties);
  if length <=? 1 then Ret 1
  else
    t_0 ← at_index timestamps 0;
    s ← for_each (v4_step timestamps length target_seconds) (seqZ 1 (length - 1))
          (V4Vars t_0 0 0 false 0 0);
    let weighted_timespans := v4_adjust s in
    let target := wrap64 (99 * wrap64 (wrap64 (length + 1) / 2 * target_seconds)) / 100 in
    let minimum_timespan := wrap64 (target_seconds * length) / 2 in
    let weighted_timespans :=
      if weighted_timespans <? minimum_timespan then minimum_timespan
      else weighted_timespans in
    d_back ← at_index cumulative_difficulties (size cumulative_difficulties - 1);
    d_front ← at_index cumulative_difficulties 0;
    let total_work := wrap64 (d_back - d_front) in
    _ ← assert NDEBUG (0 <? total_work);
    let '(low, high) := mul x86_64 total_work target in
    if negb (high =? 0) then Ret 0
    else udiv low weighted_timespans.

(** [next_difficulty] up to its call of [mul]: the values of [time_span]
    and [total_work] there, [None] when the function has returned 1 on at
    most one entry.  [next_difficulty_v2] has the same lines. *)
Definition next_difficulty_vars (timestamps cumulative_difficulties : list Z)
  : outcome (option (Z * Z)) :=
  let '(timestamps, cumulative_difficulties) :=
    if DIFFICULTY_WINDOW <? size timestamps
    then (resize_to DIFFICULTY_WINDOW timestamps,
          resize_to DIFFICULTY_WINDOW cumulative_difficulties)
    else (timestamps, cumulative_difficulties) in
  let length := size timestamps in
  _ ← assert NDEBUG (length =? size cumulative_difficulties);
  if length <=? 1 then Ret None
  else
    _ ← assert NDEBUG (length <=? DIFFICULTY_WINDOW);
    let timestamps := sort timestamps in
    let '(cut_begin, cut_end) :=
      if length <=? DIFFICULTY_WINDOW - 2 * DIFFICULTY_CUT
      then (0, length)
      else
        let cut_begin :=
          wrap64 (wrap64 (length - (DIFFICULTY_WINDOW - 2 * DIFFICULTY_CUT)) + 1) / 2 in
        (cut_begin, wrap64 (cut_begin + (DIFFICULTY_WINDOW - 2 * DIFFICULTY_CUT))) in
    _ ← assert NDEBUG ((cut_begin + 2 <=? cut_end) && (cut_end <=? length));
    t_end ← at_index timestamps (cut_end - 1);
    t_begin ← at_index timestamps cut_begin;
    let time_span := wrap64 (t_end - t_begin) in
    let time_span := if time_span =? 0 then 1 else time_span in
    d_end ← at_index cumulative_difficulties (cut_end - 1);
    d_begin ← at_index cumulative_difficulties cut_begin;
    let total_work := wrap64 (d_end - d_begin) in
    _ ← assert NDEBUG (0 <? total_work);
    Ret (Some (time_span, total_work)).

(** [next_difficulty_v4] up to its call of [mul]: the values of
    [weighted_timespans], [target] and [total_work] there, [None] when the
    function has returned 1 on at most one entry. *)
Definition next_difficulty_v4_vars (timestamps cumulative_difficulties : list Z)
    (target_seconds : Z) : outcome (option (Z * Z * Z)) :=
  let '(timestamps, cumulative_difficulties) :=
    if DIFFICULTY_BLOCKS_COUNT_V12 <? size timestamps
    then (resize_to DIFFICULTY_BLOCKS_COUNT_V12 timestamps,
          resize_to DIFFICULTY_BLOCKS_COUNT_V12 cumulative_difficulties)
    else (timestamps, cumulative_difficulties) in
  vs ← v4_shrink timestamps cumulative_difficulties;
  let '(timestamps, cumulative_difficulties) := vs in
  let length := size timestamps in
  _ ← assert NDEBUG (length =? size cumulative_difficulties);
  if length <=? 1 then Ret None
  else
    t_0 ← at_index timestamps 0;
    s ← for_each (v4_step timestamps length target_seconds) (seqZ 1 (length - 1))
          (V4Vars t_0 0 0 false 0 0);
    let weighted_timespans := v4_adjust s in
    let target := wrap64 (99 * wrap64 (wrap64 (length + 1) / 2 * target_seconds)) / 100 in
    let minimum_timespan := wrap64 (target_seconds * length) / 2 in
    let weighted_timespans :=
      if weighted_timespans <? minimum_timespan then minimum_timespan
      else weighted_timespans in
    d_back ← at_index cumulative_difficulties (size cumulative_difficulties - 1);
    d_front ← at_index cumulative_difficulties 0;
    let total_work := wrap64 (d_back - d_front) in
    _ ← assert NDEBUG (0 <? total_work);
    Ret (Some (weighted_timespans, target, total_work)).

End Build.
End Difficulty.

(** * Block reward *)

Module Reward.
Import Mul.

(** [cryptonote_config.h] *)
Definition MONEY_SUPPLY_ETN : Z := 2100000000000.
Definition MONEY_SUPPLY : Z := 21000000000000.
Definition TOKENS : Z := 20000000000000.
Definition ELECTRONERO_TOKENS : Z := 3610309000000000.
Definition EMISSION_SPEED_FACTOR_PER_MINUTE : Z := 20.
Definition FINAL_SUBSIDY_PER_MINUTE : Z := 100000000.
Definition CRYPTONOTE_BLOCK_GRANTED_FULL_REWARD_ZONE_V2 : Z := 60000.
Definition CRYPTONOTE_BLOCK_GRANTED_FULL_REWARD_ZONE_V1 : Z := 20000.
Definition CRYPTONOTE_BLOCK_GRANTED_FULL_REWARD_ZONE_V5 : Z := 300000.
Definition DIFFICULTY_TARGET_V1 : Z := 60.
Definition DIFFICULTY_TARGET_V2 : Z := 120.
Definition DIFFICULTY_TARGET : Z := DIFFICULTY_TARGET_V2.
Definition COIN_EMISSION_MONTH_INTERVAL : Z := 6.
Definition PEAK_COIN_EMISSION_YEAR : Z := 4.

(** [(uint64_t) (COIN_EMISSION_MONTH_INTERVAL * (30.4375 * 24 * 3600) /
    DIFFICULTY_TARGET)], computed in [double]. *)
Definition COIN_EMISSION_HEIGHT_INTERVAL : outcome Z :=
  Double.to_uint64
    (Double.of_Z COIN_EMISSION_MONTH_INTERVAL * (30.4375 * 24 * 3600)
     / Double.of_Z DIFFICULTY_TARGET)%float.

(** [(uint64_t) (((12 * 30.4375 * 24 * 3600)/DIFFICULTY_TARGET) *
    PEAK_COIN_EMISSION_YEAR)], computed in [double]. *)
Definition PEAK_COIN_EMISSION_HEIGHT : outcome Z :=
  Double.to_uint64
    (((12 * 30.4375 * 24 * 3600) / Double.of_Z DIFFICULTY_TARGET)
     * Double.of_Z PEAK_COIN_EMISSION_YEAR)%float.

(** [cryptonote_basic_impl.cpp] *)
Definition MAINNET_HARDFORK_V7_HEIGHT : Z := 307003.
Definition MAINNET_HARDFORK_V10_HEIGHT : Z := 310790.
Definition MAINNET_HARDFORK_V14_HEIGHT : Z := 337816.
Definition MAINNET_HARDFORK_V16_HEIGHT : Z := 500060.
Definition MAINNET_HARDFORK_V17_HEIGHT : Z := 570000.
Definition MAINNET_HARDFORK_V18_HEIGHT : Z := 659000.
Definition MAINNET_HARDFORK_V19_HEIGHT : Z := 739800.
Definition MAINNET_HARDFORK_V20_HEIGHT : Z := 1132596.
Definition MAINNET_HARDFORK_V21_HEIGHT : Z := 1132900.
Definition MAINNET_HARDFORK_V22_HEIGHT : Z := 1132935.
Definition MAINNET_HARDFORK_V23_HEIGHT : Z := 1183409.
Definition MAINNET_HARDFORK_V23_B_HEIGHT : Z := 1183485.

Definition get_min_block_size (version : Z) : Z :=
  if version <? 2 then CRYPTONOTE_BLOCK_GRANTED_FULL_REWARD_ZONE_V1
  else if version <? 5 then CRYPTONOTE_BLOCK_GRANTED_FULL_REWARD_ZONE_V2
  else CRYPTONOTE_BLOCK_GRANTED_FULL_REWARD_ZONE_V5.

(** Modelled from the spec: [div128_32] of [common/int-util.h] is not among
    the sources; the spec names it a "128/32 divide": the 128-bit quotient
    (high word, low word) of the 128-bit dividend by a 32-bit divisor. *)
Definition div128_32 (dividend_hi dividend_lo divisor : Z) : outcome (Z * Z) :=
  q ← udiv (dividend_hi * M64 + dividend_lo) divisor;
  Ret (q / M64, q mod M64).

Section Build.
(** [NDEBUG]: whether assertions are compiled out.  [ELECTRONERO_PULSE] and
    [ELECTRONERO_COINS]: two supply constants whose definitions are not
    among the sources. *)
Variable NDEBUG : bool.
Variables ELECTRONERO_PULSE ELECTRONERO_COINS : Z.

Definition COIN_SUPPLY (version height : Z) : Z :=
  let COIN_SUPPLY_V1 :=
    if version <? 7 then MONEY_SUPPLY_ETN
    else if version <? 10 then MONEY_SUPPLY
    else if version <? 16 then TOKENS
    else ELECTRONERO_TOKENS in
  let COIN_SUPPLY_V2 := wrap64 ELECTRONERO_PULSE in
  let COIN_SUPPLY_V3 := wrap64 ELECTRONERO_COINS in
  if height <? MAINNET_HARDFORK_V20_HEIGHT then COIN_SUPPLY_V1
  else if height <? MAINNET_HARDFORK_V23_B_HEIGHT then COIN_SUPPLY_V2
  else COIN_SUPPLY_V3.

Definition target_minutes (height : Z) : Z :=
  let target :=
    if height <? MAINNET_HARDFORK_V7_HEIGHT then DIFFICULTY_TARGET_V1
    else if MAINNET_HARDFORK_V14_HEIGHT <=? height then DIFFICULTY_TARGET_V1
    else DIFFICULTY_TARGET_V2 in
  Z.quot target 60.

Definition emission_speed_factor (height : Z) : Z :=
  EMISSION_SPEED_FACTOR_PER_MINUTE - (target_minutes height - 1).

Definition emission_speed (height : Z) : Z :=
  let target_minutes := target_minutes height in
  let emission_speed_factor := EMISSION_SPEED_FACTOR_PER_MINUTE - (target_minutes - 1) in
  let emission_speed_factor_v2 := EMISSION_SPEED_FACTOR_PER_MINUTE + (target_minutes - 1) in
  let emission_speed_factor_v3 := EMISSION_SPEED_FACTOR_PER_MINUTE + (target_minutes - 2) in
  let emission_speed_factor_v4 := EMISSION_SPEED_FACTOR_PER_MINUTE - (target_minutes - 1) in
  let emission_speed_factor_v6 := EMISSION_SPEED_FACTOR_PER_MINUTE + (target_minutes + 1) in
  let emission_speed_factor_v7 := EMISSION_SPEED_FACTOR_PER_MINUTE + (target_minutes + 9) in
  let emission_speed_factor_v8 := EMISSION_SPEED_FACTOR_PER_MINUTE + (target_minutes + 6) in
  let emission_speed_factor_v9 := EMISSION_SPEED_FACTOR_PER_MINUTE + (target_minutes + 9) in
  let emission_speed_factor_v10 := EMISSION_SPEED_FACTOR_PER_MINUTE + (target_minutes + 7) in
  let emission_speed_factor_v11 := EMISSION_SPEED_FACTOR_PER_MINUTE + (target_minutes + 9) in
  let emission_speed_factor_v12 := EMISSION_SPEED_FACTOR_PER_MINUTE + (target_minutes + 8) in
  let emission_speed_factor_v13 := EMISSION_SPEED_FACTOR_PER_MINUTE - (target_minutes - 3) in
  wrap64
    (if height <? MAINNET_HARDFORK_V7_HEIGHT then emission_speed_factor
     else if height <? MAINNET_HARDFORK_V10_HEIGHT then emission_speed_factor_v2
     else if height <? MAINNET_HARDFORK_V16_HEIGHT then emission_speed_factor_v3
     else if height <? MAINNET_HARDFORK_V17_HEIGHT then emission_speed_factor_v4
     else if height <? MAINNET_HARDFORK_V18_HEIGHT then emission_speed_factor_v6
     else if height <? MAINNET_HARDFORK_V19_HEIGHT then emission_speed_factor_v7
     else if height <? MAINNET_HARDFORK_V20_HEIGHT then emission_speed_factor_v8
     else if height <? MAINNET_HARDFORK_V21_HEIGHT then emission_speed_factor_v9
     else if height <? MAINNET_HARDFORK_V22_HEIGHT then emission_speed_factor_v10
     else if height <? MAINNET_HARDFORK_V23_HEIGHT then emission_speed_factor_v11
     else if height <? MAINNET_HARDFORK_V23_B_HEIGHT then emission_speed_factor_v12
     else emission_speed_factor_v13).

(** The value of [base_reward] when the function is entered (the
    initialiser before the injections). *)
Definition initial_base_reward (already_generated_coins version height : Z) : Z :=
  Z.shiftr (wrap64 (COIN_SUPPLY version height - already_generated_coins))
    (emission_speed_factor height).

(** The value of [base_reward] when the block-size penalty starts: the
    emission formula, the rounding and the final subsidy. *)
Definition base_reward (already_generated_coins version height : Z) : outcome Z :=
  let COIN_SUPPLY := COIN_SUPPLY version height in
  let emission_speed := emission_speed height in
  let round_factor := 10 in
  base_reward ←
    (if (307003 <? height) && (7 <=? version) then
       peak ← PEAK_COIN_EMISSION_HEIGHT;
       interval ← COIN_EMISSION_HEIGHT_INTERVAL;
       if height <? wrap64 (peak + interval) then
         interval_num ← udiv height interval;
         let money_supply_pct :=
           (0.1888 + Double.of_Z interval_num
                     * (0.023 + Double.of_Z interval_num * 0.0032))%float in
         scaled ← Double.to_uint64 (Double.of_Z COIN_SUPPLY * money_supply_pct)%float;
         Ret (Z.shiftr scaled emission_speed)
       else
         Ret (Z.shiftr (wrap64 (COIN_SUPPLY - already_generated_coins)) emission_speed)
     else
       Ret (Z.shiftr (wrap64 (COIN_SUPPLY - already_generated_coins)) emission_speed));
  (* rounding (floor) base reward *)
  let base_reward :=
    if 7 <? version then wrap64 (base_reward / round_factor * round_factor)
    else base_reward in
  let base_reward :=
    if version <? 2
    then Z.shiftr (wrap64 (MONEY_SUPPLY_ETN - already_generated_coins)) emission_speed
    else base_reward in
  let FINAL_SUBSIDY_ACTIVATOR := 666 in
  Ret (if (base_reward <? FINAL_SUBSIDY_ACTIVATOR)
          && (COIN_SUPPLY <=? already_generated_coins)
       then FINAL_SUBSIDY_PER_MINUTE else base_reward).

(** The block-size penalty on [base_reward]: [Some reward] when the function
    returns [true], [None] when it returns [false]. *)
Definition penalty (median_size current_block_size base_reward version : Z)
  : outcome (option Z) :=
  let full_reward_zone := get_min_block_size version in
  (* make it soft *)
  let median_size :=
    if median_size <? full_reward_zone then full_reward_zone else median_size in
  if current_block_size <=? median_size then Ret (Some base_reward)
  else if wrap64 (2 * median_size) <? current_block_size then Ret None
  else
    _ ← assert NDEBUG (median_size <? M32 - 1);
    _ ← assert NDEBUG (current_block_size <? M32 - 1);
    let multiplicand := wrap64 (wrap64 (2 * median_size) - current_block_size) in
    let multiplicand := wrap64 (multiplicand * current_block_size) in
    let '(product_lo, product_hi) := mul128 base_reward multiplicand in
    q ← div128_32 product_hi product_lo (wrap32 median_size);
    let '(reward_hi, reward_lo) := q in
    q ← div128_32 reward_hi reward_lo (wrap32 median_size);
    let '(reward_hi, reward_lo) := q in
    _ ← assert NDEBUG (0 =? reward_hi);
    _ ← assert NDEBUG (reward_lo <? base_reward);
    Ret (Some reward_lo).

(** The hard-coded rewards of single heights, checked first. *)
Definition injection (height : Z) : option Z :=
  let electroneum_genesis_byte_size := 1260000000000 in
  if height =? 1 then Some electroneum_genesis_byte_size
  else
    let community_airdrop_byte_size := electroneum_genesis_byte_size in
    if (height =? 307003) || (height =? 310790) then Some community_airdrop_byte_size
    else
      let electronero_genesis_byte_size := 613090000000000 in
      if (height =? 500060) || (height =? 1183410) || (height =? 1183411)
         || (height =? 1183412) || (height =? 1183413)
      then Some electronero_genesis_byte_size
      else
        let electronero_parking_genesis_byte_size := 3333333333310301990 in
        if height =? 1132597 then Some electronero_parking_genesis_byte_size
        else None.

(** The heights that [injection] answers. *)
Definition injection_heights : list Z :=
  [1; 307003; 310790; 500060; 1183410; 1183411; 1183412; 1183413; 1132597].

(** [get_block_reward] with the value its variable [base_reward] holds on
    return: [(base_reward, Some reward)] for [true] with [reward] written,
    [(base_reward, None)] for [false]. *)
Definition get_block_reward_vars
    (median_size current_block_size already_generated_coins version height : Z)
  : outcome (Z * option Z) :=
  let base_reward_0 := initial_base_reward already_generated_coins version height in
  match injection height with
  | Some reward => Ret (base_reward_0, Some reward)
  | None =>
      base_reward ← base_reward already_generated_coins version height;
      r ← penalty median_size current_block_size base_reward version;
      Ret (base_reward, r)
  end.

Definition get_block_reward
    (median_size current_block_size already_generated_coins version height : Z)
  : outcome (option Z) :=
  v ← get_block_reward_vars median_size current_block_size
        already_generated_coins version height;
  Ret (snd v).

End Build.

(** The reward that the specification's fourth seed test expects at height
    307100 under version 7: "[(MONEY_SUPPLY - 0) >> (20 + 1)] then rounded
    down to a multiple of 10". *)
Definition seed_test_4_expected : Z := Z.shiftr (MONEY_SUPPLY - 0) (20 + 1) / 10 * 10.

End Reward.

(** * Checkpoints *)

Module Checkpoints.

Inductive network_type : Type :=
  | MAINNET
  | TESTNET
  | STAGENET
  | FAKECHAIN
  | UNDEFINED.

(** A [crypto::hash]: its 32 bytes.  The registry [m_points] is a
    [std::map<uint64_t, crypto::hash>]. *)
Abbreviation hash := (list Z) (only parsing).
Abbreviation registry := (gmap Z (list Z)) (only parsing).

Definition hex_digit (c : Ascii.ascii) : option Z :=
  let n := Z.of_N (Ascii.N_of_ascii c) in
  if (48 <=? n) && (n <=? 57) then Some (n - 48)
  else if (97 <=? n) && (n <=? 102) then Some (n - 87)
  else if (65 <=? n) && (n <=? 70) then Some (n - 55)
  else None.

Fixpoint parse_hexstr_to_binbuff (s : string) : option (list Z) :=
  match s with
  | EmptyString => Some []
  | String a (String b rest) =>
      hi ← hex_digit a;
      lo ← hex_digit b;
      bs ← parse_hexstr_to_binbuff rest;
      Some (16 * hi + lo :: bs)
  | String _ EmptyString => None
  end.

(** Modelled from the spec: [epee::string_tools::parse_tpod_from_hex_string]
    is not among the sources; the spec gives a checkpoint hash as "<64-hex>"
    and rejects any other string ([InvalidHexHash]): 64 hexadecimal digits
    give the 32 bytes of the hash. *)
Definition parse_tpod_from_hex_string (hash_str : string) : option (list Z) :=
  bs ← parse_hexstr_to_binbuff hash_str;
  if (length bs =? 32)%nat then Some bs else None.

(** [bool add_checkpoint(height, hash_str)]: the returned flag and the
    registry afterwards. *)
Definition add_checkpoint (height : Z) (hash_str : string) (m_points : gmap Z (list Z))
  : bool * gmap Z (list Z) :=
  match parse_tpod_from_hex_string hash_str with
  | None => (false, m_points)
  | Some h =>
      (* return false if adding at a height we already have AND the hash is
         different *)
      match m_points !! height with
      | Some h' =>
          if bool_decide (h = h') then (true, <[height := h]> m_points)
          else (false, m_points)
      | None => (true, <[height := h]> m_points)
      end
  end.

(** [check_block(height, h, is_a_checkpoint)]: the returned flag and
    [is_a_checkpoint]. *)
Definition check_block (m_points : gmap Z (list Z)) (height : Z) (h : list Z)
  : bool * bool :=
  match m_points !! height with
  | None => (true, false)
  | Some h' => if bool_decide (h' = h) then (true, true) else (false, true)
  end.

(** The greatest of a list of heights. *)
Definition greatest (keys : list Z) : option Z :=
  match keys with
  | [] => None
  | k :: ks => Some (foldl Z.max k ks)
  end.

(** The keys of the map. *)
Definition heights (m_points : gmap Z (list Z)) : list Z := (map_to_list m_points).*1.

(** [--m_points.upper_bound(blockchain_height)]: the greatest key that is
    at most [blockchain_height]; [None] when [upper_bound] is [begin()]. *)
Definition before_upper_bound (m_points : gmap Z (list Z)) (blockchain_height : Z)
  : option Z :=
  greatest (filter (fun k => k <= blockchain_height) (heights m_points)).

Definition is_alternative_block_allowed (m_points : gmap Z (list Z))
    (blockchain_height block_height : Z) : bool :=
  if 0 =? block_height then false
  else
    match before_upper_bound m_points blockchain_height with
    (* Is blockchain_height before the first checkpoint? *)
    | None => true
    | Some checkpoint_height => checkpoint_height <? block_height
    end.

(** [std::max_element] over the keys; dereferencing [end()] on an empty map
    is undefined. *)
Definition get_max_height (m_points : gmap Z (list Z)) : outcome Z :=
  match greatest (heights m_points) with
  | Some highest => Ret highest
  | None => Undefined
  end.

(** A run of [ADD_CHECKPOINT(h, hash);] statements.  The macro of
    [checkpoints.h] is [CHECK_AND_ASSERT(add_checkpoint(h, hash), false);]:
    the enclosing function returns [false] at the first failure. *)
Fixpoint ADD_CHECKPOINTS (points : list (Z * string)) (m_points : gmap Z (list Z))
  : bool * gmap Z (list Z) :=
  match points with
  | [] => (true, m_points)
  | (h, hash_str) :: rest =>
      let '(r, m_points) := add_checkpoint h hash_str m_points in
      if r then ADD_CHECKPOINTS rest m_points else (false, m_points)
  end.

Local Open Scope string_scope.

Definition testnet_checkpoints : list (Z * string) :=
  [ (0, "48ca7cd3c8de5b6a4d53d2861fbdaedca141553559f9be9520068053cda8430b");
    (1000000, "46b690b710a07ea051bc4a6b6842ac37be691089c0f7758cfeec4d5fc0b4a258") ].

Definition stagenet_checkpoints : list (Z * string) :=
  [ (0, "76ee3cc98646292206cd3e86f74d88b4dcc1d937088645e9b0cbca84b7ce74eb");
    (10000, "1f8b0ce313f8b9ba9a46108bfd285c45ad7c2176871fd41c3a690d4830ce2fd5") ].

Definition mainnet_checkpoints : list (Z * string) :=
  [ (1, "4536e1e23ff7179a126a7e61cd9e89ded0e258176f2bc879c999caa155f68cc3");
    (10, "e5aefcb1d575a788ecfb65bb7be3bdd135eb76ccefb38a60d7800e86d25d408e");
    (100, "e3548600cc0e2991af4f36bbf44addd95051748fc09e8cac5f8237fd841132c0");
    (1000, "d7ec8a6329948fee02cdc95b13f286bd69fe9540863a80dfff7fe14940756293");
    (10000, "95dad4575ba43eb0d4ba9b6081d5d52e6a74fc8fe3391d9628f78ddd3b71c965");
    (25000, "7c4062b935413c84e5de8e6c27917f5158ec4e39dd322798dcf4772eb4634772");
    (50000, "1e85615e78d31168a1e7a1c0bf64a607d0adff70d78d3baa7c954adff3cc8c2a");
    (100000, "a7b51ca66b2525903efbd4a32604a7ad5000df4b9da8bdd9cb3062cb014b0cad");
    (150000, "e9b66d3f12f9cedece7d9925721b15f1ec6cb2f6b438b3ddd288237c27ffe20e");
    (179839, "f8631f50ef79b840cba9fe3484764d0c7515ff2884e1f5be2f7298a4d08e88ee");
    (179840, "74958c1b19505ab49babc91dfd14251146256873ae875ac97c26fb2000490e70");
    (179841, "8a793f1aef368e83fa72ac3a236309c06ae7726958120514e0f6d33ff3b24548");
    (180000, "65193d028c4264dc679ee384d654eff59085976231f93b990ad16a5370961803");
    (200000, "9a7853584fbe0d88746d3d7bb6a3efd02ecaa3f0158808fde9f3c8339b3d5d8f");
    (225000, "26b00fd2638340dae0b2a479598dd82c6af489b876e85cdc203f41ad90d83233");
    (230000, "b01bdcc2effb4ccfd9cf41c4412b866b2f13058e759a900cf5d24a308b9a3fcd");
    (307003, "b79cb23dafca9fb36400bc15180b48cfa43d8839c16a4938a99fb11ab024dcdf");
    (307165, "507c9d28562a311833d03970db160ae2b875eefae6e4e5acbe128b8d1d4222ac");
    (307166, "b2723276aa1ffcfbd1058547cb6d0b01307a0560ee15c3c3ca786025d7dad88b");
    (307167, "49d4e1c57eddde66786c12de22efc047f66618fcb7e85b1fcd993f5b5727554e");
    (307168, "ab767ef1d8fcb902b3fc01e63e18f9782865eb3d867df7e8cf619041de4f9aef");
    (307169, "a7719a0532f834a289e6881f04f1666c9e82948f794edc4dd0c8efdcd56e98eb");
    (307170, "55490ffe0a65f5be663307970c9ade18a0f5449cfaa83a97b1912e49f43a3345");
    (307171, "526f407f6e5e8793a3a4bdf4f603d7f2827f58c7d86ae60544dd4e9005ea2c96");
    (307172, "ba1bb40c2834cab4bfdb8d0ff19247724e1cd4204d96df2b82fd713ff48aa27d");
    (307173, "da9f28679928fed5e51644a0f2663233208140e7da30eef9a14d2227fb0dc023");
    (307174, "9b75434375e4fbabc0be2c8d69b37404bd7739417e0c151bdae258b0c2d382dc");
    (307175, "d23037889c2e97f8eec4d9ad0fa26a7bf72f89ed45c04e340c65656f675c3821");
    (308112, "0a8ff6a620824c65a796b75d1bdbeccf8150012e2d4fdc5d6f86ce8b8e8d73fe");
    (309231, "372cdcb2c5b89afb3cd6fa28a6f3b86d4e23c0451cf21f048fbe5305d3dca977");
    (310790, "dc74427bc33b9cb9414986ee6455f3548bf52e7a43091c7cd0be5beeda453571");
    (310791, "798da7aede00a28a6d9a5b924fd31e39ce764b8b3f591386ce8e95965fd8e31c");
    (319000, "d544e7cc7b2ed85703f36eb572b79c0d50a2d8f94baa5246577d28f6a3811bc6");
    (319062, "99436c56256fcd6812b49100c05f78684723f6d8cde16970308ab5db86fdf870");
    (320023, "566cabc0a6745085da3a13e38e5d8b9f87997db9600d0df34168fe33d0d621fd");
    (333685, "59ad2423d2bba213e3939e044acdabed74f654350c4309b104d2c9444b9707e2");
    (333690, "037c51d236cf33d2a58d45b30d8a6f0f59792693bd783be3593984313a4e5a68");
    (333691, "7cec4b3b4ea14ae386264654c29d30ab9718fb999af4d43f41e3cd989ba39dca");
    (333692, "671d71b2083014c9c6e2b1f09551bec417cd001417b1b685705c4e6ec0d6a9d6");
    (333693, "c2c8018a9005e0919e2a2872bca8ea278ef1def8ba865be21365d96ac6a8fc9c");
    (333694, "d719281ca62a65899eda0808a6d87b7406bd1bcd9e2045fbdfc2e4726d9493b5");
    (333695, "c937db6319b8fb86406089773e292ac2423896538e7f4df4bc4be02f60d2d937");
    (333696, "44d1d38dbfd07a1fc41a194baa1952218324ba535b221c02dff1d4b25df9e32c");
    (333697, "f5bf2b1edb09776a81089f36d40cf791d2444d50f47fa7a38035994ecfa7247b");
    (333698, "ad54c31db02630379d29dee36dbc7f4e25c41e1c9e1019350380ff696a2e74a8");
    (333699, "c2577b259a5951a2b4803be7ca1af29a4eb66187d056ba563faec494e30260d8");
    (337235, "ad63ea7d3fb97598612016d73dba7befe5badb4b5ed6aba2cff9f89392674eb8");
    (337239, "8f54ba081eff7b42e0815434ba46155033dead3b4a01fb345b8580e291bc0512");
    (337240, "b64b2e579420d5e3fcc481d401bdf6bc174bbdedb461ac5793c5401ac9f63f61");
    (337282, "67312bc96c5f1bbe68f096af30d221cf0917e945c5afa8344d59983a1568a5e4");
    (337314, "1a6a757ab93b5c18ab489796db602d94f77357cb5eb20c046362b9c96fd93a70");
    (337341, "0bc854f4db94240ae05f390b255dfb6f112b4fd0322297cccd74dcc0f79bd4ac");
    (337344, "1b0829521c151235a930fc425e6684a105c86391d07b621bd262ee4687c11b3a");
    (337364, "615447441bfb46c880eee9a913aec5e257e8b9a07555e32562097ce51afae23e");
    (337385, "0832b54ad07789271f31fedbdb5f9636c4f6083185f7124b541a506dcf7b126e");
    (337397, "919a7fc0191013fba630313f32f51e6049b0f9c789ef0c4c646811889ac6050f");
    (337807, "a901b1ab60c0a9fdb78ae7761d0b40ab5ebd58c95ea5f124f2d3cab3a33fea70");
    (337808, "9207f4095a3b02389cf279871adf897a95f8718a5d967f9c38cd07dc0c4e84da");
    (337809, "5193a1a97f762bdaf0680773d86e19a45d72ccb1a57e5c037adc191696c8b455");
    (337810, "ae7b15ab2edcb9219398d4e9722060b9215cc6fc200f6654c3aba003ca0f27e1");
    (337811, "382edc23e7333b83e17b0672c713d6a7f016c074f4783957eb23f7ca50d4d15e");
    (337812, "3b5c97e6107368b6f519c06647dc0b767be6adfea602c5b782151376382faa27");
    (337813, "026a68d5512df448f0b3ce7cccf7d240bfacff0f6427bcaf5ecd3828a1cfd8a9");
    (337814, "008394ffa0cec8a14e1e61e4fb270fad3e939f8a5e1422da4868ec55132b82e4");
    (337815, "0a53b0661858eee6865de4e22c5a3ba7cbcd0e897bf8b94104a0eeab0a120403");
    (337911, "9b32bb69d76da8f39e82a6f3f0efd9efa2409089c98c6381ccb3caa2f00f076c");
    (337837, "c554c42e87daefab96a67e01693c8a8555fcf8f448cbd391e2ee2f36c7cb9efa");
    (337838, "efd2eb0e38e8160b3f1de9828e94abb6c88d5f4e57c8691656614307b773a5cf");
    (337839, "e8637efe7c3a14236705415355c6208e0bbd12cb5bbab38fa8191905c561c8a7");
    (337840, "0a73fd810b5236492b96d73fba17752dea20865e3a4fe6d4bc0cc85e7f3ccaeb");
    (338120, "460f07a66c0a7d6fd2379d546a3ce4617dc36dbaf288691383f83034f69365a8");
    (338131, "0e5e436c64987b8d3d4b75b6962cb7cc19afed7e41d71b4f7750683bd6e8e89a");
    (500060, "3162e099b404ea6bdf246eda4f96f63409e4421699d59961b0646de09cb5b5ae");
    (500091, "3402fee8444fab44d5f5e8069d0d451cb44d9fcf688eaf21938e4b13f998d477");
    (500092, "595a2537bd62ae981ea55ff1d162bad23efc47b48ed56cc8849ee17b541cd232");
    (500093, "b7a87dca4f87d36e8de4e0af22c608f78b2b3d7ed828cb78043c67279d64da34");
    (500094, "f6438a9b612b3df8cff09257376a15312749e5f79001cbe964dd7a1fe47915d8");
    (500095, "551a48dbfaaf92431e86523db2623dd067fd232da23e32482d47d96e338d805e");
    (500096, "77362bb7d9634286ec5357e6cc67b18bf41f03ac52389146d80134c2de232c90");
    (500097, "18a9862eda00a672e45dd4a07fda31c9f94a36946860a3fbbd1c58e3ebaffe46");
    (570000, "e208f70a4a587e5cf9856fc678329c6e2a8a112a86b96caabb07f07f89181342");
    (570001, "d12e464f1a0700125a66653bac66236e6b9268398d9cc117e18d8d87114079d6");
    (570002, "e1e2a73662b242b33b9011a39e738fd733287bda190b7cf90d3f506ce4ea0d49");
    (570003, "23cb7c0fe4e3ddeb599c1412ea669c01fe4aa4b979b9e5117cc4b2801de43c7b");
    (570004, "20214d3f75d37ceb5a605049084d791112818ddd56206d67ebb5fe28d03cee81");
    (570005, "1af4da6b32d251f240c19960856fe00d2d7265706dd03c108c92fa3398f47dec");
    (570006, "c9b961073eb18abbc06e16109e842a9164a7e640971619c98300140ee4d8ca0f");
    (570007, "102dc5dd519ad9ec4789509f997bafffdf40badb00207e6a039d10098270a013");
    (570008, "6b22df08fa0019d47062a04912f973e0a47d349ce9b60846d374e0dee8c9f2fe");
    (570009, "37e275f7c6333bdc4d35690385aae8f43fb3e5c47148779896106c90378d58ff");
    (570010, "37a6874dbc046ea5bb500f495d2a0cff4d3780c2ccc806bb1e7263d6be0f726e");
    (570100, "bb5558576e556309d68a6c5340ca8c3ec25c2e817d2213dc783f8e73585fb882");
    (570500, "75ae08bcb3381a690dfbe4ef6e1df2255ffd31799ab430b559cb8f27225aa0bf");
    (571000, "8214268da414868124394816005becd108c14dd698f3cf52806c6b4bdf9c55dd");
    (572000, "10ebe56e4abdd6ce6aa8d23591c33738129d486e077f008e95ee789c80cb137e");
    (572500, "7ef06ab2d81eb6b26485fce59cf4962070b8911b60fb06e0edc91a7085b46fff");
    (575000, "bb96c665292eb274fab3296ab3d17c5fa1e4f60f663390725df629c96e97b673");
    (576000, "7ad28e4695bf5fe7ff662208fdd429b0cfb527e5b0f9e416c4807afef7f0ea98");
    (577000, "6a8fbc9416df1a1318d7264a8935e86849dc634cff44c35e618bb40b22a1e3a4");
    (578000, "71efd65fa9d494217b0d7b7aeed9264abe3cab1fd4caf1fa2c305deee4f9c91b");
    (580000, "c7cef0de1ade1eaa6edaa4c886d8cd3db69842862f20067902ac876135b41060");
    (659000, "f87e10716fbdd85a7bda015dbb9d86fa1804fafffbe89c9f8bac1175ffb6a189");
    (659001, "3fb1a49b88fc2e3a27bfca45db97042df368e76a13ea11eab3be3ea85bb330b6");
    (659002, "1bda90c99301c5a30e45f5f08f919489ca822289700d4ffda25e5e0719b06c55");
    (659003, "6f3c880cf837ba7c75cace9273bd2e7a7e2a1a4f310842840b77635cfb29c94e");
    (659004, "307a20286eab111041028f92c3d0980e9f8a11e9723785115bb3790557e07a4d");
    (659005, "6db7095fabfe42477f2939bb5e008aaad3bfda4b5e9de8b2ee0260cfc7b6749a");
    (659006, "db663f8aef9f42972ae88ab9f45e916748cb21b6a3c1fcbd865a5c924fa2880e");
    (659007, "378d8fa198b0eacb77ac88954f99f930166c2fb1391264c34954b5103f4ebffe");
    (659008, "8ffc00a38f02f2ead1c823a829a62e87f842f2c21f6bf2994b98fb748f08aadf");
    (659009, "c284e37e6296d07b96c0b561ea4fe8d0740bac7b9ac70cbc5400341fe376f513");
    (673449, "40b86f57befb6f5930900aca81784fd9fa4ef1bfdd51b47e3851381573aaaa8c") ].

Local Close Scope string_scope.

Definition init_default_checkpoints (nettype : network_type)
    (m_points : gmap Z (list Z)) : bool * gmap Z (list Z) :=
  match nettype with
  | TESTNET => ADD_CHECKPOINTS testnet_checkpoints m_points
  | STAGENET => ADD_CHECKPOINTS stagenet_checkpoints m_points
  | _ => ADD_CHECKPOINTS mainnet_checkpoints m_points
  end.

(** A line of the JSON file. *)
Record t_hashline : Type := Hashline { height : Z; hash_of : string }.

(** What [load_checkpoints_from_json] finds at the path: no file, a file
    that [load_t_from_json_file] rejects, or the [hashlines] of the file. *)
Inductive json_file : Type :=
  | Missing
  | Unreadable
  | Loaded (hashlines : list t_hashline).

(** The loop over [hashes.hashlines]. *)
Fixpoint load_hashlines (prev_max_height : Z) (hashlines : list t_hashline)
    (m_points : gmap Z (list Z)) : bool * gmap Z (list Z) :=
  match hashlines with
  | [] => (true, m_points)
  | it :: rest =>
      if height it <=? prev_max_height then
        (* ignoring checkpoint height *)
        load_hashlines prev_max_height rest m_points
      else
        let '(r, m_points) := add_checkpoint (height it) (hash_of it) m_points in
        if r then load_hashlines prev_max_height rest m_points
        else (false, m_points)
  end.

Definition load_checkpoints_from_json (file : json_file) (m_points : gmap Z (list Z))
  : outcome (bool * gmap Z (list Z)) :=
  match file with
  | Missing => Ret (true, m_points)
  | _ =>
      prev_max_height ← get_max_height m_points;
      match file with
      | Loaded hashlines => Ret (load_hashlines prev_max_height hashlines m_points)
      | _ => Ret (false, m_points)
      end
  end.

(** [!m_points.empty() && (height <= (--m_points.end())->first)]: the last
    key of the map is its greatest. *)
Definition is_in_checkpoint_zone (m_points : gmap Z (list Z)) (height : Z) : bool :=
  match greatest (heights m_points) with
  | None => false
  | Some last => height <=? last
  end.

(** The loop of [check_for_conflicts] over the points of the other
    registry: [false] at the first height that both pin with different
    hashes. *)
Fixpoint conflicts_loop (points : list (Z * list Z)) (m_points : gmap Z (list Z))
  : bool :=
  match points with
  | [] => true
  | (k, h) :: rest =>
      match m_points !! k with
      | Some h' => if bool_decide (h = h') then conflicts_loop rest m_points else false
      | None => conflicts_loop rest m_points
      end
  end.

Definition check_for_conflicts (m_points other : gmap Z (list Z)) : bool :=
  conflicts_loop (map_to_list other) m_points.

Section Dns.
(** [parse_height s]: [std::stringstream ss(s); ss >> height] into a
    [uint64_t], [None] when the extraction fails. *)
Variable parse_height : string -> option Z.

(** The loop of [load_checkpoints_from_dns] over the TXT records. *)
Fixpoint load_records (records : list string) (m_points : gmap Z (list Z))
  : bool * gmap Z (list Z) :=
  match records with
  | [] => (true, m_points)
  | record :: rest =>
      match String.index 0 ":" record with
      | None => load_records rest m_points
      | Some pos =>
          (* parse the first part as uint64_t, if this fails move on to the
             next record *)
          match parse_height (String.substring 0 pos record) with
          | None => load_records rest m_points
          | Some height =>
              (* parse the second part as crypto::hash, if this fails move on
                 to the next record *)
              let hashStr :=
                String.substring (pos + 1) (String.length record - (pos + 1)) record in
              match parse_tpod_from_hex_string hashStr with
              | None => load_records rest m_points
              | Some _ =>
                  let '(r, m_points) := add_checkpoint height hashStr m_points in
                  if r then load_records rest m_points else (false, m_points)
              end
          end
      end
  end.

(** The checkpoint that a TXT record ["<height>:<hash>"] stands for: none
    when the record has no colon or one of its two parts does not parse. *)
Definition dns_point (record : string) : option (Z * string) :=
  pos ← String.index 0 ":" record;
  height ← parse_height (String.substring 0 pos record);
  let hashStr :=
    String.substring (pos + 1) (String.length record - (pos + 1)) record in
  _ ← parse_tpod_from_hex_string hashStr;
  Some (height, hashStr).

(** [load_checkpoints_from_dns]; [records] is what
    [tools::dns_utils::load_txt_records_from_dns] gives for the URLs of the
    network: [None] when it returns [false]. *)
Definition load_checkpoints_from_dns (records : option (list string))
    (m_points : gmap Z (list Z)) : bool * gmap Z (list Z) :=
  match records with
  | None => (true, m_points) (* why true ? *)
  | Some records => load_records records m_points
  end.

Definition load_new_checkpoints (file : json_file) (records : option (list string))
    (dns : bool) (m_points : gmap Z (list Z)) : outcome (bool * gmap Z (list Z)) :=
  r ← load_checkpoints_from_json file m_points;
  let '(result, m_points) := r in
  if dns then
    let '(r_dns, m_points) := load_checkpoints_from_dns records m_points in
    Ret (result && r_dns, m_points)
  else Ret (result, m_points).

End Dns.

(** Any sequence of [add_checkpoint] calls, failed ones included: the
    registry afterwards. *)
Fixpoint add_sequence (calls : list (Z * string)) (m_points : gmap Z (list Z))
  : gmap Z (list Z) :=
  match calls with
  | [] => m_points
  | (h, hash_str) :: rest => add_sequence rest (snd (add_checkpoint h hash_str m_points))
  end.

(** The hash of the first call of the sequence that succeeds at [height]. *)
Fixpoint first_stored (height : Z) (calls : list (Z * string))
    (m_points : gmap Z (list Z)) : option (list Z) :=
  match calls with
  | [] => None
  | (h, hash_str) :: rest =>
      let '(r, m_points') := add_checkpoint h hash_str m_points in
      if r && (h =? height) then parse_tpod_from_hex_string hash_str
      else first_stored height rest m_points'
  end.

End Checkpoints.

(** * Properties *)

Import Mul.

(** ** Machine integers *)

Lemma wrap64_range z : 0 <= wrap64 z < M64.
Proof. unfold wrap64. apply Z.mod_pos_bound. lia. Qed.

Lemma wrap64_small z : 0 <= z < M64 -> wrap64 z = z.
Proof. unfold wrap64. intros. apply Z.mod_small. lia. Qed.

(** ** Outcomes *)

(** An [outcome] that is a [Ret] comes from [Ret]s. *)
Lemma bind_Ret {A B} (m : outcome A) (f : A -> outcome B) (b : B) :
  m ≫= f = Ret b -> exists a, m = Ret a /\ f a = Ret b.
Proof. destruct m; try discriminate. intros H. exists a. split; [reflexivity | exact H]. Qed.

Ltac bind_inv H :=
  let a := fresh "v" in
  let E := fresh "E" in
  apply bind_Ret in H; destruct H as (a & E & H).

(** ** Multiplication and carries *)

Lemma land_low32 x : Z.land x 0xFFFFFFFF = x mod M32.
Proof. change 0xFFFFFFFF with (Z.ones 32). rewrite Z.land_ones by lia. reflexivity. Qed.

Lemma shiftr_32 x : Z.shiftr x 32 = x / M32.
Proof. rewrite Z.shiftr_div_pow2 by lia. reflexivity. Qed.

Lemma shiftl_32 x : Z.shiftl x 32 = x * M32.
Proof. rewrite Z.shiftl_mul_pow2 by lia. reflexivity. Qed.

(** Two words with no common bit add up to their bitwise or. *)
Lemma lor_high_low hi lo :
  0 <= lo < M32 -> Z.lor (hi * M32) lo = hi * M32 + lo.
Proof.
  intros Hlo.
  assert (Hand : Z.land (hi * M32) lo = 0).
  { apply Z.bits_inj'; intros n Hn. rewrite Z.land_spec, Z.bits_0.
    change M32 with (2 ^ 32). rewrite <- Z.shiftl_mul_pow2 by lia.
    destruct (Z.lt_ge_cases n 32) as [Hlt|Hge].
    - rewrite Z.shiftl_spec_low by lia. reflexivity.
    - destruct (Z.eq_dec lo 0) as [->|Hne].
      + rewrite Z.bits_0. apply andb_false_r.
      + rewrite (Z.bits_above_log2 lo n); [apply andb_false_r| lia |].
        apply Z.lt_le_trans with 32; [apply Z.log2_lt_pow2; lia | lia]. }
  pose proof (Z.add_lor_land (hi * M32) lo). lia.
Qed.

Lemma split64 x lo hi :
  0 <= lo < M64 -> x = lo + M64 * hi -> x mod M64 = lo /\ x / M64 = hi.
Proof. intros Hlo ->. Z.div_mod_to_equations. lia. Qed.

Lemma mul_portable_spec a b :
  0 <= a < M64 -> 0 <= b < M64 -> mul_portable a b = mul128 a b.
Proof.
  intros Ha Hb. unfold mul_portable, mul128.
  rewrite !land_low32, !shiftr_32, !shiftl_32.
  set (aL := a mod M32). set (aH := a / M32).
  set (bL := b mod M32). set (bH := b / M32).
  assert (HaL : 0 <= aL < M32) by (apply Z.mod_pos_bound; lia).
  assert (HbL : 0 <= bL < M32) by (apply Z.mod_pos_bound; lia).
  assert (HaH : 0 <= aH < M32) by (subst aH; split; [apply Z.div_pos; lia | apply Z.div_lt_upper_bound; lia]).
  assert (HbH : 0 <= bH < M32) by (subst bH; split; [apply Z.div_pos; lia | apply Z.div_lt_upper_bound; lia]).
  assert (Ea : a = aL + M32 * aH) by (subst aL aH; pose proof (Z.div_mod a M32); lia).
  assert (Eb : b = bL + M32 * bH) by (subst aL aH; pose proof (Z.div_mod b M32); lia).
  clearbody aL aH bL bH.
  assert (Hll : 0 <= aL * bL <= 4294967295 * 4294967295) by nia.
  assert (Hhl : 0 <= aH * bL <= 4294967295 * 4294967295) by nia.
  assert (Hlh : 0 <= aL * bH <= 4294967295 * 4294967295) by nia.
  assert (Hhh : 0 <= aH * bH <= 4294967295 * 4294967295) by nia.
  rewrite (wrap64_small (aL * bL)) by lia.
  rewrite (wrap64_small (aL * bH)) by lia.
  set (c1 := aL * bL / M32). set (l1 := (aL * bL) mod M32).
  assert (0 <= l1 < M32 /\ 0 <= c1 < M32 /\ aL * bL = l1 + M32 * c1) as (Hl1 & Hc1 & E1).
  { subst l1 c1. pose proof (Z.div_mod (aL * bL) M32). pose proof (Z.mod_pos_bound (aL * bL) M32).
    split; [lia|]. split; [|lia]. split; [apply Z.div_pos; lia | apply Z.div_lt_upper_bound; lia]. }
  clearbody c1 l1.
  set (c3 := aL * bH / M32). set (l2 := (aL * bH) mod M32).
  assert (0 <= l2 < M32 /\ 0 <= c3 < M32 /\ aL * bH = l2 + M32 * c3) as (Hl2 & Hc3 & E3).
  { subst l2 c3. pose proof (Z.div_mod (aL * bH) M32). pose proof (Z.mod_pos_bound (aL * bH) M32).
    split; [lia|]. split; [|lia]. split; [apply Z.div_pos; lia | apply Z.div_lt_upper_bound; lia]. }
  clearbody c3 l2.
  rewrite (wrap64_small (aH * bL + c1)) by lia.
  rewrite (wrap64_small (aH * bH + c3)) by lia.
  set (hH1 := (aH * bL + c1) / M32). set (hL1 := (aH * bL + c1) mod M32).
  assert (0 <= hL1 < M32 /\ 0 <= hH1 < M32 /\ aH * bL + c1 = hL1 + M32 * hH1) as (HhL1 & HhH1 & E2).
  { subst hL1 hH1. pose proof (Z.div_mod (aH * bL + c1) M32). pose proof (Z.mod_pos_bound (aH * bL + c1) M32).
    split; [lia|]. split; [|lia]. split; [apply Z.div_pos; lia | apply Z.div_lt_upper_bound; lia]. }
  clearbody hH1 hL1.
  set (hH2 := (aH * bH + c3) / M32). set (hL2 := (aH * bH + c3) mod M32).
  assert (0 <= hL2 < M32 /\ 0 <= hH2 < M32 /\ aH * bH + c3 = hL2 + M32 * hH2) as (HhL2 & HhH2 & E4).
  { subst hL2 hH2. pose proof (Z.div_mod (aH * bH + c3) M32). pose proof (Z.mod_pos_bound (aH * bH + c3) M32).
    split; [lia|]. split; [|lia]. split; [apply Z.div_pos; lia | apply Z.div_lt_upper_bound; lia]. }
  clearbody hH2 hL2.
  rewrite (wrap64_small (hL1 + l2)) by lia.
  set (r1 := hL1 + l2).
  assert (Hr1 : 0 <= r1 < 2 * M32) by (subst r1; lia).
  set (k1 := r1 / M32).
  assert (Hk1 : 0 <= k1 <= 1 /\ r1 = r1 mod M32 + M32 * k1 /\ 0 <= r1 mod M32 < M32).
  { subst k1. pose proof (Z.div_mod r1 M32). pose proof (Z.mod_pos_bound r1 M32).
    split; [|lia]. split; [apply Z.div_pos; lia | ]. enough (r1 / M32 < 2) by lia. apply Z.div_lt_upper_bound; lia. }
  assert (Hsh : wrap64 (r1 * M32) = (r1 mod M32) * M32).
  { unfold wrap64. replace (r1 * M32) with ((r1 mod M32) * M32 + k1 * M64) by lia.
    rewrite Z.mod_add by lia. apply Z.mod_small. lia. }
  rewrite Hsh, lor_high_low by lia.
  set (m1 := r1 mod M32) in *. clearbody k1 m1.
  rewrite (wrap64_small (hH1 + hL2 + k1)) by lia.
  set (r2 := hH1 + hL2 + k1).
  set (k2 := r2 / M32). set (d3 := r2 mod M32).
  assert (0 <= d3 < M32 /\ 0 <= k2 <= 2 /\ r2 = d3 + M32 * k2) as (Hd3 & Hk2 & E5).
  { subst d3 k2. pose proof (Z.div_mod r2 M32). pose proof (Z.mod_pos_bound r2 M32).
    split; [lia|]. split; [|lia]. split; [apply Z.div_pos; subst r2; lia | ].
    enough (r2 / M32 < 3) by lia. apply Z.div_lt_upper_bound; subst r2; lia. }
  clearbody d3 k2.
  assert (Hprod : a * b = (m1 * M32 + l1) + M64 * (d3 + M32 * (hH2 + k2))).
  { subst r1 r2. rewrite Ea, Eb. nia. }
  assert (Hab : 0 <= a * b < M64 * M64) by nia.
  assert (Hr3 : 0 <= hH2 + k2 < M32) by lia.
  rewrite (wrap64_small (hH2 + k2)) by lia.
  rewrite (wrap64_small ((hH2 + k2) * M32)) by lia.
  rewrite Z.lor_comm, lor_high_low by lia.
  destruct (split64 (a * b) (m1 * M32 + l1) (d3 + (hH2 + k2) * M32)) as [-> ->]; [lia|lia|].
  f_equal; lia.
Qed.

Lemma mul_spec x a b :
  0 <= a < M64 -> 0 <= b < M64 -> mul x a b = ((a * b) mod M64, (a * b) / M64).
Proof.
  intros Ha Hb. unfold mul. destruct x; [reflexivity|].
  rewrite mul_portable_spec by assumption. reflexivity.
Qed.

(** The carry out of [a + b], and out of [a + b + c]. *)
Lemma cadd_spec a b :
  0 <= a < M64 -> 0 <= b < M64 -> cadd a b = (M64 <=? a + b).
Proof.
  intros Ha Hb. unfold cadd, wrap64.
  destruct (Z.leb_spec M64 (a + b)); [apply Z.ltb_lt | apply Z.ltb_ge];
    Z.div_mod_to_equations; lia.
Qed.

Lemma cadc_spec a b c :
  0 <= a < M64 -> 0 <= b < M64 -> cadc a b c = (M64 <=? a + b + Z.b2z c).
Proof.
  intros Ha Hb. unfold cadc, wrap64.
  change (-1 mod M64) with (M64 - 1).
  destruct (Z.leb_spec M64 (a + b + Z.b2z c)) as [H|H].
  - apply orb_true_iff. rewrite andb_true_iff, Z.ltb_lt, Z.eqb_eq.
    destruct c; simpl Z.b2z in *; Z.div_mod_to_equations; lia.
  - apply orb_false_iff. rewrite andb_false_iff, Z.ltb_ge, Z.eqb_neq.
    destruct c; simpl Z.b2z in *; [|split; [|left; reflexivity]];
      Z.div_mod_to_equations; lia.
Qed.

(** ** Proof-of-work check *)

Import Pow.

Lemma le_decode_range bs :
  bytes bs -> 0 <= le_decode bs < 256 ^ Z.of_nat (length bs).
Proof.
  induction 1 as [|b bs Hb _ IH]; [simpl; lia|].
  cbn [le_decode length]. rewrite Nat2Z.inj_succ, Z.pow_succ_r by lia. lia.
Qed.

Lemma le_encode_decode bs :
  bytes bs -> le_encode (length bs) (le_decode bs) = bs.
Proof.
  induction 1 as [|b bs Hb Hbs IH]; [reflexivity|].
  cbn [le_decode length le_encode].
  replace ((b + 256 * le_decode bs) mod 256) with b
    by (Z.div_mod_to_equations; lia).
  replace ((b + 256 * le_decode bs) / 256) with (le_decode bs)
    by (Z.div_mod_to_equations; lia).
  now rewrite IH.
Qed.

Lemma swap64_be bs :
  bytes bs -> length bs = 8%nat -> swap64 (le_decode (rev bs)) = le_decode bs.
Proof.
  intros Hbs Hlen. unfold swap64.
  replace 8%nat with (length (rev bs)) by (now rewrite length_rev).
  rewrite le_encode_decode, rev_involutive; [reflexivity|].
  now apply List.Forall_rev.
Qed.

Lemma limb_le be h i :
  hash_wf h -> (i < 4)%nat -> limb be h i = le_decode (take 8 (drop (8 * i) h)).
Proof.
  intros [Hlen Hb] Hi. unfold limb, swap64le, load64.
  destruct be; [|reflexivity].
  apply swap64_be.
  - unfold bytes. apply Forall_take, Forall_drop, Hb.
  - rewrite length_take, length_drop. lia.
Qed.

Lemma limb_range be h i :
  hash_wf h -> (i < 4)%nat -> 0 <= limb be h i < M64.
Proof.
  intros Hwf Hi. rewrite limb_le by assumption.
  destruct Hwf as [Hlen Hb].
  pose proof (le_decode_range (take 8 (drop (8 * i) h))) as H.
  rewrite length_take, length_drop in H.
  replace (8 `min` (length h - 8 * i))%nat with 8%nat in H by lia.
  apply H. apply Forall_take, Forall_drop, Hb.
Qed.

Lemma le_decode_app a b :
  le_decode (a ++ b) = le_decode a + 256 ^ Z.of_nat (length a) * le_decode b.
Proof.
  induction a as [|x a IH]; [simpl; lia|].
  cbn [app le_decode length]. rewrite IH, Nat2Z.inj_succ, Z.pow_succ_r by lia. lia.
Qed.

Lemma to_u256_le_limbs be h :
  hash_wf h ->
  to_u256_le h =
    limb be h 0 + M64 * (limb be h 1 + M64 * (limb be h 2 + M64 * limb be h 3)).
Proof.
  intros Hwf. rewrite !limb_le by (assumption || lia).
  destruct Hwf as [Hlen _]. unfold to_u256_le.
  rewrite <- (take_drop 8 h) at 1.
  rewrite <- (take_drop 8 (drop 8 h)) at 1.
  rewrite <- (take_drop 8 (drop 8 (drop 8 h))) at 1.
  rewrite !le_decode_app, !length_take, !length_drop, !drop_drop.
  replace (8 `min` length h)%nat with 8%nat by lia.
  replace (8 `min` (length h - 8))%nat with 8%nat by lia.
  replace (8 `min` (length h - 8 - 8))%nat with 8%nat by lia.
  change (256 ^ Z.of_nat 8) with M64. simpl Nat.mul. simpl Nat.add.
  rewrite drop_0.
  rewrite (take_ge (drop 24 h)) by (rewrite length_drop; lia).
  reflexivity.
Qed.

(** The carry chain of [check_hash] on four 128-bit partial products. *)
Lemma carry_chain p0 p1 p2 p3 :
  0 <= p0 < M64 * M64 -> 0 <= p1 < M64 * M64 ->
  0 <= p2 < M64 * M64 -> 0 <= p3 < M64 * M64 ->
  (if negb (p3 / M64 =? 0) then false
   else negb (cadc (p2 / M64) (p3 mod M64)
                (cadc (p1 / M64) (p2 mod M64) (cadd (p0 / M64) (p1 mod M64))))) = true
  <-> p0 + M64 * (p1 + M64 * (p2 + M64 * p3)) < M256.
Proof.
  intros H0 H1 H2 H3.
  assert (R : forall p, 0 <= p < M64 * M64 ->
            0 <= p / M64 < M64 /\ 0 <= p mod M64 < M64 /\ p = p mod M64 + M64 * (p / M64)).
  { intros p Hp. Z.div_mod_to_equations. lia. }
  destruct (R p0 H0) as (Hh0 & Hl0 & E0). destruct (R p1 H1) as (Hh1 & Hl1 & E1).
  destruct (R p2 H2) as (Hh2 & Hl2 & E2). destruct (R p3 H3) as (Hh3 & Hl3 & E3).
  set (h0 := p0 / M64) in *. set (l0 := p0 mod M64) in *.
  set (h1 := p1 / M64) in *. set (l1 := p1 mod M64) in *.
  set (h2 := p2 / M64) in *. set (l2 := p2 mod M64) in *.
  set (h3 := p3 / M64) in *. set (l3 := p3 mod M64) in *.
  clearbody h0 l0 h1 l1 h2 l2 h3 l3.
  rewrite !cadc_spec, cadd_spec by assumption.
  destruct (Z.eqb_spec h3 0) as [Hz|Hz]; simpl negb; cbv iota.
  - destruct (Z.leb_spec M64 (h0 + l1)); simpl Z.b2z;
      match goal with
      | |- context [M64 <=? h1 + l2 + ?c] =>
          destruct (Z.leb_spec M64 (h1 + l2 + c)); simpl Z.b2z
      end;
      match goal with
      | |- context [M64 <=? h2 + l3 + ?c] =>
          destruct (Z.leb_spec M64 (h2 + l3 + c)); simpl negb
      end;
      split; intros Hgoal; try discriminate; try reflexivity; lia.
  - split; intros Hgoal; [discriminate | lia].
Qed.

(** C1: for every 32-byte hash [h] and every 64-bit difficulty [D] (zero
    included), on a host of either byte order and with either [mul],
    [check_hash h D] is [true] exactly when the 256-bit integer read from
    [h] as little-endian limbs, times [D], is below [2^256]. *)
Theorem check_hash_iff x86_64 big_endian h D :
  hash_wf h -> 0 <= D < M64 ->
  check_hash x86_64 big_endian h D = true <-> to_u256_le h * D < M256.
Proof.
  intros Hwf HD.
  rewrite (to_u256_le_limbs big_endian h Hwf).
  pose proof (limb_range big_endian h 0 Hwf ltac:(lia)) as R0.
  pose proof (limb_range big_endian h 1 Hwf ltac:(lia)) as R1.
  pose proof (limb_range big_endian h 2 Hwf ltac:(lia)) as R2.
  pose proof (limb_range big_endian h 3 Hwf ltac:(lia)) as R3.
  unfold check_hash. rewrite !mul_spec by assumption.
  set (l0 := limb big_endian h 0) in *. set (l1 := limb big_endian h 1) in *.
  set (l2 := limb big_endian h 2) in *. set (l3 := limb big_endian h 3) in *.
  clearbody l0 l1 l2 l3.
  rewrite carry_chain by nia.
  replace ((l0 + M64 * (l1 + M64 * (l2 + M64 * l3))) * D)
    with (l0 * D + M64 * (l1 * D + M64 * (l2 * D + M64 * (l3 * D)))) by ring.
  reflexivity.
Qed.

Lemma check_hash_iff_witness :
  check_hash false true (replicate 31 255 ++ [127]) 2 = true
  <-> to_u256_le (replicate 31 255 ++ [127]) * 2 < M256.
Proof.
  apply check_hash_iff; [split; [reflexivity|] | lia].
  repeat (apply List.Forall_cons; [lia|]). apply List.Forall_nil.
Defined.

(** ** Block reward *)

Import Reward.

(** C2: at each of the nine hard-coded heights [get_block_reward] returns
    [true] with the hard-coded reward, whatever the sizes, the coins already
    generated and the version are: the check comes before the emission
    formula and the block-size penalty. *)
Theorem get_block_reward_injections NDEBUG PULSE COINS
    median_size current_block_size already_generated_coins version :
  let reward_at height :=
    get_block_reward NDEBUG PULSE COINS median_size current_block_size
      already_generated_coins version height in
  reward_at 1 = Ret (Some 1260000000000)
  /\ reward_at 307003 = Ret (Some 1260000000000)
  /\ reward_at 310790 = Ret (Some 1260000000000)
  /\ reward_at 500060 = Ret (Some 613090000000000)
  /\ reward_at 1183410 = Ret (Some 613090000000000)
  /\ reward_at 1183411 = Ret (Some 613090000000000)
  /\ reward_at 1183412 = Ret (Some 613090000000000)
  /\ reward_at 1183413 = Ret (Some 613090000000000)
  /\ reward_at 1132597 = Ret (Some 3333333333310301990).
Proof. cbv zeta. repeat split; reflexivity. Qed.

(** The reward of the specification's fourth seed test is not the one the
    code returns, whatever the build. *)
Lemma get_block_reward_v7_not_expected :
  seed_test_4_expected = 10013580
  /\ get_block_reward false 0 0 60000 60000 0 7 307100 = Ret (Some 2479362)
  /\ ~ (exists NDEBUG PULSE COINS,
         get_block_reward NDEBUG PULSE COINS 60000 60000 0 7 307100
         = Ret (Some seed_test_4_expected)).
Proof.
  split; [reflexivity|]. split; [vm_compute; reflexivity|].
  intros (nd & P & C & H). vm_compute in H. discriminate H.
Qed.

(** C6 (amended): [get_block_reward] called with median size 60000, current
    size 60000, no coin generated, version 7 and height 307100 returns
    [true] with the reward 2479362: the interval formula for
    [interval_num = 307100 / 131490 = 2], that is
    [(uint64_t)(MONEY_SUPPLY * (0.1888 + 2 * (0.023 + 2 * 0.0032)))]
    shifted right by [20 + 1], and no rounding to a multiple of 10 since
    version 7 is not above 7. *)
Theorem get_block_reward_v7 NDEBUG PULSE COINS :
  get_block_reward NDEBUG PULSE COINS 60000 60000 0 7 307100 = Ret (Some 2479362)
  /\ udiv 307100 131490 = Ret 2
  /\ Double.to_uint64
       (Double.of_Z MONEY_SUPPLY
        * (0.1888 + Double.of_Z 2 * (0.023 + Double.of_Z 2 * 0.0032)))%float
     = Ret 5199600000000
  /\ emission_speed 307100 = 20 + 1
  /\ Z.shiftr 5199600000000 (20 + 1) = 2479362.
Proof. repeat split; vm_compute; reflexivity. Qed.

Lemma shiftr_range x n : 0 <= x < M64 -> 0 <= n -> 0 <= Z.shiftr x n < M64.
Proof.
  intros Hx Hn. rewrite Z.shiftr_div_pow2 by assumption.
  assert (0 < 2 ^ n) by (apply Z.pow_pos_nonneg; lia).
  split; [apply Z.div_pos; lia|].
  apply Z.le_lt_trans with x; [|lia].
  apply Z.div_le_upper_bound; nia.
Qed.

Lemma to_uint64_range f z : Double.to_uint64 f = Ret z -> 0 <= z < M64.
Proof.
  unfold Double.to_uint64. destruct (Double.trunc f) as [t|]; [|discriminate].
  destruct (Z.leb_spec 0 t); [|discriminate].
  destruct (Z.ltb_spec t M64); [|discriminate].
  simpl. intros [= <-]. lia.
Qed.

Lemma emission_speed_range height : 0 <= emission_speed height.
Proof. unfold emission_speed. apply wrap64_range. Qed.

Lemma base_reward_range PULSE COINS already version height b :
  base_reward PULSE COINS already version height = Ret b -> 0 <= b < M64.
Proof.
  unfold base_reward. intros H. bind_inv H.
  pose proof (emission_speed_range height) as Hes.
  assert (Hv : 0 <= v < M64).
  { destruct ((307003 <? height) && (7 <=? version)).
    - bind_inv E. bind_inv E. destruct (height <? wrap64 (v0 + v1)).
      + bind_inv E. bind_inv E. injection E as <-.
        apply shiftr_range; [eapply to_uint64_range; eassumption | assumption].
      + injection E as <-. apply shiftr_range; [apply wrap64_range | assumption].
    - injection E as <-. apply shiftr_range; [apply wrap64_range | assumption]. }
  injection H as <-.
  match goal with |- 0 <= (if ?c then _ else ?x) < _ => assert (0 <= x < M64); [|destruct c; [unfold FINAL_SUBSIDY_PER_MINUTE; lia | assumption]] end.
  destruct (version <? 2); [apply shiftr_range; [apply wrap64_range | assumption]|].
  destruct (7 <? version); [apply wrap64_range | assumption].
Qed.

Lemma injection_None height :
  height ∉ injection_heights -> injection height = None.
Proof.
  unfold injection_heights, injection. intros H.
  repeat match goal with
         | |- context [height =? ?c] =>
             destruct (Z.eqb_spec height c) as [->|_];
             [exfalso; apply H; repeat first [left | right]|]
         end.
  reflexivity.
Qed.

Lemma quadratic_penalty base M cur :
  0 <= base -> 0 < M -> M < cur <= 2 * M ->
  let q := base * ((2 * M - cur) * cur) / M / M in
  0 <= q <= base /\ (0 < base -> q < base).
Proof.
  intros Hb HM Hc q. subst q.
  rewrite Z.div_div by lia.
  assert (Hm : 0 <= (2 * M - cur) * cur < M * M) by nia.
  split; [split|].
  - apply Z.div_pos; nia.
  - apply Z.div_le_upper_bound; nia.
  - intros Hpos. apply Z.div_lt_upper_bound; nia.
Qed.

Lemma penalty_spec NDEBUG median_size current_block_size base version r :
  0 <= median_size < M32 -> 0 <= current_block_size < M32 ->
  0 <= base < M64 ->
  penalty NDEBUG median_size current_block_size base version = Ret (Some r) ->
  let M := Z.max median_size (get_min_block_size version) in
  r <= base
  /\ (current_block_size <= M -> r = base)
  /\ (M < current_block_size -> 0 < base \/ NDEBUG = false -> r < base).
Proof.
  intros Hm Hc Hb H M. unfold penalty in H.
  assert (Hz : 20000 <= get_min_block_size version <= 300000).
  { unfold get_min_block_size. destruct (version <? 2); [vm_compute; split; discriminate|].
    destruct (version <? 5); vm_compute; split; discriminate. }
  assert (HM : (if median_size <? get_min_block_size version
                then get_min_block_size version else median_size) = M).
  { subst M. destruct (Z.ltb_spec median_size (get_min_block_size version)); lia. }
  rewrite HM in H.
  assert (HMr : 20000 <= M < M32) by (subst M; lia).
  clearbody M. clear HM.
  destruct (Z.leb_spec current_block_size M) as [Hle|Hgt].
  { injection H as <-. repeat split; lia. }
  rewrite (wrap64_small (2 * M)) in H by lia.
  destruct (Z.ltb_spec (2 * M) current_block_size) as [|Hle2]; [discriminate|].
  bind_inv H. bind_inv H.
  rewrite (wrap64_small (2 * M - current_block_size)) in H by lia.
  rewrite (wrap64_small ((2 * M - current_block_size) * current_block_size)) in H by nia.
  set (mult := (2 * M - current_block_size) * current_block_size) in *.
  unfold mul128, div128_32, wrap32 in H.
  rewrite (Z.mod_small M) in H by lia.
  unfold udiv in H. destruct (Z.eqb_spec M 0); [lia|].
  cbn [mbind outcome_bind] in H.
  assert (Hp : base * mult / M64 * M64 + (base * mult) mod M64 = base * mult)
    by (Z.div_mod_to_equations; lia).
  rewrite Hp in H.
  assert (Hq : base * mult / M / M64 * M64 + (base * mult / M) mod M64 = base * mult / M)
    by (Z.div_mod_to_equations; lia).
  rewrite Hq in H.
  destruct (quadratic_penalty base M current_block_size) as [Hq1 Hq2]; [lia..|].
  fold mult in Hq1, Hq2.
  set (q := base * mult / M / M) in *. clearbody q.
  bind_inv H. bind_inv H. injection H as <-.
  rewrite (Z.mod_small q) in * by lia.
  repeat split; [lia | lia |].
  intros _ [Hpos | ->]; [exact (Hq2 Hpos)|].
  unfold assert in E2. destruct (Z.ltb_spec q base); [assumption | discriminate].
Qed.

(** C3 (amended): at a height that is none of the nine injections and with
    both sizes below [2^32], whenever [get_block_reward] returns [true]
    the reward is at most [base_reward]; it is [base_reward] when
    [current_block_size <= max(median_size, Z)], [Z] being the full reward
    zone of the version, and strictly less otherwise, provided [base_reward]
    is positive or assertions are compiled in. *)
Theorem reward_cap NDEBUG PULSE COINS median_size current_block_size
    already_generated_coins version height base reward :
  height ∉ injection_heights ->
  0 <= median_size < M32 -> 0 <= current_block_size < M32 ->
  get_block_reward_vars NDEBUG PULSE COINS median_size current_block_size
    already_generated_coins version height = Ret (base, Some reward) ->
  let M := Z.max median_size (get_min_block_size version) in
  reward <= base
  /\ (current_block_size <= M -> reward = base)
  /\ (M < current_block_size -> 0 < base \/ NDEBUG = false -> reward < base).
Proof.
  intros Hinj Hm Hc H. unfold get_block_reward_vars in H.
  rewrite (injection_None height Hinj) in H.
  bind_inv H. bind_inv H. injection H as -> ->.
  eapply penalty_spec; eauto using base_reward_range.
Qed.

Lemma reward_cap_witness :
  let M := Z.max 300000 (get_min_block_size 7) in
  2203877 <= 2479362
  /\ (400000 <= M -> 2203877 = 2479362)
  /\ (M < 400000 -> 0 < 2479362 \/ true = false -> 2203877 < 2479362).
Proof.
  apply (reward_cap true 0 0 300000 400000 0 7 307100 2479362 2203877);
    [ | lia | lia | vm_compute; reflexivity].
  unfold injection_heights. intros H.
  repeat (apply elem_of_cons in H as [H|H]; [discriminate H|]).
  inversion H.
Defined.

(** At height 1 the reward is the injected one, far above the value the
    variable [base_reward] holds; so the cap of C3 fails as stated. *)
Lemma reward_cap_counterexample :
  get_block_reward_vars false 0 0 0 0 0 1 1 = Ret (2002716, Some 1260000000000)
  /\ ~ (forall NDEBUG PULSE COINS median_size current_block_size
          already_generated_coins version height base reward,
        get_block_reward_vars NDEBUG PULSE COINS median_size current_block_size
          already_generated_coins version height = Ret (base, Some reward) ->
        reward <= base
        /\ (reward = base
            <-> current_block_size <= Z.max median_size (get_min_block_size version))).
Proof.
  split; [vm_compute; reflexivity|].
  intros H.
  destruct (H false 0 0 0 0 0 1 1 2002716 1260000000000) as [Hle _];
    [vm_compute; reflexivity | lia].
Qed.

(** With no coin left to shift out, [base_reward] is zero below the final
    subsidy's activation; an oversized block then gets the whole (zero)
    reward when assertions are compiled out, and stops on
    [assert(reward_lo < base_reward)] otherwise. *)
Remark reward_of_zero_base :
  get_block_reward_vars true 0 0 20000 30000 (MONEY_SUPPLY_ETN - 1) 1 2
    = Ret (0, Some 0)
  /\ get_block_reward_vars false 0 0 20000 30000 (MONEY_SUPPLY_ETN - 1) 1 2
    = AssertionFailed.
Proof. split; vm_compute; reflexivity. Qed.


(** ** Difficulty *)

Import Difficulty.

Lemma assert_true NDEBUG : assert NDEBUG true = Ret tt.
Proof. destruct NDEBUG; reflexivity. Qed.

Lemma at_index_lookup (v : list Z) (i : Z) (x : Z) :
  0 <= i -> v !! Z.to_nat i = Some x -> at_index v i = Ret x.
Proof.
  intros Hi Hx. unfold at_index. destruct (Z.ltb_spec i 0); [lia|]. now rewrite Hx.
Qed.

Lemma at_index_in_range (v : list Z) (i : Z) :
  0 <= i < size v -> exists x, v !! Z.to_nat i = Some x /\ at_index v i = Ret x.
Proof.
  unfold size. intros Hi.
  destruct (lookup_lt_is_Some_2 v (Z.to_nat i)) as [x Hx]; [lia|].
  exists x. split; [assumption|]. apply at_index_lookup; [lia | assumption].
Qed.

Lemma resize_to_shrink (n : Z) (v : list Z) :
  0 <= n <= size v -> resize_to n v = take (Z.to_nat n) v.
Proof. unfold resize_to, size. intros H. apply resize_le. lia. Qed.

Lemma size_resize_to (n : Z) (v : list Z) : 0 <= n -> size (resize_to n v) = n.
Proof. unfold resize_to, size. intros H. rewrite length_resize. lia. Qed.

Lemma increasing_take n v : increasing v -> increasing (take n v).
Proof.
  intros H i j a b Hij Ha Hb.
  apply lookup_take_Some in Ha as [Ha _]. apply lookup_take_Some in Hb as [Hb _].
  eauto.
Qed.

Lemma size_sort v : size (sort v) = size v.
Proof.
  unfold size, sort. f_equal. apply Permutation_length, merge_sort_Permutation.
Qed.

(** [next_difficulty_v2] on a window that needs no truncation. *)
Lemma next_difficulty_v2_window NDEBUG x86_64 ts cds T :
  length ts = length cds -> (1 <= length ts <= 720)%nat ->
  Forall is_u64 cds -> increasing cds -> 0 < T < M64 ->
  exists d, next_difficulty_v2 NDEBUG x86_64 ts cds T = Ret d /\ 1 <= d.
Proof.
  intros Hlen Hn Hr Hinc HT. unfold next_difficulty_v2.
  assert (Hs : size ts = size cds) by (unfold size; lia).
  assert (Hsz : 1 <= size ts <= 720) by (unfold size; lia).
  unfold DIFFICULTY_WINDOW, DIFFICULTY_CUT.
  destruct (Z.ltb_spec 720 (size ts)) as [|_]; [lia|].
  rewrite <- Hs, Z.eqb_refl, assert_true. cbn [mbind outcome_bind].
  destruct (Z.leb_spec (size ts) 1) as [|Hgt]; [exists 1; split; [reflexivity | lia]|].
  destruct (Z.leb_spec (size ts) 720) as [_|]; [|lia].
  rewrite assert_true. cbn [mbind outcome_bind].
  set (n := size ts) in *.
  assert (Hcut : exists cb ce,
    (if n <=? 720 - 2 * 60 then (0, n)
     else (wrap64 (wrap64 (n - (720 - 2 * 60)) + 1) / 2,
           wrap64 (wrap64 (wrap64 (n - (720 - 2 * 60)) + 1) / 2 + (720 - 2 * 60))))
    = (cb, ce) /\ 0 <= cb /\ cb + 2 <= ce /\ ce <= n).
  { destruct (Z.leb_spec n (720 - 2 * 60)).
    - exists 0, n. repeat split; lia.
    - rewrite (wrap64_small (n - (720 - 2 * 60))) by lia.
      rewrite (wrap64_small (n - (720 - 2 * 60) + 1)) by lia.
      assert (0 <= (n - (720 - 2 * 60) + 1) / 2 <= n - 600)
        by (Z.div_mod_to_equations; lia).
      rewrite wrap64_small by lia.
      eexists _, _. split; [reflexivity|]. lia. }
  destruct Hcut as (cb & ce & -> & Hcb & Hce & Hcen).
  destruct (Z.leb_spec (cb + 2) ce); [|lia].
  destruct (Z.leb_spec ce n); [|lia].
  simpl andb. rewrite assert_true. cbn [mbind outcome_bind].
  destruct (at_index_in_range (sort ts) (ce - 1)) as (te & _ & ->);
    [rewrite size_sort; lia|].
  destruct (at_index_in_range (sort ts) cb) as (tb & _ & ->);
    [rewrite size_sort; lia|].
  cbn [mbind outcome_bind].
  destruct (at_index_in_range cds (ce - 1)) as (de & Hde & ->); [lia|].
  destruct (at_index_in_range cds cb) as (db & Hdb & ->); [lia|].
  cbn [mbind outcome_bind].
  assert (Hwork : db < de) by (eapply (Hinc (Z.to_nat cb) (Z.to_nat (ce - 1))); eauto; lia).
  assert (Hde_r : is_u64 de) by (eapply Forall_lookup_1; eauto).
  assert (Hdb_r : is_u64 db) by (eapply Forall_lookup_1; eauto).
  unfold is_u64 in *.
  rewrite (wrap64_small (de - db)) by lia.
  destruct (Z.ltb_spec 0 (de - db)); [|lia].
  rewrite assert_true. cbn [mbind outcome_bind].
  rewrite mul_spec by lia.
  set (span := if wrap64 (te - tb) =? 0 then 1 else wrap64 (te - tb)).
  assert (Hspan : 1 <= span < M64).
  { subst span. pose proof (wrap64_range (te - tb)).
    destruct (Z.eqb_spec (wrap64 (te - tb)) 0); lia. }
  clearbody span.
  set (p := (de - db) * T).
  assert (Hp : 1 <= p) by (subst p; nia).
  clearbody p.
  destruct (Z.eqb_spec (p / M64) 0) as [Hhigh|]; [|exists 1; split; [reflexivity | lia]].
  assert (Hlow : p mod M64 = p) by (Z.div_mod_to_equations; lia).
  rewrite Hlow. simpl negb. simpl orb.
  assert (Hp64 : p < M64) by (Z.div_mod_to_equations; lia).
  destruct (Z.ltb_spec (wrap64 (p + span - 1)) p) as [|Hnw];
    [exists 1; split; [reflexivity | lia]|].
  assert (Hsum : wrap64 (p + span - 1) = p + span - 1).
  { unfold wrap64 in *. Z.div_mod_to_equations. lia. }
  rewrite Hsum. unfold udiv. destruct (Z.eqb_spec span 0); [lia|].
  eexists. split; [reflexivity|].
  apply Z.div_le_lower_bound; lia.
Qed.

Lemma next_difficulty_v2_truncate NDEBUG x86_64 ts cds T :
  length ts = length cds -> (720 < length ts)%nat ->
  next_difficulty_v2 NDEBUG x86_64 ts cds T
  = next_difficulty_v2 NDEBUG x86_64 (take 720 ts) (take 720 cds) T.
Proof.
  intros Hlen Hn. unfold next_difficulty_v2, DIFFICULTY_WINDOW.
  assert (Hs : size (take 720 ts) = 720) by (unfold size; rewrite length_take; lia).
  rewrite Hs.
  destruct (Z.ltb_spec 720 (size ts)) as [_|]; [|unfold size in *; lia].
  change (720 <? 720) with false. cbv iota.
  rewrite !resize_to_shrink by (unfold size; lia). reflexivity.
Qed.

(** The last lines of [next_difficulty_v3]: what is returned for the value
    [computed] of the variable [next_difficulty]. *)
Lemma next_difficulty_v3_cases NDEBUG ts cds T d :
  next_difficulty_v3 NDEBUG ts cds T = Ret d ->
  (size ts < 6 /\ d = 1)
  \/ (6 <= size ts /\ exists computed,
        0 <= computed < M64
        /\ ((computed < 2000 /\ d = 75723142)
            \/ (120307799 < computed /\ d = 120307799)
            \/ (2000 <= computed <= 120307799 /\ d = computed))).
Proof.
  unfold next_difficulty_v3, DIFFICULTY_WINDOW_V2. intros H.
  assert (Hn : forall a b : list Z,
    (if 70 <? size ts then (resize_to (70 + 1) ts, resize_to (70 + 1) cds) else (ts, cds))
      = (a, b) -> (size a < 6 <-> size ts < 6)).
  { intros a b. destruct (Z.ltb_spec 70 (size ts)); intros [= <- <-]; [|tauto].
    rewrite size_resize_to; lia. }
  destruct (if 70 <? size ts then _ else _) as [ts' cds'].
  specialize (Hn ts' cds' eq_refl).
  bind_inv H. bind_inv H.
  destruct (Z.ltb_spec (size ts') 6) as [Hlt|Hge].
  { left. injection H as <-. split; [tauto | reflexivity]. }
  right. split; [lia|].
  bind_inv H. bind_inv H. rename v2 into computed. exists computed.
  split.
  { unfold Double.to_uint64 in E2. destruct (Double.trunc v1) as [t|]; [|discriminate].
    destruct (Z.leb_spec 0 t); [|discriminate].
    destruct (Z.ltb_spec t M64); [|discriminate].
    injection E2 as <-. lia. }
  destruct (Z.ltb_spec computed 2000); [left; split; congruence|].
  destruct (Z.ltb_spec 120307799 computed); [right; left; split; congruence|].
  right; right. split; [lia | congruence].
Qed.

Lemma mapM_Ret {A B} (f : A -> outcome B) (l : list A) :
  (forall x, x ∈ l -> exists y, f x = Ret y) -> exists k, mapM f l = Ret k.
Proof.
  induction l as [|x l IH]; intros H.
  - exists []. reflexivity.
  - destruct (H x) as [y Hy]; [left|].
    destruct IH as [k Hk]; [intros z Hz; apply H; now right|].
    exists (y :: k). cbn [mapM]. rewrite Hy. cbn [mbind outcome_bind].
    rewrite Hk. reflexivity.
Qed.

Lemma collect_in_range (v : list Z) (first last : Z) :
  0 <= first -> last <= size v -> exists l, collect v first last = Ret l.
Proof.
  intros Hf Hl. unfold collect. apply mapM_Ret. intros i Hi.
  apply elem_of_seqZ in Hi.
  destruct (at_index_in_range v i) as (x & _ & Hx); [lia|]. eauto.
Qed.

Lemma for_each_Ret {S : Type} (body : S -> Z -> outcome S) (idx : list Z) (s : S) :
  (forall i s, i ∈ idx -> exists s', body s i = Ret s') ->
  exists s', for_each body idx s = Ret s'.
Proof.
  revert s. induction idx as [|i idx IH]; intros s H.
  - exists s. reflexivity.
  - destruct (H i s) as [s1 Hs1]; [left|].
    destruct (IH s1) as [s2 Hs2]; [intros j t Hj; apply H; now right|].
    exists s2. cbn [for_each]. rewrite Hs1. exact Hs2.
Qed.

Lemma v4_step_Ret (ts : list Z) (len T : Z) (s : v4_vars) (i : Z) :
  0 <= i < size ts -> exists s', v4_step ts len T s i = Ret s'.
Proof.
  intros Hi. unfold v4_step.
  destruct (at_index_in_range ts i Hi) as (t & _ & ->). cbn [mbind outcome_bind].
  destruct (if wrap64 (len - 7) <=? i then _ else _) as [[[? ?] ?] ?].
  eexists. reflexivity.
Qed.

(** The anti-manipulation branch keeps the vectors or cuts both to their
    first 25 entries. *)
Lemma v4_shrink_cases median (ts cds : list Z) :
  size ts = size cds ->
  v4_shrink median ts cds = Ret (ts, cds)
  \/ (69 <= size cds /\ v4_shrink median ts cds = Ret (take 25 ts, take 25 cds)).
Proof.
  intros Hs. unfold v4_shrink, v4_medians, first_diffs, mid_diffs,
    DIFFICULTY_BLOCKS_COUNT_V12, DIFFICULTY_WINDOW_V2.
  destruct (Z.leb_spec (70 - 1) (size cds)) as [Hge|]; [|now left].
  destruct (collect_in_range cds 0 (70 - 30)) as [f ->]; [lia | lia |].
  destruct (collect_in_range cds (70 - 30) (70 - 10)) as [m ->]; [lia | lia |].
  cbn [mbind outcome_bind].
  replace (last_diffs cds) with (Ret (@nil Z)) by reflexivity.
  cbn [mbind outcome_bind].
  rewrite !resize_to_shrink by lia.
  destruct (_ && _); [right; split; [lia | reflexivity]|].
  destruct (_ && _); [right; split; [lia | reflexivity]|].
  now left.
Qed.


(** The last lines of [next_difficulty], [next_difficulty_v2] and
    [next_difficulty_v4], after the variables are computed. *)
Lemma next_difficulty_last_lines NDEBUG x86_64 ts cds T :
  next_difficulty NDEBUG x86_64 ts cds T
  = (v ← next_difficulty_vars NDEBUG ts cds;
     match v with
     | None => Ret 1
     | Some (time_span, total_work) =>
         let '(low, high) := mul x86_64 total_work T in
         udiv (wrap64 (low + time_span - 1)) time_span
     end).
Proof.
  unfold next_difficulty, next_difficulty_vars.
  destruct (if DIFFICULTY_WINDOW <? size ts then _ else _) as [ts' cds'].
  destruct (assert NDEBUG (size ts' =? size cds')) as [[]| | |];
    cbn [mbind outcome_bind]; try reflexivity.
  destruct (size ts' <=? 1); [reflexivity|].
  destruct (assert NDEBUG (size ts' <=? DIFFICULTY_WINDOW)) as [[]| | |];
    cbn [mbind outcome_bind]; try reflexivity.
  destruct (if size ts' <=? _ then _ else _) as [cut_begin cut_end].
  destruct (assert NDEBUG _) as [[]| | |]; cbn [mbind outcome_bind]; try reflexivity.
  destruct (at_index (sort ts') (cut_end - 1)); cbn [mbind outcome_bind]; try reflexivity.
  destruct (at_index (sort ts') cut_begin); cbn [mbind outcome_bind]; try reflexivity.
  destruct (at_index cds' (cut_end - 1)); cbn [mbind outcome_bind]; try reflexivity.
  destruct (at_index cds' cut_begin); cbn [mbind outcome_bind]; try reflexivity.
  destruct (assert NDEBUG _) as [[]| | |]; cbn [mbind outcome_bind]; reflexivity.
Qed.

Lemma next_difficulty_v2_last_lines NDEBUG x86_64 ts cds T :
  next_difficulty_v2 NDEBUG x86_64 ts cds T
  = (v ← next_difficulty_vars NDEBUG ts cds;
     match v with
     | None => Ret 1
     | Some (time_span, total_work) =>
         let '(low, high) := mul x86_64 total_work T in
         if negb (high =? 0) || (wrap64 (low + time_span - 1) <? low) then Ret 1
         else udiv (wrap64 (low + time_span - 1)) time_span
     end).
Proof.
  unfold next_difficulty_v2, next_difficulty_vars.
  destruct (if DIFFICULTY_WINDOW <? size ts then _ else _) as [ts' cds'].
  destruct (assert NDEBUG (size ts' =? size cds')) as [[]| | |];
    cbn [mbind outcome_bind]; try reflexivity.
  destruct (size ts' <=? 1); [reflexivity|].
  destruct (assert NDEBUG (size ts' <=? DIFFICULTY_WINDOW)) as [[]| | |];
    cbn [mbind outcome_bind]; try reflexivity.
  destruct (if size ts' <=? _ then _ else _) as [cut_begin cut_end].
  destruct (assert NDEBUG _) as [[]| | |]; cbn [mbind outcome_bind]; try reflexivity.
  destruct (at_index (sort ts') (cut_end - 1)); cbn [mbind outcome_bind]; try reflexivity.
  destruct (at_index (sort ts') cut_begin); cbn [mbind outcome_bind]; try reflexivity.
  destruct (at_index cds' (cut_end - 1)); cbn [mbind outcome_bind]; try reflexivity.
  destruct (at_index cds' cut_begin); cbn [mbind outcome_bind]; try reflexivity.
  destruct (assert NDEBUG _) as [[]| | |]; cbn [mbind outcome_bind]; reflexivity.
Qed.

Lemma next_difficulty_v4_last_lines NDEBUG x86_64 median ts cds T :
  next_difficulty_v4 NDEBUG x86_64 median ts cds T
  = (v ← next_difficulty_v4_vars NDEBUG median ts cds T;
     match v with
     | None => Ret 1
     | Some (weighted_timespans, target, total_work) =>
         let '(low, high) := mul x86_64 total_work target in
         if negb (high =? 0) then Ret 0 else udiv low weighted_timespans
     end).
Proof.
  unfold next_difficulty_v4, next_difficulty_v4_vars.
  destruct (if DIFFICULTY_BLOCKS_COUNT_V12 <? size ts then _ else _) as [ts' cds'].
  destruct (v4_shrink median ts' cds') as [[ts2 cds2]| | |];
    cbn [mbind outcome_bind]; try reflexivity.
  destruct (assert NDEBUG (size ts2 =? size cds2)) as [[]| | |];
    cbn [mbind outcome_bind]; try reflexivity.
  destruct (size ts2 <=? 1); [reflexivity|].
  destruct (at_index ts2 0); cbn [mbind outcome_bind]; try reflexivity.
  destruct (for_each _ _ _); cbn [mbind outcome_bind]; try reflexivity.
  destruct (at_index cds2 (size cds2 - 1)); cbn [mbind outcome_bind]; try reflexivity.
  destruct (at_index cds2 0); cbn [mbind outcome_bind]; try reflexivity.
  destruct (assert NDEBUG _) as [[]| | |]; cbn [mbind outcome_bind]; reflexivity.
Qed.

(** On more than one entry, with growing 64-bit cumulative difficulties,
    [time_span] and [total_work] are computed and are at least 1. *)
Lemma next_difficulty_vars_Ret NDEBUG (ts cds : list Z) :
  length ts = length cds -> (1 < length ts)%nat ->
  Forall is_u64 cds -> increasing cds ->
  exists time_span total_work,
    next_difficulty_vars NDEBUG ts cds = Ret (Some (time_span, total_work))
    /\ 1 <= time_span < M64 /\ 1 <= total_work < M64.
Proof.
  intros Hlen Hn Hr Hinc. unfold next_difficulty_vars.
  unfold DIFFICULTY_WINDOW, DIFFICULTY_CUT.
  assert (H1 : exists (k : nat),
    (if 720 <? size ts then (resize_to 720 ts, resize_to 720 cds) else (ts, cds))
    = (take k ts, take k cds) /\ (2 <= k)%nat /\ (length (take k ts) <= 720)%nat).
  { destruct (Z.ltb_spec 720 (size ts)) as [Hgt|Hle]; unfold size in *.
    - exists 720%nat. rewrite !resize_to_shrink by (unfold size; lia).
      rewrite length_take. repeat split; lia.
    - exists (length ts). rewrite Hlen at 3. rewrite !take_ge by lia.
      repeat split; lia. }
  destruct H1 as (k & -> & Hk & Hk').
  set (ts2 := take k ts) in *. set (cds2 := take k cds).
  assert (Hs : size ts2 = size cds2)
    by (unfold size; subst ts2 cds2; rewrite !length_take; lia).
  assert (Hsz : 2 <= size ts2 <= 720)
    by (unfold size; subst ts2; rewrite length_take in *; lia).
  assert (Hinc2 : increasing cds2) by (apply increasing_take, Hinc).
  assert (Hr2 : Forall is_u64 cds2) by (apply Forall_take, Hr).
  clearbody cds2 ts2.
  rewrite <- Hs, Z.eqb_refl, assert_true. cbn [mbind outcome_bind].
  destruct (Z.leb_spec (size ts2) 1) as [|_]; [lia|].
  destruct (Z.leb_spec (size ts2) 720) as [_|]; [|lia].
  rewrite assert_true. cbn [mbind outcome_bind].
  set (n := size ts2) in *.
  assert (Hcut : exists cb ce,
    (if n <=? 720 - 2 * 60 then (0, n)
     else (wrap64 (wrap64 (n - (720 - 2 * 60)) + 1) / 2,
           wrap64 (wrap64 (wrap64 (n - (720 - 2 * 60)) + 1) / 2 + (720 - 2 * 60))))
    = (cb, ce) /\ 0 <= cb /\ cb + 2 <= ce /\ ce <= n).
  { destruct (Z.leb_spec n (720 - 2 * 60)).
    - exists 0, n. repeat split; lia.
    - rewrite (wrap64_small (n - (720 - 2 * 60))) by lia.
      rewrite (wrap64_small (n - (720 - 2 * 60) + 1)) by lia.
      assert (0 <= (n - (720 - 2 * 60) + 1) / 2 <= n - 600)
        by (Z.div_mod_to_equations; lia).
      rewrite wrap64_small by lia.
      eexists _, _. split; [reflexivity|]. lia. }
  destruct Hcut as (cb & ce & -> & Hcb & Hce & Hcen).
  destruct (Z.leb_spec (cb + 2) ce); [|lia].
  destruct (Z.leb_spec ce n); [|lia].
  simpl andb. rewrite assert_true. cbn [mbind outcome_bind].
  destruct (at_index_in_range (sort ts2) (ce - 1)) as (te & _ & ->);
    [rewrite size_sort; lia|].
  destruct (at_index_in_range (sort ts2) cb) as (tb & _ & ->);
    [rewrite size_sort; lia|].
  cbn [mbind outcome_bind].
  destruct (at_index_in_range cds2 (ce - 1)) as (de & Hde & ->); [lia|].
  destruct (at_index_in_range cds2 cb) as (db & Hdb & ->); [lia|].
  cbn [mbind outcome_bind].
  assert (Hwork : db < de)
    by (eapply (Hinc2 (Z.to_nat cb) (Z.to_nat (ce - 1))); eauto; lia).
  assert (Hde_r : is_u64 de) by (eapply Forall_lookup_1; eauto).
  assert (Hdb_r : is_u64 db) by (eapply Forall_lookup_1; eauto).
  unfold is_u64 in *.
  rewrite (wrap64_small (de - db)) by lia.
  destruct (Z.ltb_spec 0 (de - db)); [|lia].
  rewrite assert_true. cbn [mbind outcome_bind].
  eexists _, _. split; [reflexivity|]. split; [|lia].
  pose proof (wrap64_range (te - tb)).
  destruct (Z.eqb_spec (wrap64 (te - tb)) 0); lia.
Qed.

(** The quotient of [next_difficulty]: zero exactly when the low word of
    the product is zero or the 64-bit sum wraps. *)
Lemma rounded_up_quotient low time_span :
  0 <= low < M64 -> 1 <= time_span < M64 ->
  0 <= wrap64 (low + time_span - 1) / time_span
  /\ (1 <= wrap64 (low + time_span - 1) / time_span
      <-> 1 <= low /\ low + time_span - 1 < M64).
Proof.
  intros Hl Ht. pose proof (wrap64_range (low + time_span - 1)) as Hw.
  split; [apply Z.div_pos; lia|].
  destruct (Z.lt_ge_cases (low + time_span - 1) M64) as [Hlt|Hge].
  - rewrite wrap64_small by lia. split.
    + intros Hq. split; [|assumption].
      destruct (Z.lt_ge_cases low 1) as [H0|]; [|assumption].
      rewrite Z.div_small in Hq by lia. lia.
    + intros [H1 _]. apply Z.div_le_lower_bound; lia.
  - assert (Hv : wrap64 (low + time_span - 1) = low + time_span - 1 - M64).
    { unfold wrap64. symmetry. apply (Z.mod_unique _ _ 1); lia. }
    rewrite Hv, Z.div_small by lia. lia.
Qed.


(** On more than one entry, with growing 64-bit cumulative difficulties and
    a target below 2^32 seconds, the variables of [next_difficulty_v4] are
    computed; [weighted_timespans] is at least [minimum_timespan >= 1]. *)
Lemma next_difficulty_v4_vars_Ret NDEBUG median (ts cds : list Z) T :
  length ts = length cds -> (1 < length ts)%nat ->
  Forall is_u64 cds -> increasing cds -> 0 < T < M32 ->
  exists weighted_timespans target total_work,
    next_difficulty_v4_vars NDEBUG median ts cds T
    = Ret (Some (weighted_timespans, target, total_work))
    /\ 1 <= weighted_timespans /\ 0 <= target < M64 /\ 1 <= total_work < M64.
Proof.
  intros Hlen Hn Hr Hinc HT. unfold next_difficulty_v4_vars.
  unfold DIFFICULTY_BLOCKS_COUNT_V12, DIFFICULTY_WINDOW_V2.
  assert (H1 : exists (k : nat),
    (if 70 <? size ts then (resize_to 70 ts, resize_to 70 cds) else (ts, cds))
    = (take k ts, take k cds) /\ (2 <= k)%nat /\ (length (take k ts) <= 70)%nat).
  { destruct (Z.ltb_spec 70 (size ts)) as [Hgt|Hle]; unfold size in *.
    - exists 70%nat. rewrite !resize_to_shrink by (unfold size; lia).
      rewrite length_take. repeat split; lia.
    - exists (length ts). rewrite Hlen at 3. rewrite !take_ge by lia.
      repeat split; lia. }
  destruct H1 as (k1 & -> & Hk1 & Hk1').
  assert (H2 : exists (k : nat),
    v4_shrink median (take k1 ts) (take k1 cds) = Ret (take k ts, take k cds)
    /\ (2 <= k)%nat /\ (length (take k ts) <= 70)%nat).
  { destruct (v4_shrink_cases median (take k1 ts) (take k1 cds)) as [->|[Hge ->]].
    - unfold size. rewrite !length_take. lia.
    - exists k1. repeat split; lia.
    - exists (25 `min` k1)%nat. rewrite !take_take.
      unfold size in Hge. rewrite length_take in *. repeat split; lia. }
  destruct H2 as (k & -> & Hk & Hk'). cbn [mbind outcome_bind].
  clear k1 Hk1 Hk1'.
  set (ts2 := take k ts) in *. set (cds2 := take k cds).
  assert (Hs2 : size ts2 = size cds2)
    by (unfold size; subst ts2 cds2; rewrite !length_take; lia).
  assert (Hn2 : 2 <= size ts2 <= 70)
    by (unfold size; subst ts2; rewrite length_take in *; lia).
  assert (Hinc2 : increasing cds2) by (apply increasing_take, Hinc).
  assert (Hr2 : Forall is_u64 cds2) by (apply Forall_take, Hr).
  clearbody cds2 ts2.
  rewrite <- Hs2, Z.eqb_refl, assert_true. cbn [mbind outcome_bind].
  destruct (Z.leb_spec (size ts2) 1) as [|_]; [lia|].
  destruct (at_index_in_range ts2 0) as (t0 & _ & ->); [lia|].
  cbn [mbind outcome_bind].
  destruct (for_each_Ret (v4_step ts2 (size ts2) T) (seqZ 1 (size ts2 - 1))
              (V4Vars t0 0 0 false 0 0)) as [s ->].
  { intros i s Hi. apply elem_of_seqZ in Hi. apply v4_step_Ret. lia. }
  cbn [mbind outcome_bind].
  destruct (at_index_in_range cds2 (size ts2 - 1)) as (db & Hdb & ->); [lia|].
  destruct (at_index_in_range cds2 0) as (df & Hdf & ->); [lia|].
  cbn [mbind outcome_bind].
  assert (Hwork : df < db)
    by (eapply (Hinc2 (Z.to_nat 0) (Z.to_nat (size ts2 - 1))); eauto; lia).
  assert (Hdb_r : is_u64 db) by (eapply Forall_lookup_1; eauto).
  assert (Hdf_r : is_u64 df) by (eapply Forall_lookup_1; eauto).
  unfold is_u64 in *.
  rewrite (wrap64_small (db - df)) by lia.
  destruct (Z.ltb_spec 0 (db - df)); [|lia].
  rewrite assert_true. cbn [mbind outcome_bind].
  set (n := size ts2) in *.
  assert (Hhalf : 1 <= (n + 1) / 2 <= n - 1) by (Z.div_mod_to_equations; lia).
  rewrite (wrap64_small (T * n)) by nia.
  eexists _, _, _. split; [reflexivity|].
  split; [|split; [|lia]].
  - assert (Hmin : 1 <= T * n / 2) by (apply Z.div_le_lower_bound; nia).
    destruct (Z.ltb_spec (v4_adjust s) (T * n / 2)); lia.
  - pose proof (wrap64_range (99 * wrap64 (wrap64 (n + 1) / 2 * T))) as Hw.
    split; [apply Z.div_pos; lia|].
    apply Z.div_lt_upper_bound; lia.
Qed.

(** C4 (amended): on timestamps and cumulative difficulties of one positive
    length, the difficulties 64-bit and strictly increasing, and for a
    target of [0 < target_seconds < 2^64]:
    - [next_difficulty_v2] returns a value that is at least 1;
    - [next_difficulty_v3] returns at least 1 whenever it returns;
    - on one entry [next_difficulty] and [next_difficulty_v4] return 1;
    - on more entries [next_difficulty] returns
      [(low + time_span - 1) / time_span] in 64-bit arithmetic, [low] being
      the low word of [total_work * target_seconds]; that is at least 1
      exactly when [low] is not 0 and the sum does not wrap, so whenever
      [total_work * target_seconds + time_span - 1 < 2^64], and it is then
      the value of [next_difficulty_v2] as well;
    - on more entries and for a target below 2^32, [next_difficulty_v4]
      returns [total_work * target / weighted_timespans], or 0 when the
      product does not fit in 64 bits; that is at least 1 exactly when
      [weighted_timespans <= total_work * target < 2^64]. *)
Theorem difficulty_lower_bound NDEBUG x86_64 median ts cds T :
  length ts = length cds -> (0 < length ts)%nat ->
  Forall is_u64 cds -> increasing cds -> 0 < T < M64 ->
  (exists d, next_difficulty_v2 NDEBUG x86_64 ts cds T = Ret d /\ 1 <= d)
  /\ (forall d, next_difficulty_v3 NDEBUG ts cds T = Ret d -> 1 <= d)
  /\ (length ts = 1%nat ->
      next_difficulty NDEBUG x86_64 ts cds T = Ret 1
      /\ next_difficulty_v4 NDEBUG x86_64 median ts cds T = Ret 1)
  /\ ((1 < length ts)%nat ->
      exists time_span total_work d,
        next_difficulty_vars NDEBUG ts cds = Ret (Some (time_span, total_work))
        /\ 1 <= time_span < M64 /\ 1 <= total_work < M64
        /\ next_difficulty NDEBUG x86_64 ts cds T = Ret d
        /\ d = wrap64 ((total_work * T) mod M64 + time_span - 1) / time_span
        /\ 0 <= d
        /\ (1 <= d <-> 1 <= (total_work * T) mod M64
                       /\ (total_work * T) mod M64 + time_span - 1 < M64)
        /\ (total_work * T + time_span - 1 < M64 ->
            1 <= d /\ next_difficulty_v2 NDEBUG x86_64 ts cds T = Ret d))
  /\ ((1 < length ts)%nat -> T < M32 ->
      exists weighted_timespans target total_work d,
        next_difficulty_v4_vars NDEBUG median ts cds T
        = Ret (Some (weighted_timespans, target, total_work))
        /\ 1 <= weighted_timespans /\ 1 <= total_work < M64
        /\ next_difficulty_v4 NDEBUG x86_64 median ts cds T = Ret d
        /\ d = (if total_work * target <? M64
                then total_work * target / weighted_timespans else 0)
        /\ 0 <= d
        /\ (1 <= d <-> weighted_timespans <= total_work * target < M64)).
Proof.
  intros Hlen Hpos Hr Hinc HT. split; [|split; [|split; [|split]]].
  - destruct (Nat.le_gt_cases (length ts) 720) as [Hle|Hgt].
    + apply next_difficulty_v2_window; auto with lia.
    + rewrite next_difficulty_v2_truncate by assumption.
      apply next_difficulty_v2_window; auto using increasing_take, Forall_take.
      * rewrite !length_take. lia.
      * rewrite length_take. lia.
  - intros d Hd. apply next_difficulty_v3_cases in Hd.
    destruct Hd as [[_ ->]|[_ (c & Hc & [[_ ->]|[[_ ->]|[? ->]]])]]; lia.
  - intros H1. rewrite H1 in Hlen.
    destruct ts as [|t [|? ?]]; try discriminate.
    destruct cds as [|c [|? ?]]; try discriminate.
    split; destruct NDEBUG; reflexivity.
  - intros Hn.
    destruct (next_difficulty_vars_Ret NDEBUG ts cds Hlen Hn Hr Hinc)
      as (time_span & total_work & Hv & Hts & Htw).
    exists time_span, total_work. eexists. split; [exact Hv|].
    split; [exact Hts|]. split; [exact Htw|].
    rewrite next_difficulty_last_lines, next_difficulty_v2_last_lines, Hv.
    cbn [mbind outcome_bind]. rewrite mul_spec by lia.
    set (low := (total_work * T) mod M64).
    assert (Hlow : 0 <= low < M64) by (subst low; apply Z.mod_pos_bound; lia).
    destruct (rounded_up_quotient low time_span Hlow Hts) as [Hq0 Hq].
    unfold udiv. destruct (Z.eqb_spec time_span 0) as [|_]; [lia|].
    split; [reflexivity|]. split; [reflexivity|]. split; [exact Hq0|].
    split; [exact Hq|].
    intros Hfit.
    assert (Hp : 1 <= total_work * T < M64) by nia.
    assert (Hhigh : total_work * T / M64 = 0) by (apply Z.div_small; lia).
    assert (Hl : low = total_work * T) by (subst low; apply Z.mod_small; lia).
    split; [apply Hq; lia|].
    rewrite Hhigh. simpl negb. simpl orb.
    destruct (Z.ltb_spec (wrap64 (low + time_span - 1)) low) as [Hwrap|_];
      [|reflexivity].
    rewrite wrap64_small in Hwrap by lia. lia.
  - intros Hn HT32.
    destruct (next_difficulty_v4_vars_Ret NDEBUG median ts cds T Hlen Hn Hr Hinc)
      as (w & target & total_work & Hv & Hw & Htarget & Htw); [lia|].
    exists w, target, total_work,
      (if total_work * target <? M64 then total_work * target / w else 0).
    split; [exact Hv|]. split; [exact Hw|]. split; [exact Htw|].
    rewrite next_difficulty_v4_last_lines, Hv.
    cbn [mbind outcome_bind]. rewrite mul_spec by lia.
    assert (Hp : 0 <= total_work * target) by nia.
    destruct (Z.ltb_spec (total_work * target) M64) as [Hfit|Hover].
    + rewrite Z.div_small, Z.mod_small by lia. simpl negb. cbv iota.
      unfold udiv. destruct (Z.eqb_spec w 0) as [|_]; [lia|].
      split; [reflexivity|]. split; [reflexivity|].
      split; [apply Z.div_pos; lia|].
      split.
      * intros Hq. split; [|assumption].
        destruct (Z.lt_ge_cases (total_work * target) w) as [Hsmall|]; [|assumption].
        rewrite Z.div_small in Hq by lia. lia.
      * intros [Hge _]. apply Z.div_le_lower_bound; lia.
    + assert (Hhigh : total_work * target / M64 <> 0).
      { intros E. apply Z.div_small_iff in E; lia. }
      destruct (Z.eqb_spec (total_work * target / M64) 0) as [|_]; [contradiction|].
      simpl negb. cbv iota.
      split; [reflexivity|]. split; [reflexivity|]. split; [lia|]. lia.
Qed.

Lemma difficulty_lower_bound_witness :
  (next_difficulty false true [5] [7] 60 = Ret 1
   /\ next_difficulty_v4 false true (fun _ => 0) [5] [7] 60 = Ret 1)
  /\ (exists d, next_difficulty_v2 false true [0; 60] [1; 121] 60 = Ret d /\ 1 <= d)
  /\ (forall d, next_difficulty_v3 false [0; 60] [1; 121] 60 = Ret d -> 1 <= d)
  /\ (exists time_span total_work d,
        next_difficulty_vars false [0; 60] [1; 121] = Ret (Some (time_span, total_work))
        /\ next_difficulty false true [0; 60] [1; 121] 60 = Ret d
        /\ total_work * 60 + time_span - 1 < M64
        /\ 1 <= d
        /\ next_difficulty_v2 false true [0; 60] [1; 121] 60 = Ret d)
  /\ (exists weighted_timespans target total_work d,
        next_difficulty_v4_vars false (fun _ => 0) [0; 60] [1; 121] 60
        = Ret (Some (weighted_timespans, target, total_work))
        /\ next_difficulty_v4 false true (fun _ => 0) [0; 60] [1; 121] 60 = Ret d
        /\ weighted_timespans <= total_work * target < M64
        /\ 1 <= d).
Proof.
  assert (Hu : forall a b : Z, 0 <= a < M64 -> 0 <= b < M64 -> Forall is_u64 [a; b]).
  { intros a b Ha Hb. repeat (apply List.Forall_cons; [assumption|]).
    apply List.Forall_nil. }
  assert (Hi : forall a b : Z, a < b -> increasing [a; b]).
  { intros a b Hab [|[|[|i]]] [|[|[|j]]] x y Hij; simpl; intros Hx Hy;
      try discriminate; try lia; injection Hx as <-; injection Hy as <-; lia. }
  assert (Hi1 : increasing [7]).
  { intros [|i] [|j] x y Hij; simpl; intros Hx Hy; try discriminate; lia. }
  destruct (difficulty_lower_bound false true (fun _ => 0) [5] [7] 60)
    as (_ & _ & Hone & _);
    [reflexivity | simpl; lia
     | apply List.Forall_cons; [unfold is_u64; lia | apply List.Forall_nil]
     | exact Hi1 | lia |].
  destruct (difficulty_lower_bound false true (fun _ => 0) [0; 60] [1; 121] 60)
    as (Hv2 & Hv3 & _ & Hv1 & Hv4);
    [reflexivity | simpl; lia | apply Hu; lia | apply Hi; lia | lia |].
  split; [apply Hone; reflexivity|]. split; [exact Hv2|]. split; [exact Hv3|].
  split.
  - destruct Hv1 as (time_span & total_work & d & Hv & _ & _ & Hd & _ & _ & _ & Hfit);
      [simpl; lia|].
    exists time_span, total_work, d. split; [exact Hv|]. split; [exact Hd|].
    assert (Hc : time_span = 60 /\ total_work = 120).
    { vm_compute in Hv. injection Hv as <- <-. split; reflexivity. }
    destruct Hc as [-> ->]. split; [lia|]. apply Hfit. lia.
  - destruct Hv4 as (w & target & total_work & d & Hv & _ & _ & Hd & _ & _ & Hiff);
      [simpl; lia | lia |].
    exists w, target, total_work, d. split; [exact Hv|]. split; [exact Hd|].
    assert (Hc : w = 60 /\ target = 59 /\ total_work = 120).
    { vm_compute in Hv. injection Hv as <- <- <-. repeat split; reflexivity. }
    destruct Hc as (-> & -> & ->). split; [lia|]. apply Hiff. lia.
Defined.

(** Two blocks found 1000 seconds apart with one unit of work between them:
    [next_difficulty_v4] returns [59 / 660 = 0], whatever the build.  A
    window on which the 64-bit sum [low + time_span - 1] of
    [next_difficulty] wraps: it returns 0 as well.  And two blocks of the
    same cumulative difficulty: [next_difficulty_v2] returns
    [(0 + 60 - 1) / 60 = 0] when assertions are compiled out, and stops on
    [assert(total_work > 0)] otherwise. *)
Lemma difficulty_lower_bound_counterexample :
  (forall NDEBUG x86_64 median,
     next_difficulty_v4 NDEBUG x86_64 median [0; 1000] [1; 2] 60 = Ret 0)
  /\ (forall NDEBUG x86_64,
        next_difficulty NDEBUG x86_64 [0; 2] [0; 18446744073709551615] 1 = Ret 0)
  /\ (forall x86_64,
        next_difficulty_v2 true x86_64 [0; 60] [5; 5] 60 = Ret 0
        /\ next_difficulty_v2 false x86_64 [0; 60] [5; 5] 60 = AssertionFailed).
Proof.
  split; [|split].
  - intros [] [] median; vm_compute; reflexivity.
  - intros [] []; vm_compute; reflexivity.
  - intros []; split; vm_compute; reflexivity.
Qed.

(** For a target of 2^62 seconds the 64-bit products of [next_difficulty_v4]
    wrap: [minimum_timespan] and the weighted time span are both 0 and the
    function divides by zero. *)
Remark next_difficulty_v4_huge_target NDEBUG x86_64 median :
  next_difficulty_v4 NDEBUG x86_64 median
    [0; 2; 2305843009213693953; 6917529027641081857] [1; 2; 3; 4]
    4611686018427387904 = Undefined.
Proof. destruct NDEBUG, x86_64; vm_compute; reflexivity. Qed.


(** C5 (amended): on at least 6 entries, whenever [next_difficulty_v3]
    returns, [nextDifficulty] has been computed on the (at most 71 first)
    entries and converted to the [uint64_t] [next_difficulty]; a converted
    value below 2000 is replaced by 75723142, one above 120307799 by
    120307799, and any other is returned as it is.  So the value returned
    lies in [[2000, 120307799]]. *)
Theorem next_difficulty_v3_range NDEBUG ts cds T d :
  6 <= size ts ->
  next_difficulty_v3 NDEBUG ts cds T = Ret d ->
  let timestamps := if 70 <? size ts then resize_to 71 ts else ts in
  let cumulative_difficulties := if 70 <? size ts then resize_to 71 cds else cds in
  let N := if size timestamps <? 71 then size timestamps - 1 else 70 in
  exists nextDifficulty computed,
    v3_nextDifficulty timestamps cumulative_difficulties (to_int64 T) N
    = Ret nextDifficulty
    /\ Double.to_uint64 nextDifficulty = Ret computed
    /\ ((computed < 2000 /\ d = 75723142)
        \/ (120307799 < computed /\ d = 120307799)
        \/ (2000 <= computed <= 120307799 /\ d = computed))
    /\ 2000 <= d <= 120307799.
Proof.
  intros Hn Hd timestamps cumulative_difficulties N.
  unfold next_difficulty_v3, DIFFICULTY_WINDOW_V2 in Hd.
  assert (Hpair :
    (if 70 <? size ts then (resize_to (70 + 1) ts, resize_to (70 + 1) cds)
     else (ts, cds)) = (timestamps, cumulative_difficulties)).
  { subst timestamps cumulative_difficulties.
    destruct (70 <? size ts); reflexivity. }
  rewrite Hpair in Hd.
  assert (Hsz : 6 <= size timestamps).
  { subst timestamps. destruct (Z.ltb_spec 70 (size ts)); [|assumption].
    rewrite size_resize_to; lia. }
  bind_inv Hd. bind_inv Hd.
  destruct (Z.ltb_spec (size timestamps) 6) as [|_]; [lia|].
  change (70 + 1) with 71 in Hd. fold N in Hd.
  bind_inv Hd. bind_inv Hd.
  match goal with
  | E1 : v3_nextDifficulty _ _ _ _ = Ret ?nd, E2 : Double.to_uint64 ?nd = Ret ?c |- _ =>
      exists nd, c; split; [exact E1|]; split; [exact E2|];
      destruct (Z.ltb_spec c 2000);
      [injection Hd as <-; split; [left; split; [assumption | reflexivity] | lia]|];
      destruct (Z.ltb_spec 120307799 c);
      [injection Hd as <-;
       split; [right; left; split; [assumption | reflexivity] | lia]|];
      injection Hd as <-; split; [right; right; split; [lia | reflexivity] | lia]
  end.
Qed.

Lemma next_difficulty_v3_range_witness :
  exists nextDifficulty computed,
    v3_nextDifficulty [0; 120; 240; 360; 480; 600]
      [0; 10250; 20500; 30750; 41000; 51250] (to_int64 120) 5 = Ret nextDifficulty
    /\ Double.to_uint64 nextDifficulty = Ret computed
    /\ ((computed < 2000 /\ 10229 = 75723142)
        \/ (120307799 < computed /\ 10229 = 120307799)
        \/ (2000 <= computed <= 120307799 /\ 10229 = computed))
    /\ 2000 <= 10229 <= 120307799.
Proof.
  apply (next_difficulty_v3_range true [0; 120; 240; 360; 480; 600]
           [0; 10250; 20500; 30750; 41000; 51250] 120 10229);
    [vm_compute; discriminate | vm_compute; reflexivity].
Defined.


(** Six blocks 120 seconds apart, each of difficulty 10250: the harmonic
    mean times 0.998 is 10229.5, so the next difficulty is 10229, far below
    75723142. *)
Lemma next_difficulty_v3_range_counterexample :
  (forall NDEBUG,
     next_difficulty_v3 NDEBUG [0; 120; 240; 360; 480; 600]
       [0; 10250; 20500; 30750; 41000; 51250] 120 = Ret 10229)
  /\ ~ (75723142 <= 10229 <= 120307799).
Proof.
  split; [intros []; vm_compute; reflexivity | lia].
Qed.

(** C10: in [next_difficulty_v4] the start index of the third partition,
    [DIFFICULTY_BLOCKS_COUNT_V12*-10] converted to [size_t], is
    [2^64 - 700], not below [DIFFICULTY_BLOCKS_COUNT_V12]; so the loop has
    no iteration, [last_diffs] is empty for every input, and [median_last]
    is the median of the empty vector. *)
Theorem last_diffs_empty median cds :
  DIFFICULTY_BLOCKS_COUNT_V12 - 1 = 69
  /\ wrap64 (DIFFICULTY_BLOCKS_COUNT_V12 * -10) = M64 - 700
  /\ DIFFICULTY_BLOCKS_COUNT_V12 <= wrap64 (DIFFICULTY_BLOCKS_COUNT_V12 * -10)
  /\ last_diffs cds = Ret []
  /\ v4_medians median cds
     = (first ← first_diffs cds; mid ← mid_diffs cds;
        Ret (median first, median mid, median [])).
Proof.
  split; [reflexivity|]. split; [reflexivity|]. split; [vm_compute; discriminate|].
  assert (H : last_diffs cds = Ret []) by reflexivity.
  split; [exact H|].
  unfold v4_medians. rewrite H. reflexivity.
Qed.

(** ** Checkpoints *)

Import Checkpoints.

Lemma foldl_max_spec (ks : list Z) (k : Z) :
  let g := foldl Z.max k ks in
  (g = k \/ g ∈ ks) /\ k <= g /\ forall x, x ∈ ks -> x <= g.
Proof.
  revert k. induction ks as [|y ks IH]; intros k; cbn [foldl].
  - split; [now left|]. split; [lia|]. intros x Hx. inversion Hx.
  - destruct (IH (Z.max k y)) as (Hin & Hle & Hall).
    split; [|split].
    + destruct Hin as [Heq|Hin]; [|right; now right].
      destruct (Z.max_spec k y) as [[_ E]|[_ E]]; rewrite E in *.
      * right. rewrite Heq. left.
      * now left.
    + lia.
    + intros x Hx. apply elem_of_cons in Hx as [->|Hx]; [lia | auto].
Qed.

Lemma greatest_None (l : list Z) : greatest l = None <-> l = [].
Proof. destruct l; simpl; split; congruence. Qed.

Lemma greatest_Some (l : list Z) (g : Z) :
  greatest l = Some g -> g ∈ l /\ forall x, x ∈ l -> x <= g.
Proof.
  destruct l as [|k ks]; [discriminate|]. cbn [greatest]. intros [= <-].
  destruct (foldl_max_spec ks k) as (Hin & Hle & Hall).
  split.
  - destruct Hin as [->|Hin]; [left | now right].
  - intros x Hx. apply elem_of_cons in Hx as [->|Hx]; auto.
Qed.

Lemma elem_of_heights (m : gmap Z (list Z)) (k : Z) :
  k ∈ heights m <-> is_Some (m !! k).
Proof.
  unfold heights. rewrite list_elem_of_fmap. split.
  - intros [[k' v] [-> Hin]]. apply elem_of_map_to_list in Hin. now exists v.
  - intros [v Hv]. exists (k, v). split; [reflexivity|].
    now apply elem_of_map_to_list.
Qed.

Lemma before_upper_bound_None (m : gmap Z (list Z)) (tip : Z) :
  before_upper_bound m tip = None <-> forall k, is_Some (m !! k) -> ~ k <= tip.
Proof.
  unfold before_upper_bound. rewrite greatest_None. split.
  - intros Hnil k Hk Hle.
    assert (Hin : k ∈ filter (fun k => k <= tip) (heights m))
      by (apply list_elem_of_filter; split; [assumption | now apply elem_of_heights]).
    rewrite Hnil in Hin. inversion Hin.
  - intros Hno. destruct (filter _ _) as [|k l] eqn:E; [reflexivity|].
    assert (Hin : k ∈ filter (fun k => k <= tip) (heights m))
      by (rewrite E; left).
    apply list_elem_of_filter in Hin as [Hle Hin].
    apply elem_of_heights in Hin. exfalso. exact (Hno k Hin Hle).
Qed.

Lemma before_upper_bound_Some (m : gmap Z (list Z)) (tip g : Z) :
  before_upper_bound m tip = Some g <->
  is_Some (m !! g) /\ g <= tip /\ forall k, is_Some (m !! k) -> k <= tip -> k <= g.
Proof.
  unfold before_upper_bound. split.
  - intros H. apply greatest_Some in H as [Hin Hall].
    apply list_elem_of_filter in Hin as [Hle Hin].
    split; [now apply elem_of_heights|]. split; [assumption|].
    intros k Hk Hkt. apply Hall, list_elem_of_filter.
    split; [assumption | now apply elem_of_heights].
  - intros (Hg & Hle & Hall).
    destruct (greatest _) as [g'|] eqn:E.
    + apply greatest_Some in E as [Hin Hmax].
      apply list_elem_of_filter in Hin as [Hle' Hin]. apply elem_of_heights in Hin.
      assert (g <= g') by (apply Hmax, list_elem_of_filter;
                           split; [assumption | now apply elem_of_heights]).
      assert (g' <= g) by auto.
      f_equal. lia.
    + apply greatest_None in E.
      assert (Hin : g ∈ filter (fun k => k <= tip) (heights m))
        by (apply list_elem_of_filter; split; [assumption | now apply elem_of_heights]).
      rewrite E in Hin. inversion Hin.
Qed.

(** C8: [is_alternative_block_allowed] is [false] for a candidate height of
    zero; otherwise it is [true] exactly when no checkpoint is at or below
    the chain tip, or the greatest such checkpoint is strictly below the
    candidate height.  With the default mainnet checkpoints, a tip of 400000
    forbids an alternative block at 200000 and allows one at 340000. *)
Theorem is_alternative_block_allowed_spec (m_points : gmap Z (list Z))
    (blockchain_height block_height : Z) :
  (block_height = 0 ->
   is_alternative_block_allowed m_points blockchain_height block_height = false)
  /\ (block_height <> 0 ->
      (is_alternative_block_allowed m_points blockchain_height block_height = true
       <-> (forall k, is_Some (m_points !! k) -> ~ k <= blockchain_height)
           \/ (exists g, is_Some (m_points !! g) /\ g <= blockchain_height
                 /\ (forall k, is_Some (m_points !! k) -> k <= blockchain_height -> k <= g)
                 /\ g < block_height)))
  /\ (let mainnet := init_default_checkpoints MAINNET ∅ in
      fst mainnet = true
      /\ is_alternative_block_allowed (snd mainnet) 400000 200000 = false
      /\ is_alternative_block_allowed (snd mainnet) 400000 340000 = true).
Proof.
  split; [|split].
  - intros ->. reflexivity.
  - intros Hne. unfold is_alternative_block_allowed.
    destruct (Z.eqb_spec 0 block_height) as [|_]; [congruence|].
    destruct (before_upper_bound m_points blockchain_height) as [g|] eqn:E.
    + apply before_upper_bound_Some in E as (Hg & Hle & Hall).
      rewrite Z.ltb_lt. split.
      * intros Hlt. right. exists g. auto.
      * intros [Hno|(g' & Hg' & Hle' & Hall' & Hlt)]; [exfalso; exact (Hno g Hg Hle)|].
        assert (g <= g') by auto. lia.
    + pose proof (proj1 (before_upper_bound_None _ _) E) as Hno.
      split; [now left | reflexivity].
  - cbv zeta. repeat split; vm_compute; reflexivity.
Qed.

Lemma add_checkpoint_cases h s (m : gmap Z (list Z)) :
  (exists x, parse_tpod_from_hex_string s = Some x
             /\ (m !! h = None \/ m !! h = Some x)
             /\ add_checkpoint h s m = (true, <[h := x]> m))
  \/ ((parse_tpod_from_hex_string s = None
       \/ exists x y, parse_tpod_from_hex_string s = Some x /\ m !! h = Some y /\ x <> y)
      /\ add_checkpoint h s m = (false, m)).
Proof.
  unfold add_checkpoint.
  destruct (parse_tpod_from_hex_string s) as [x|]; [|right; split; [now left | reflexivity]].
  destruct (m !! h) as [y|] eqn:E.
  - destruct (bool_decide_reflect (x = y)) as [->|Hne].
    + left. exists y. auto.
    + right. split; [right; exists x, y; auto | reflexivity].
  - left. exists x. auto.
Qed.

(** A pinned height keeps its hash through [add_checkpoint]. *)
Lemma add_checkpoint_keeps h s (m : gmap Z (list Z)) k v :
  m !! k = Some v -> snd (add_checkpoint h s m) !! k = Some v.
Proof.
  intros Hk.
  destruct (add_checkpoint_cases h s m) as [(x & _ & Hold & ->)|[_ ->]]; [|exact Hk].
  cbn [snd]. destruct (decide (h = k)) as [->|Hne].
  - rewrite lookup_insert_eq. destruct Hold; congruence.
  - now rewrite lookup_insert_ne.
Qed.

Lemma add_checkpoint_other h s (m : gmap Z (list Z)) k :
  h <> k -> snd (add_checkpoint h s m) !! k = m !! k.
Proof.
  intros Hne.
  destruct (add_checkpoint_cases h s m) as [(x & _ & _ & ->)|[_ ->]]; [|reflexivity].
  cbn [snd]. now rewrite lookup_insert_ne.
Qed.

Lemma add_sequence_keeps calls (m : gmap Z (list Z)) k v :
  m !! k = Some v -> add_sequence calls m !! k = Some v.
Proof.
  revert m. induction calls as [|[h s] rest IH]; intros m Hk; [exact Hk|].
  cbn [add_sequence]. apply IH. now apply add_checkpoint_keeps.
Qed.

Lemma add_sequence_first calls (m : gmap Z (list Z)) k :
  m !! k = None -> add_sequence calls m !! k = first_stored k calls m.
Proof.
  revert m. induction calls as [|[h s] rest IH]; intros m Hk; [exact Hk|].
  cbn [add_sequence first_stored].
  destruct (add_checkpoint_cases h s m) as [(x & Hx & _ & E)|[_ E]]; rewrite E; cbn [snd].
  - destruct (Z.eqb_spec h k) as [->|Hne]; cbn [andb].
    + rewrite Hx. apply add_sequence_keeps, lookup_insert_eq.
    + apply IH. now rewrite lookup_insert_ne.
  - cbn [andb]. now apply IH.
Qed.

(** C7: once [add_checkpoint(h, x)] has succeeded, adding the same hash at
    [h] again succeeds and leaves the registry as it is, and adding any
    other hash [y] at [h] (one that parses to different bytes, or does not
    parse) fails and leaves the registry as it is, so the hash stored at
    [h] stays; hence, through any sequence of calls, a height that was
    pinned keeps its hash, and a height that was not holds the hash of the
    first call that succeeded at it. *)
Theorem add_checkpoint_first_wins (m_points m1 : gmap Z (list Z)) (h : Z) (x : string) :
  add_checkpoint h x m_points = (true, m1) ->
  (m1 !! h = parse_tpod_from_hex_string x /\ is_Some (m1 !! h))
  /\ add_checkpoint h x m1 = (true, m1)
  /\ (forall y, parse_tpod_from_hex_string y <> parse_tpod_from_hex_string x ->
        add_checkpoint h y m1 = (false, m1))
  /\ (forall calls (m : gmap Z (list Z)) k v,
        m !! k = Some v -> add_sequence calls m !! k = Some v)
  /\ (forall calls (m : gmap Z (list Z)) k,
        m !! k = None -> add_sequence calls m !! k = first_stored k calls m).
Proof.
  intros Hadd.
  destruct (add_checkpoint_cases h x m_points) as [(hx & Hx & _ & E)|[_ E]];
    rewrite E in Hadd; [|discriminate].
  injection Hadd as <-.
  assert (Hh : <[h:=hx]> m_points !! h = Some hx) by apply lookup_insert_eq.
  split; [rewrite Hh, Hx; eauto|]. split; [|split; [|split]].
  - unfold add_checkpoint. rewrite Hx, Hh.
    rewrite bool_decide_eq_true_2 by reflexivity. now rewrite insert_insert_eq.
  - intros y Hy. unfold add_checkpoint. rewrite Hx in Hy.
    destruct (parse_tpod_from_hex_string y) as [hy|]; [|reflexivity].
    rewrite Hh. rewrite bool_decide_eq_false_2 by congruence. reflexivity.
  - intros calls m k v. apply add_sequence_keeps.
  - intros calls m k. apply add_sequence_first.
Qed.

Local Open Scope string_scope.

Lemma add_checkpoint_first_wins_witness :
  let x := "4536e1e23ff7179a126a7e61cd9e89ded0e258176f2bc879c999caa155f68cc3" in
  let m1 := snd (add_checkpoint 1 x ∅) in
  (m1 !! 1 = parse_tpod_from_hex_string x /\ is_Some (m1 !! 1))
  /\ add_checkpoint 1 x m1 = (true, m1)
  /\ (forall y, parse_tpod_from_hex_string y <> parse_tpod_from_hex_string x ->
        add_checkpoint 1 y m1 = (false, m1))
  /\ (forall calls (m : gmap Z (list Z)) k v,
        m !! k = Some v -> add_sequence calls m !! k = Some v)
  /\ (forall calls (m : gmap Z (list Z)) k,
        m !! k = None -> add_sequence calls m !! k = first_stored k calls m).
Proof.
  apply (add_checkpoint_first_wins ∅). vm_compute. reflexivity.
Defined.

Local Close Scope string_scope.

(** [ADD_CHECKPOINT] and the loop of the JSON loader. *)
Lemma ADD_CHECKPOINTS_keeps points (m : gmap Z (list Z)) k v :
  m !! k = Some v -> snd (ADD_CHECKPOINTS points m) !! k = Some v.
Proof.
  revert m. induction points as [|[h s] rest IH]; intros m Hk; [exact Hk|].
  cbn [ADD_CHECKPOINTS].
  pose proof (add_checkpoint_keeps h s m k v Hk) as Hk'.
  destruct (add_checkpoint h s m) as [[] m']; cbn [snd] in *; auto.
Qed.

Lemma ADD_CHECKPOINTS_unpinned points (m : gmap Z (list Z)) k :
  (forall p, p ∈ points -> fst p <> k) ->
  snd (ADD_CHECKPOINTS points m) !! k = m !! k.
Proof.
  revert m. induction points as [|[h s] rest IH]; intros m Hk; [reflexivity|].
  cbn [ADD_CHECKPOINTS].
  assert (Hne : h <> k) by (apply (Hk (h, s)); left).
  pose proof (add_checkpoint_other h s m k Hne) as Ho.
  destruct (add_checkpoint h s m) as [[] m']; cbn [snd] in *; [|assumption].
  rewrite IH; [assumption|]. intros p Hp. apply Hk. now right.
Qed.

Lemma ADD_CHECKPOINTS_pinned points (m : gmap Z (list Z)) h s :
  fst (ADD_CHECKPOINTS points m) = true -> (h, s) ∈ points ->
  exists x, parse_tpod_from_hex_string s = Some x
            /\ snd (ADD_CHECKPOINTS points m) !! h = Some x.
Proof.
  revert m. induction points as [|[h' s'] rest IH]; intros m Hok Hin; [inversion Hin|].
  cbn [ADD_CHECKPOINTS] in *.
  destruct (add_checkpoint_cases h' s' m) as [(x & Hx & _ & E)|[_ E]];
    rewrite E in *; [|discriminate].
  apply elem_of_cons in Hin as [[= -> ->]|Hin]; [|now apply IH].
  exists x. split; [assumption|].
  apply ADD_CHECKPOINTS_keeps, lookup_insert_eq.
Qed.

Lemma load_hashlines_filter prev hashlines (m : gmap Z (list Z)) :
  load_hashlines prev hashlines m
  = ADD_CHECKPOINTS
      ((fun it => (height it, hash_of it)) <$> filter (fun it => prev < height it) hashlines)
      m.
Proof.
  revert m. induction hashlines as [|it rest IH]; intros m; [reflexivity|].
  cbn [load_hashlines]. destruct (Z.leb_spec (height it) prev) as [Hle|Hgt].
  - rewrite filter_cons_False by lia. apply IH.
  - rewrite filter_cons_True by lia. cbn [fmap list_fmap ADD_CHECKPOINTS].
    destruct (add_checkpoint (height it) (hash_of it) m) as [[] m']; [apply IH | reflexivity].
Qed.

(** C9 (amended): without a file, [load_checkpoints_from_json] returns
    [true] and adds nothing.  With a file that loads, on a registry that is
    not empty, it skips exactly the entries whose height is at most the
    greatest height pinned before the load, and passes every other entry, in
    the file's order, to [add_checkpoint], returning [false] at the first
    one that fails; so no height up to that greatest one changes, and when
    [true] is returned every entry above it is pinned with its hash. *)
Theorem load_checkpoints_from_json_spec (m_points : gmap Z (list Z))
    (hashlines : list t_hashline) (prev_max_height : Z) :
  load_checkpoints_from_json Missing m_points = Ret (true, m_points)
  /\ (get_max_height m_points = Ret prev_max_height ->
      exists r m',
        load_checkpoints_from_json (Loaded hashlines) m_points = Ret (r, m')
        /\ (r, m') = ADD_CHECKPOINTS
                       ((fun it => (height it, hash_of it))
                          <$> filter (fun it => prev_max_height < height it) hashlines)
                       m_points
        /\ (forall h, h <= prev_max_height -> m' !! h = m_points !! h)
        /\ (r = true -> forall it, it ∈ hashlines -> prev_max_height < height it ->
              exists x, parse_tpod_from_hex_string (hash_of it) = Some x
                        /\ m' !! height it = Some x)).
Proof.
  split; [reflexivity|]. intros Hmax.
  unfold load_checkpoints_from_json. rewrite Hmax. cbn [mbind outcome_bind].
  rewrite load_hashlines_filter.
  set (points := (fun it => (height it, hash_of it))
                   <$> filter (fun it => prev_max_height < height it) hashlines).
  destruct (ADD_CHECKPOINTS points m_points) as [r m'] eqn:E.
  exists r, m'. split; [reflexivity|]. split; [reflexivity|]. split.
  - intros h Hh. change m' with (snd (r, m')). rewrite <- E.
    apply ADD_CHECKPOINTS_unpinned. intros p Hp. subst points.
    apply list_elem_of_fmap in Hp as (it & -> & Hit).
    apply list_elem_of_filter in Hit as [Hgt _]. cbn [fst]. lia.
  - intros -> it Hit Hgt.
    change m' with (snd (true, m')). rewrite <- E.
    apply ADD_CHECKPOINTS_pinned; [now rewrite E|].
    subst points. apply list_elem_of_fmap. exists it. split; [reflexivity|].
    apply list_elem_of_filter. auto.
Qed.

(** On an empty registry [get_max_height] dereferences [end()]. *)
Remark load_checkpoints_from_json_empty (hashlines : list t_hashline) :
  load_checkpoints_from_json (Loaded hashlines) ∅ = Undefined.
Proof. reflexivity. Qed.

Local Open Scope string_scope.

(** Height 2 is not pinned on mainnet; an entry of the file at height 2 is
    skipped all the same, height 2 being below the greatest pinned height
    673449. *)
Lemma load_checkpoints_from_json_counterexample :
  let mainnet := snd (init_default_checkpoints MAINNET ∅) in
  let it := Hashline 2 "4536e1e23ff7179a126a7e61cd9e89ded0e258176f2bc879c999caa155f68cc3" in
  mainnet !! 2 = None
  /\ is_Some (parse_tpod_from_hex_string (hash_of it))
  /\ get_max_height mainnet = Ret 673449
  /\ exists m', load_checkpoints_from_json (Loaded [it]) mainnet = Ret (true, m')
                /\ m' !! 2 = None.
Proof.
  cbv zeta. split; [vm_compute; reflexivity|]. split; [vm_compute; eauto|].
  split; [vm_compute; reflexivity|].
  eexists. split; [vm_compute; reflexivity | vm_compute; reflexivity].
Qed.

Local Close Scope string_scope.

(** * Further properties *)

(** ** More on the multiplication and the proof-of-work check *)

(** X1: The portable [mul], on 32-bit halves, gives the two words of the exact
    128-bit product. *)
Theorem mul_portable_product a b :
  0 <= a < M64 -> 0 <= b < M64 ->
  let '(low, high) := mul_portable a b in
  0 <= low < M64 /\ 0 <= high < M64 /\ low + M64 * high = a * b.
Proof.
  intros Ha Hb. rewrite mul_portable_spec by assumption. unfold mul128.
  assert (0 <= a * b < M64 * M64) by nia.
  Z.div_mod_to_equations. lia.
Qed.

Lemma mul_portable_product_witness :
  let '(low, high) := mul_portable 18446744073709551615 18446744073709551615 in
  0 <= low < M64 /\ 0 <= high < M64
  /\ low + M64 * high = 18446744073709551615 * 18446744073709551615.
Proof. apply (mul_portable_product 18446744073709551615 18446744073709551615); lia. Defined.

(** X2: [cadd] is the carry out of a 64-bit addition, [cadc] the carry out of
    an addition with carry in. *)
Theorem carry_out a b c :
  0 <= a < M64 -> 0 <= b < M64 ->
  (cadd a b = true <-> M64 <= a + b)
  /\ (cadc a b c = true <-> M64 <= a + b + Z.b2z c).
Proof.
  intros Ha Hb. rewrite cadd_spec, cadc_spec by assumption.
  rewrite !Z.leb_le. tauto.
Qed.

Lemma carry_out_witness :
  (cadd 18446744073709551615 0 = true <-> M64 <= 18446744073709551615 + 0)
  /\ (cadc 18446744073709551615 0 true = true
      <-> M64 <= 18446744073709551615 + 0 + Z.b2z true).
Proof. apply (carry_out 18446744073709551615 0 true); lia. Defined.

(** [check_hash] in terms of the four limbs of the hash. *)
Lemma check_hash_limbs x86_64 big_endian h D :
  hash_wf h -> 0 <= D < M64 ->
  check_hash x86_64 big_endian h D = true
  <-> (limb big_endian h 0
       + M64 * (limb big_endian h 1
                + M64 * (limb big_endian h 2 + M64 * limb big_endian h 3))) * D < M256.
Proof.
  intros Hwf HD.
  pose proof (limb_range big_endian h 0 Hwf ltac:(lia)) as R0.
  pose proof (limb_range big_endian h 1 Hwf ltac:(lia)) as R1.
  pose proof (limb_range big_endian h 2 Hwf ltac:(lia)) as R2.
  pose proof (limb_range big_endian h 3 Hwf ltac:(lia)) as R3.
  unfold check_hash. rewrite !mul_spec by assumption.
  set (l0 := limb big_endian h 0) in *. set (l1 := limb big_endian h 1) in *.
  set (l2 := limb big_endian h 2) in *. set (l3 := limb big_endian h 3) in *.
  clearbody l0 l1 l2 l3.
  rewrite carry_chain by nia.
  replace ((l0 + M64 * (l1 + M64 * (l2 + M64 * l3))) * D)
    with (l0 * D + M64 * (l1 * D + M64 * (l2 * D + M64 * (l3 * D)))) by ring.
  reflexivity.
Qed.

(** X3: A hash that meets a difficulty meets every lower one, and so does every
    hash of a smaller value; every hash meets the difficulties 0 and 1. *)
Theorem check_hash_antitone x86_64 big_endian h h' D D' :
  hash_wf h -> hash_wf h' -> 0 <= D' <= D -> D < M64 ->
  to_u256_le h' <= to_u256_le h ->
  (D <= 1 -> check_hash x86_64 big_endian h D = true)
  /\ (check_hash x86_64 big_endian h D = true ->
      check_hash x86_64 big_endian h' D' = true).
Proof.
  intros Hwf Hwf' HD HD64 Hle.
  rewrite !check_hash_limbs by (assumption || lia).
  rewrite <- !(to_u256_le_limbs big_endian) by assumption.
  assert (Hr : forall g, hash_wf g -> 0 <= to_u256_le g < M256).
  { intros g [Hlen Hb]. pose proof (le_decode_range g Hb) as Hg.
    rewrite Hlen in Hg. exact Hg. }
  pose proof (Hr h Hwf). pose proof (Hr h' Hwf').
  split; [intros; nia | intros; nia].
Qed.

Lemma check_hash_antitone_witness :
  (2 <= 1 -> check_hash true false (replicate 31 255 ++ [127]) 2 = true)
  /\ (check_hash true false (replicate 31 255 ++ [127]) 2 = true ->
      check_hash true false (replicate 32 0) 1 = true).
Proof.
  apply (check_hash_antitone true false (replicate 31 255 ++ [127]) (replicate 32 0) 2 1);
    [ | | lia | lia | vm_compute; discriminate].
  - split; [reflexivity|]. repeat (apply List.Forall_cons; [lia|]). apply List.Forall_nil.
  - split; [reflexivity|]. repeat (apply List.Forall_cons; [lia|]). apply List.Forall_nil.
Defined.

(** ** More on the block reward *)

Lemma get_min_block_size_range version :
  20000 <= get_min_block_size version <= 300000.
Proof.
  unfold get_min_block_size. destruct (version <? 2); [vm_compute; split; discriminate|].
  destruct (version <? 5); vm_compute; split; discriminate.
Qed.

Lemma soft_median median_size version :
  (if median_size <? get_min_block_size version
   then get_min_block_size version else median_size)
  = Z.max median_size (get_min_block_size version).
Proof. destruct (Z.ltb_spec median_size (get_min_block_size version)); lia. Qed.

(** What [penalty] computes when its sizes fit 32 bits. *)
Lemma penalty_value NDEBUG median_size current_block_size base version :
  0 <= median_size < M32 -> 0 <= current_block_size < M32 -> 0 <= base < M64 ->
  let M := Z.max median_size (get_min_block_size version) in
  let q := base * ((2 * M - current_block_size) * current_block_size) / M / M in
  penalty NDEBUG median_size current_block_size base version
  = if current_block_size <=? M then Ret (Some base)
    else if 2 * M <? current_block_size then Ret None
    else if NDEBUG || ((M <? M32 - 1) && (current_block_size <? M32 - 1) && (q <? base))
    then Ret (Some q)
    else AssertionFailed.
Proof.
  intros Hm Hc Hb M q. unfold penalty. rewrite soft_median. fold M.
  pose proof (get_min_block_size_range version) as Hz.
  assert (HMr : 20000 <= M < M32) by (subst M; lia).
  destruct (Z.leb_spec current_block_size M) as [Hle|Hgt]; [reflexivity|].
  rewrite (wrap64_small (2 * M)) by lia.
  destruct (Z.ltb_spec (2 * M) current_block_size) as [|Hle2]; [reflexivity|].
  rewrite (wrap64_small (2 * M - current_block_size)) by lia.
  rewrite (wrap64_small ((2 * M - current_block_size) * current_block_size)) by nia.
  unfold mul128, div128_32, wrap32, udiv.
  rewrite (Z.mod_small M) by lia.
  destruct (Z.eqb_spec M 0); [lia|]. cbn [mbind outcome_bind].
  set (mult := (2 * M - current_block_size) * current_block_size) in *.
  assert (Hp : base * mult / M64 * M64 + (base * mult) mod M64 = base * mult)
    by (Z.div_mod_to_equations; lia).
  rewrite Hp.
  assert (Hq : base * mult / M / M64 * M64 + (base * mult / M) mod M64 = base * mult / M)
    by (Z.div_mod_to_equations; lia).
  rewrite Hq. fold q.
  destruct (quadratic_penalty base M current_block_size) as [Hq1 _]; [lia..|].
  fold mult in Hq1. fold q in Hq1.
  rewrite (Z.div_small q), (Z.mod_small q) by lia.
  unfold assert. change (0 =? 0) with true.
  destruct NDEBUG; [reflexivity|]. cbn [orb].
  destruct (M <? M32 - 1); [|reflexivity].
  destruct (current_block_size <? M32 - 1); [|reflexivity].
  destruct (q <? base); reflexivity.
Qed.

Lemma get_block_reward_unfold NDEBUG PULSE COINS median_size current_block_size
    already_generated_coins version height :
  height ∉ injection_heights ->
  get_block_reward NDEBUG PULSE COINS median_size current_block_size
    already_generated_coins version height
  = (b ← base_reward PULSE COINS already_generated_coins version height;
     penalty NDEBUG median_size current_block_size b version).
Proof.
  intros Hinj. unfold get_block_reward, get_block_reward_vars.
  rewrite (injection_None height Hinj).
  destruct (base_reward _ _ _ _ _) as [b| | |]; try reflexivity.
  cbn [mbind outcome_bind].
  destruct (penalty _ _ _ _ _) as [r| | |]; reflexivity.
Qed.

Ltac not_injected :=
  unfold injection_heights; intros Hin;
  repeat (apply elem_of_cons in Hin as [Hin|Hin]; [discriminate Hin|]);
  inversion Hin.

(** X4: [get_block_reward] returns [false] exactly for a block of more than
    twice [max(median_size, Z)] bytes, [Z] being the full reward zone. *)
Theorem get_block_reward_too_large NDEBUG PULSE COINS median_size current_block_size
    already_generated_coins version height b :
  height ∉ injection_heights ->
  0 <= median_size < M32 -> 0 <= current_block_size < M32 ->
  base_reward PULSE COINS already_generated_coins version height = Ret b ->
  get_block_reward NDEBUG PULSE COINS median_size current_block_size
    already_generated_coins version height = Ret None
  <-> 2 * Z.max median_size (get_min_block_size version) < current_block_size.
Proof.
  intros Hinj Hm Hc Hb. rewrite get_block_reward_unfold by assumption.
  rewrite Hb. cbn [mbind outcome_bind].
  rewrite penalty_value by (assumption || eapply base_reward_range; eassumption).
  cbv zeta.
  destruct (Z.leb_spec current_block_size (Z.max median_size (get_min_block_size version)));
    [split; [discriminate | lia]|].
  destruct (Z.ltb_spec (2 * Z.max median_size (get_min_block_size version))
              current_block_size); [tauto|].
  split; [|lia]. destruct (NDEBUG || _); discriminate.
Qed.

Lemma get_block_reward_too_large_witness :
  get_block_reward false 0 0 0 40001 0 1 2 = Ret None
  <-> 2 * Z.max 0 (get_min_block_size 1) < 40001.
Proof.
  apply (get_block_reward_too_large false 0 0 0 40001 0 1 2 2002716);
    [not_injected | lia | lia | vm_compute; reflexivity].
Defined.

(** X5: A bigger block never earns more: with everything else the same, the
    reward does not grow with [current_block_size]. *)
Theorem get_block_reward_antitone NDEBUG PULSE COINS median_size
    already_generated_coins version height size1 size2 reward1 reward2 :
  height ∉ injection_heights ->
  0 <= median_size < M32 -> 0 <= size1 <= size2 -> size2 < M32 ->
  get_block_reward NDEBUG PULSE COINS median_size size1
    already_generated_coins version height = Ret (Some reward1) ->
  get_block_reward NDEBUG PULSE COINS median_size size2
    already_generated_coins version height = Ret (Some reward2) ->
  reward2 <= reward1.
Proof.
  intros Hinj Hm Hs Hs2. rewrite !get_block_reward_unfold by assumption.
  destruct (base_reward _ _ _ _ _) as [b| | |] eqn:Hb; try discriminate.
  cbn [mbind outcome_bind]. pose proof (base_reward_range _ _ _ _ _ _ Hb) as Hbr.
  rewrite !penalty_value by (assumption || lia). cbv zeta.
  pose proof (get_min_block_size_range version) as Hz.
  set (M := Z.max median_size (get_min_block_size version)).
  assert (HM : 20000 <= M < M32) by (subst M; lia). clearbody M.
  assert (Hcap : forall c, M < c <= 2 * M ->
            0 <= b * ((2 * M - c) * c) / M / M <= b).
  { intros c Hc. apply (quadratic_penalty b M c); lia. }
  destruct (Z.leb_spec size1 M) as [H1|H1].
  - intros [= <-]. destruct (Z.leb_spec size2 M) as [H2|H2]; [intros [= <-]; lia|].
    destruct (Z.ltb_spec (2 * M) size2); [discriminate|].
    destruct (NDEBUG || _); [|discriminate]. intros [= <-]. apply Hcap. lia.
  - destruct (Z.ltb_spec (2 * M) size1); [discriminate|].
    destruct (NDEBUG || _); [|discriminate]. intros [= <-].
    destruct (Z.leb_spec size2 M); [lia|].
    destruct (Z.ltb_spec (2 * M) size2); [discriminate|].
    destruct (NDEBUG || _); [|discriminate]. intros [= <-].
    rewrite !Z.div_div by lia.
    apply Z.div_le_mono; [lia|].
    apply Z.mul_le_mono_nonneg_l; [lia|]. nia.
Qed.

Lemma get_block_reward_antitone_witness : 1377423 <= 2203877.
Proof.
  apply (get_block_reward_antitone true 0 0 300000 0 7 307100 400000 500000
           2203877 1377423);
    [not_injected | lia | lia | lia | vm_compute; reflexivity | vm_compute; reflexivity].
Defined.

(** X6: With sizes below [2^32 - 1] and a base reward that is computed,
    [get_block_reward] always returns when assertions are compiled out; when
    they are compiled in, it stops exactly on a block over
    [max(median_size, Z)] and up to twice that, with a base reward of
    zero. *)
Theorem get_block_reward_outcomes PULSE COINS median_size current_block_size
    already_generated_coins version height b :
  height ∉ injection_heights ->
  0 <= median_size < M32 - 1 -> 0 <= current_block_size < M32 - 1 ->
  base_reward PULSE COINS already_generated_coins version height = Ret b ->
  let M := Z.max median_size (get_min_block_size version) in
  (exists r, get_block_reward true PULSE COINS median_size current_block_size
               already_generated_coins version height = Ret r)
  /\ ((exists r, get_block_reward false PULSE COINS median_size current_block_size
                   already_generated_coins version height = Ret r)
      \/ get_block_reward false PULSE COINS median_size current_block_size
           already_generated_coins version height = AssertionFailed)
  /\ (get_block_reward false PULSE COINS median_size current_block_size
        already_generated_coins version height = AssertionFailed
      <-> M < current_block_size <= 2 * M /\ b = 0).
Proof.
  intros Hinj Hm Hc Hb M. rewrite !get_block_reward_unfold by assumption.
  rewrite Hb. cbn [mbind outcome_bind].
  pose proof (base_reward_range _ _ _ _ _ _ Hb) as Hbr.
  rewrite !penalty_value by (assumption || lia). cbv zeta. fold M.
  pose proof (get_min_block_size_range version) as Hz.
  assert (HM : 20000 <= M < M32 - 1) by (subst M; lia). clearbody M.
  destruct (Z.leb_spec current_block_size M) as [H1|H1].
  { split; [eauto|]. split; [eauto|]. split; [discriminate | lia]. }
  destruct (Z.ltb_spec (2 * M) current_block_size) as [H2|H2].
  { split; [eauto|]. split; [eauto|]. split; [discriminate | lia]. }
  cbn [orb]. split; [eauto|].
  destruct (Z.ltb_spec M (M32 - 1)); [|lia].
  destruct (Z.ltb_spec current_block_size (M32 - 1)); [|lia].
  cbn [andb].
  destruct (quadratic_penalty b M current_block_size) as [Hq1 Hq2]; [lia..|].
  cbv zeta in Hq1, Hq2.
  destruct (Z.ltb_spec (b * ((2 * M - current_block_size) * current_block_size) / M / M) b)
    as [Hlt|Hge].
  - split; [eauto|]. split; [discriminate | lia].
  - split; [now right|]. split; [|reflexivity]. intros _. split; [lia|].
    destruct (Z.eq_dec b 0) as [|Hnz]; [assumption|].
    assert (Hpos : 0 < b) by lia. specialize (Hq2 Hpos). lia.
Qed.

Lemma get_block_reward_outcomes_witness :
  let M := Z.max 20000 (get_min_block_size 1) in
  (exists r, get_block_reward true 0 0 20000 30000 (MONEY_SUPPLY_ETN - 1) 1 2 = Ret r)
  /\ ((exists r, get_block_reward false 0 0 20000 30000 (MONEY_SUPPLY_ETN - 1) 1 2 = Ret r)
      \/ get_block_reward false 0 0 20000 30000 (MONEY_SUPPLY_ETN - 1) 1 2
         = AssertionFailed)
  /\ (get_block_reward false 0 0 20000 30000 (MONEY_SUPPLY_ETN - 1) 1 2 = AssertionFailed
      <-> M < 30000 <= 2 * M /\ 0 = 0).
Proof.
  apply (get_block_reward_outcomes 0 0 20000 30000 (MONEY_SUPPLY_ETN - 1) 1 2 0);
    [not_injected | lia | lia | vm_compute; reflexivity].
Defined.

(** X7: From version 8 on every reward of a block within the full reward zone is
    a multiple of 10, at every height. *)
Theorem get_block_reward_multiple_of_10 NDEBUG PULSE COINS median_size
    current_block_size already_generated_coins version height reward :
  7 < version ->
  current_block_size <= Z.max median_size (get_min_block_size version) ->
  get_block_reward NDEBUG PULSE COINS median_size current_block_size
    already_generated_coins version height = Ret (Some reward) ->
  reward mod 10 = 0.
Proof.
  intros Hv Hc. unfold get_block_reward, get_block_reward_vars.
  destruct (injection height) as [r|] eqn:Hinj.
  { cbn [mbind outcome_bind snd]. intros [= <-]. unfold injection in Hinj.
    repeat match type of Hinj with
           | (if ?c then _ else _) = _ => destruct c; [injection Hinj as <-; reflexivity|]
           end.
    discriminate. }
  destruct (base_reward _ _ _ _ _) as [b| | |] eqn:Hb; try discriminate.
  cbn [mbind outcome_bind]. unfold penalty. rewrite soft_median.
  destruct (Z.leb_spec current_block_size (Z.max median_size (get_min_block_size version)));
    [|lia].
  cbn [mbind outcome_bind snd]. intros [= <-].
  unfold base_reward in Hb. bind_inv Hb. injection Hb as <-.
  destruct (Z.ltb_spec 7 version); [|lia].
  destruct (Z.ltb_spec version 2); [lia|].
  match goal with |- (if ?c then _ else _) mod 10 = 0 => destruct c end;
    [reflexivity|].
  assert (Hv0 : 0 <= v < M64).
  { pose proof (emission_speed_range height).
    destruct ((307003 <? height) && (7 <=? version)).
    - bind_inv E. bind_inv E. destruct (height <? wrap64 (v0 + v1)).
      + bind_inv E. bind_inv E. injection E as <-.
        apply shiftr_range; [eapply to_uint64_range; eassumption | assumption].
      + injection E as <-. apply shiftr_range; [apply wrap64_range | assumption].
    - injection E as <-. apply shiftr_range; [apply wrap64_range | assumption]. }
  rewrite wrap64_small by (Z.div_mod_to_equations; lia).
  apply Z.mod_mul. lia.
Qed.

Lemma get_block_reward_multiple_of_10_witness : 2479360 mod 10 = 0.
Proof.
  apply (get_block_reward_multiple_of_10 true 0 0 60000 60000 0 8 307100 2479360);
    [lia | vm_compute; discriminate | vm_compute; reflexivity].
Defined.

(** The shift count of the emission is between 18 and 30 at every height,
    so the shift in [uint64_t] is defined. *)
Lemma emission_speed_bounds height : 18 <= emission_speed height <= 30.
Proof.
  unfold emission_speed, target_minutes, EMISSION_SPEED_FACTOR_PER_MINUTE,
    DIFFICULTY_TARGET_V1, DIFFICULTY_TARGET_V2,
    MAINNET_HARDFORK_V7_HEIGHT, MAINNET_HARDFORK_V10_HEIGHT, MAINNET_HARDFORK_V14_HEIGHT,
    MAINNET_HARDFORK_V16_HEIGHT, MAINNET_HARDFORK_V17_HEIGHT, MAINNET_HARDFORK_V18_HEIGHT,
    MAINNET_HARDFORK_V19_HEIGHT, MAINNET_HARDFORK_V20_HEIGHT, MAINNET_HARDFORK_V21_HEIGHT,
    MAINNET_HARDFORK_V22_HEIGHT, MAINNET_HARDFORK_V23_HEIGHT, MAINNET_HARDFORK_V23_B_HEIGHT.
  cbv zeta.
  repeat match goal with
         | |- context [height <? ?c] => destruct (Z.ltb_spec height c)
         | |- context [?c <=? height] => destruct (Z.leb_spec c height)
         end; try lia; vm_compute; split; discriminate.
Qed.

Lemma shiftr_lower x n m : 0 <= x -> 0 <= n <= m -> x / 2 ^ m <= Z.shiftr x n.
Proof.
  intros Hx Hn. rewrite Z.shiftr_div_pow2 by lia.
  apply Z.div_le_compat_l; [assumption|]. split; [apply Z.pow_pos_nonneg; lia|].
  apply Z.pow_le_mono_r; lia.
Qed.

(** X8: Between the v7 fork and the v20 fork, from version 7 on, the base
    reward comes from the interval formula alone: it is the same whatever
    amount of coins has been generated, and is never the final subsidy. *)
Theorem base_reward_ignores_supply PULSE COINS version height a a' :
  307003 < height < MAINNET_HARDFORK_V20_HEIGHT -> 7 <= version ->
  base_reward PULSE COINS a version height = base_reward PULSE COINS a' version height
  /\ exists b, base_reward PULSE COINS a version height = Ret b /\ 666 <= b.
Proof.
  unfold MAINNET_HARDFORK_V20_HEIGHT. intros Hh Hv.
  assert (H : exists b, 666 <= b
                /\ forall a, base_reward PULSE COINS a version height = Ret b).
  2:{ destruct H as (b & Hb4 & Hb). rewrite !Hb. split; [reflexivity | eauto]. }
  clear a a'. unfold base_reward.
  destruct (Z.ltb_spec 307003 height); [|lia].
  destruct (Z.leb_spec 7 version); [|lia]. cbn [andb].
  assert (HP : PEAK_COIN_EMISSION_HEIGHT = Ret 1051920) by (vm_compute; reflexivity).
  assert (HI : COIN_EMISSION_HEIGHT_INTERVAL = Ret 131490) by (vm_compute; reflexivity).
  rewrite HP, HI. cbn [mbind outcome_bind].
  change (wrap64 (1051920 + 131490)) with 1183410.
  destruct (Z.ltb_spec height 1183410); [|lia].
  unfold udiv. change (131490 =? 0) with false. cbn [mbind outcome_bind].
  pose proof (emission_speed_bounds height) as Hes.
  set (es := emission_speed height) in *. clearbody es.
  assert (Hk : 2 <= height / 131490 <= 8) by (Z.div_mod_to_equations; lia).
  set (k := height / 131490) in *. clearbody k.
  unfold COIN_SUPPLY, MAINNET_HARDFORK_V20_HEIGHT.
  destruct (Z.ltb_spec height 1132596); [|lia].
  destruct (Z.ltb_spec version 7); [lia|].
  destruct (Z.ltb_spec version 2); [lia|].
  assert (Hcases : k = 2 \/ k = 3 \/ k = 4 \/ k = 5 \/ k = 6 \/ k = 7 \/ k = 8) by lia.
  assert (Hround : forall n, 4294967296000 <= n < M64 ->
            let x := Z.shiftr n es in
            666 <= (if 7 <? version then wrap64 (x / 10 * 10) else x) < M64).
  { intros n Hn x.
    assert (Hx : 4000 <= x < M64).
    { subst x. split; [|apply shiftr_range; lia].
      apply Z.le_trans with (n / 2 ^ 30); [|apply shiftr_lower; lia].
      apply Z.div_le_lower_bound; lia. }
    destruct (7 <? version); [|lia].
    rewrite wrap64_small; Z.div_mod_to_equations; lia. }
  destruct (version <? 10); [|destruct (version <? 16)];
    destruct Hcases as [->|[->|[->|[->|[->|[->| ->]]]]]];
    match goal with
    | |- context [Double.to_uint64 ?f] =>
        let r := eval vm_compute in (Double.to_uint64 f) in
        change (Double.to_uint64 f) with r
    end;
    cbn [mbind outcome_bind];
    match goal with
    | |- context [Z.shiftr ?n es] =>
        specialize (Hround n ltac:(lia)); cbv zeta in Hround;
        set (x := if 7 <? version then wrap64 (Z.shiftr n es / 10 * 10)
                  else Z.shiftr n es) in *;
        clearbody x
    end;
    (destruct (Z.ltb_spec x 666); [lia|]); cbn [andb];
    exists x; (split; [lia | reflexivity]).
Qed.

Lemma base_reward_ignores_supply_witness :
  base_reward 0 0 0 7 307100 = base_reward 0 0 MONEY_SUPPLY 7 307100
  /\ exists b, base_reward 0 0 0 7 307100 = Ret b /\ 666 <= b.
Proof.
  apply (base_reward_ignores_supply 0 0 7 307100 0 MONEY_SUPPLY);
    [vm_compute; split; reflexivity | lia].
Defined.

(** X9: Outside the interval formula and before the v20 fork, the final subsidy
    is paid when the coins generated equal the supply exactly; once they
    exceed it, the unsigned difference wraps and the base reward is the
    shifted wrapped difference, at least 1950. *)
Theorem final_subsidy_at_equality PULSE COINS already_generated_coins version height :
  height <= 307003 \/ version < 7 -> height < MAINNET_HARDFORK_V20_HEIGHT ->
  0 <= already_generated_coins < M64 ->
  let supply := COIN_SUPPLY PULSE COINS version height in
  (already_generated_coins = supply ->
   base_reward PULSE COINS already_generated_coins version height
   = Ret FINAL_SUBSIDY_PER_MINUTE)
  /\ (supply < already_generated_coins ->
      let q := Z.shiftr (supply + M64 - already_generated_coins) (emission_speed height) in
      let b := if 7 <? version then q / 10 * 10 else q in
      base_reward PULSE COINS already_generated_coins version height = Ret b
      /\ 1950 <= b).
Proof.
  intros Hbranch Hh Ha supply.
  assert (Hs : 2100000000000 <= supply < M63
               /\ (version < 2 -> supply = MONEY_SUPPLY_ETN)).
  { subst supply. unfold COIN_SUPPLY. destruct (Z.ltb_spec height MAINNET_HARDFORK_V20_HEIGHT); [|lia].
    destruct (Z.ltb_spec version 7); [vm_compute; split; [split; [discriminate | reflexivity] | reflexivity]|].
    destruct (Z.ltb_spec version 10); [split; [vm_compute; split; [discriminate | reflexivity] | lia]|].
    destruct (Z.ltb_spec version 16); (split; [vm_compute; split; [discriminate | reflexivity] | lia]). }
  destruct Hs as [Hs Hs2].
  assert (Hcond : (307003 <? height) && (7 <=? version) = false).
  { destruct (Z.ltb_spec 307003 height); [|reflexivity].
    destruct (Z.leb_spec 7 version); [lia | reflexivity]. }
  pose proof (emission_speed_bounds height) as Hes.
  unfold base_reward. fold supply. rewrite Hcond. cbn [mbind outcome_bind].
  set (es := emission_speed height) in *. clearbody es supply.
  split.
  - intros ->. rewrite Z.sub_diag. change (wrap64 0) with 0. rewrite Z.shiftr_0_l.
    change (wrap64 (0 / 10 * 10)) with 0.
    assert (Hb : (if version <? 2
                  then Z.shiftr (wrap64 (MONEY_SUPPLY_ETN - supply)) es
                  else if 7 <? version then 0 else 0) = 0).
    { destruct (Z.ltb_spec version 2).
      - rewrite Hs2 by assumption. rewrite Z.sub_diag.
        change (wrap64 0) with 0. apply Z.shiftr_0_l.
      - destruct (7 <? version); reflexivity. }
    rewrite Hb. cbn. rewrite Z.leb_refl. reflexivity.
  - intros Hover.
    set (q := Z.shiftr (supply + M64 - already_generated_coins) es).
    set (b := if 7 <? version then q / 10 * 10 else q).
    assert (Hw : wrap64 (supply - already_generated_coins)
                 = supply + M64 - already_generated_coins).
    { unfold wrap64. replace (supply - already_generated_coins)
        with (supply + M64 - already_generated_coins + (-1) * M64) by lia.
      rewrite Z.mod_add by lia. apply Z.mod_small. lia. }
    rewrite Hw. fold q.
    assert (Hq : 1955 <= q < M64).
    { subst q. split; [|apply shiftr_range; lia].
      apply Z.le_trans with ((supply + M64 - already_generated_coins) / 2 ^ 30);
        [|apply shiftr_lower; lia].
      apply Z.div_le_lower_bound; lia. }
    rewrite (wrap64_small (q / 10 * 10)) by (Z.div_mod_to_equations; lia). fold b.
    assert (Hb : 1950 <= b) by (subst b; destruct (7 <? version); Z.div_mod_to_equations; lia).
    assert (Hv2 : (if version <? 2
                   then Z.shiftr (wrap64 (MONEY_SUPPLY_ETN - already_generated_coins)) es
                   else b) = b).
    { destruct (Z.ltb_spec version 2) as [Hlt|]; [|reflexivity].
      rewrite <- (Hs2 Hlt), Hw. fold q. subst b.
      destruct (Z.ltb_spec 7 version); [lia | reflexivity]. }
    rewrite Hv2. destruct (Z.ltb_spec b 666); [lia|]. cbn [andb]. auto.
Qed.

Lemma final_subsidy_at_equality_witness :
  let supply := COIN_SUPPLY 0 0 1 2 in
  (MONEY_SUPPLY_ETN + 1 = supply ->
   base_reward 0 0 (MONEY_SUPPLY_ETN + 1) 1 2 = Ret FINAL_SUBSIDY_PER_MINUTE)
  /\ (supply < MONEY_SUPPLY_ETN + 1 ->
      let q := Z.shiftr (supply + M64 - (MONEY_SUPPLY_ETN + 1)) (emission_speed 2) in
      let b := if 7 <? 1 then q / 10 * 10 else q in
      base_reward 0 0 (MONEY_SUPPLY_ETN + 1) 1 2 = Ret b /\ 1950 <= b).
Proof.
  apply (final_subsidy_at_equality 0 0 (MONEY_SUPPLY_ETN + 1) 1 2);
    [left; lia | reflexivity | vm_compute; split; [discriminate | reflexivity]].
Defined.


(** ** More on the difficulty functions *)

Lemma sort_Permutation (ts ts' : list Z) : ts ≡ₚ ts' -> sort ts = sort ts'.
Proof.
  intros Hp. unfold sort.
  apply (Sorted_unique Z.le).
  - apply (Sorted_merge_sort Z.le).
  - apply (Sorted_merge_sort Z.le).
  - rewrite !merge_sort_Permutation. exact Hp.
Qed.

(** X10: Up to [DIFFICULTY_WINDOW] entries, [next_difficulty] and
    [next_difficulty_v2] read the timestamps through [std::sort] only: the
    order in which they are handed over is of no consequence. *)
Theorem next_difficulty_timestamp_order NDEBUG x86_64 (ts ts' cds : list Z) T :
  ts ≡ₚ ts' -> (length ts <= 720)%nat ->
  next_difficulty NDEBUG x86_64 ts cds T = next_difficulty NDEBUG x86_64 ts' cds T
  /\ next_difficulty_v2 NDEBUG x86_64 ts cds T
     = next_difficulty_v2 NDEBUG x86_64 ts' cds T.
Proof.
  intros Hp Hn.
  assert (Hs : size ts' = size ts) by (unfold size; now rewrite Hp).
  unfold next_difficulty, next_difficulty_v2, DIFFICULTY_WINDOW. rewrite Hs.
  destruct (Z.ltb_spec 720 (size ts)) as [|_]; [unfold size in *; lia|].
  rewrite Hs, (sort_Permutation ts ts' Hp). split; reflexivity.
Qed.

Lemma next_difficulty_timestamp_order_witness :
  next_difficulty true true [300; 100; 200] [1; 1001; 2001] 120
  = next_difficulty true true [100; 200; 300] [1; 1001; 2001] 120
  /\ next_difficulty_v2 true true [300; 100; 200] [1; 1001; 2001] 120
     = next_difficulty_v2 true true [100; 200; 300] [1; 1001; 2001] 120.
Proof.
  apply (next_difficulty_timestamp_order true true
           [300; 100; 200] [100; 200; 300] [1; 1001; 2001] 120).
  - apply (perm_trans (l' := [100; 300; 200])); [apply perm_swap|].
    apply perm_skip, perm_swap.
  - simpl. lia.
Defined.

(** X11: Of a longer history the functions keep the oldest entries: the first
    720 ([next_difficulty], [next_difficulty_v2]), the first 70
    ([next_difficulty_v4]), the first 71 ([next_difficulty_v3], in a build
    without assertions). *)
Theorem difficulty_windows NDEBUG x86_64 median (ts cds : list Z) T :
  length ts = length cds ->
  ((720 < length ts)%nat ->
     next_difficulty NDEBUG x86_64 ts cds T
     = next_difficulty NDEBUG x86_64 (take 720 ts) (take 720 cds) T
     /\ next_difficulty_v2 NDEBUG x86_64 ts cds T
        = next_difficulty_v2 NDEBUG x86_64 (take 720 ts) (take 720 cds) T)
  /\ ((70 < length ts)%nat ->
        next_difficulty_v4 NDEBUG x86_64 median ts cds T
        = next_difficulty_v4 NDEBUG x86_64 median (take 70 ts) (take 70 cds) T
        /\ next_difficulty_v3 true ts cds T
           = next_difficulty_v3 true (take 71 ts) (take 71 cds) T).
Proof.
  intros Hlen. split; intros Hn.
  - split; [|now apply next_difficulty_v2_truncate].
    unfold next_difficulty, DIFFICULTY_WINDOW.
    assert (Hs : size (take 720 ts) = 720) by (unfold size; rewrite length_take; lia).
    rewrite Hs.
    destruct (Z.ltb_spec 720 (size ts)) as [_|]; [|unfold size in *; lia].
    change (720 <? 720) with false. cbv iota.
    rewrite !resize_to_shrink by (unfold size; lia). reflexivity.
  - split.
    + unfold next_difficulty_v4, DIFFICULTY_BLOCKS_COUNT_V12, DIFFICULTY_WINDOW_V2.
      assert (Hs : size (take 70 ts) = 70) by (unfold size; rewrite length_take; lia).
      rewrite Hs.
      destruct (Z.ltb_spec 70 (size ts)) as [_|]; [|unfold size in *; lia].
      change (70 <? 70) with false. cbv iota.
      rewrite !resize_to_shrink by (unfold size; lia). reflexivity.
    + unfold next_difficulty_v3, DIFFICULTY_WINDOW_V2.
      assert (Hs : size (take 71 ts) = 71) by (unfold size; rewrite length_take; lia).
      rewrite Hs.
      destruct (Z.ltb_spec 70 (size ts)) as [_|]; [|unfold size in *; lia].
      change (70 <? 71) with true. cbv iota.
      rewrite !resize_to_shrink by (unfold size; rewrite ?length_take; lia).
      change (Z.to_nat (70 + 1)) with 71%nat.
      rewrite !take_take. reflexivity.
Qed.

Lemma difficulty_windows_witness :
  ((720 < length (replicate 721 5))%nat ->
     next_difficulty true true (replicate 721 5) (replicate 721 7) 120
     = next_difficulty true true (take 720 (replicate 721 5)) (take 720 (replicate 721 7)) 120
     /\ next_difficulty_v2 true true (replicate 721 5) (replicate 721 7) 120
        = next_difficulty_v2 true true (take 720 (replicate 721 5))
            (take 720 (replicate 721 7)) 120)
  /\ ((70 < length (replicate 721 5))%nat ->
        next_difficulty_v4 true true (fun _ => 0) (replicate 721 5) (replicate 721 7) 120
        = next_difficulty_v4 true true (fun _ => 0) (take 70 (replicate 721 5))
            (take 70 (replicate 721 7)) 120
        /\ next_difficulty_v3 true (replicate 721 5) (replicate 721 7) 120
           = next_difficulty_v3 true (take 71 (replicate 721 5))
               (take 71 (replicate 721 7)) 120).
Proof.
  apply (difficulty_windows true true (fun _ => 0) (replicate 721 5) (replicate 721 7) 120).
  rewrite !length_replicate. reflexivity.
Defined.

(** X12: The edges of [next_difficulty_v3]: fewer than 6 entries give the
    difficulty 1, and with more than [DIFFICULTY_WINDOW_V2] entries a build
    with assertions stops on [assert(n <= DIFFICULTY_WINDOW_V2)], whatever
    the cumulative difficulties. *)
Theorem next_difficulty_v3_edges NDEBUG (ts cds : list Z) T :
  (length ts = length cds -> (length ts < 6)%nat ->
     next_difficulty_v3 NDEBUG ts cds T = Ret 1)
  /\ ((70 < length ts)%nat -> next_difficulty_v3 false ts cds T = AssertionFailed).
Proof.
  split.
  - intros Hlen Hn. unfold next_difficulty_v3, DIFFICULTY_WINDOW_V2.
    assert (Hs : size ts = size cds) by (unfold size; lia).
    destruct (Z.ltb_spec 70 (size ts)) as [|_]; [unfold size in *; lia|].
    rewrite <- Hs, Z.eqb_refl, assert_true. cbn [mbind outcome_bind].
    destruct (Z.leb_spec (size ts) 70) as [_|]; [|unfold size in *; lia].
    rewrite assert_true. cbn [mbind outcome_bind].
    destruct (Z.ltb_spec (size ts) 6) as [_|]; [reflexivity | unfold size in *; lia].
  - intros Hn. unfold next_difficulty_v3, DIFFICULTY_WINDOW_V2.
    destruct (Z.ltb_spec 70 (size ts)) as [_|]; [|unfold size in *; lia].
    rewrite !size_resize_to by lia. reflexivity.
Qed.

Lemma next_difficulty_v3_edges_witness :
  next_difficulty_v3 false [1; 2; 3] [10; 20; 30] 120 = Ret 1
  /\ next_difficulty_v3 false (replicate 71 0) [] 120 = AssertionFailed.
Proof.
  split.
  - apply (proj1 (next_difficulty_v3_edges false [1; 2; 3] [10; 20; 30] 120));
      [reflexivity | simpl; lia].
  - apply (proj2 (next_difficulty_v3_edges false (replicate 71 0) [] 120)).
    rewrite length_replicate. lia.
Defined.

(** X13: On histories of at least two blocks with growing 64-bit cumulative
    difficulties and a target below 2^32 seconds, [next_difficulty_v4]
    returns: no index leaves its vector and the divisor is never zero,
    because the weighted time span is raised to [minimum_timespan].  For
    the same reason the result is at most twice the work of the whole
    history. *)
Theorem next_difficulty_v4_returns NDEBUG x86_64 median (ts cds : list Z) T :
  length ts = length cds -> (2 <= length ts)%nat ->
  Forall is_u64 cds -> increasing cds -> 0 < T < M32 ->
  exists d, next_difficulty_v4 NDEBUG x86_64 median ts cds T = Ret d
    /\ 0 <= d
    /\ forall a b, head cds = Some a -> last cds = Some b -> d <= 2 * (b - a).
Proof.
  intros Hlen Hn Hr Hinc HT. unfold next_difficulty_v4.
  unfold DIFFICULTY_BLOCKS_COUNT_V12, DIFFICULTY_WINDOW_V2.
  assert (H1 : exists (k : nat),
    (if 70 <? size ts then (resize_to 70 ts, resize_to 70 cds) else (ts, cds))
    = (take k ts, take k cds) /\ (2 <= k)%nat /\ (length (take k ts) <= 70)%nat).
  { destruct (Z.ltb_spec 70 (size ts)) as [Hgt|Hle]; unfold size in *.
    - exists 70%nat. rewrite !resize_to_shrink by (unfold size; lia).
      rewrite length_take. repeat split; lia.
    - exists (length ts). rewrite Hlen at 3. rewrite !take_ge by lia.
      repeat split; lia. }
  destruct H1 as (k1 & -> & Hk1 & Hk1').
  assert (H2 : exists (k : nat),
    v4_shrink median (take k1 ts) (take k1 cds) = Ret (take k ts, take k cds)
    /\ (2 <= k)%nat /\ (length (take k ts) <= 70)%nat).
  { destruct (v4_shrink_cases median (take k1 ts) (take k1 cds)) as [->|[Hge ->]].
    - unfold size. rewrite !length_take. lia.
    - exists k1. repeat split; lia.
    - exists (25 `min` k1)%nat. rewrite !take_take.
      unfold size in Hge. rewrite length_take in *. repeat split; lia. }
  destruct H2 as (k & -> & Hk & Hk'). cbn [mbind outcome_bind].
  clear k1 Hk1 Hk1'.
  set (ts2 := take k ts) in *. set (cds2 := take k cds).
  assert (Hs2 : size ts2 = size cds2)
    by (unfold size; subst ts2 cds2; rewrite !length_take; lia).
  assert (Hn2 : 2 <= size ts2 <= 70)
    by (unfold size; subst ts2; rewrite length_take in *; lia).
  rewrite <- Hs2, Z.eqb_refl, assert_true. cbn [mbind outcome_bind].
  destruct (Z.leb_spec (size ts2) 1) as [|_]; [lia|].
  destruct (at_index_in_range ts2 0) as (t0 & _ & ->); [lia|].
  cbn [mbind outcome_bind].
  destruct (for_each_Ret (v4_step ts2 (size ts2) T) (seqZ 1 (size ts2 - 1))
              (V4Vars t0 0 0 false 0 0)) as [s ->].
  { intros i s Hi. apply elem_of_seqZ in Hi. apply v4_step_Ret. lia. }
  cbn [mbind outcome_bind].
  destruct (at_index_in_range cds2 (size ts2 - 1)) as (db & Hdb & ->); [lia|].
  destruct (at_index_in_range cds2 0) as (df & Hdf & ->); [lia|].
  cbn [mbind outcome_bind].
  subst cds2. apply lookup_take_Some in Hdb as [Hdb Hdbk].
  apply lookup_take_Some in Hdf as [Hdf _].
  assert (Hwork : df < db)
    by (eapply (Hinc (Z.to_nat 0) (Z.to_nat (size ts2 - 1))); eauto; lia).
  assert (Hdb_r : is_u64 db) by (eapply Forall_lookup_1; eauto).
  assert (Hdf_r : is_u64 df) by (eapply Forall_lookup_1; eauto).
  unfold is_u64 in *.
  rewrite (wrap64_small (db - df)) by lia.
  destruct (Z.ltb_spec 0 (db - df)); [|lia].
  rewrite assert_true. cbn [mbind outcome_bind].
  set (n := size ts2) in *.
  assert (Hhalf : 1 <= (n + 1) / 2 <= n - 1) by (Z.div_mod_to_equations; lia).
  rewrite (wrap64_small (n + 1)) by lia.
  rewrite (wrap64_small ((n + 1) / 2 * T)) by nia.
  rewrite (wrap64_small (99 * _)) by nia.
  rewrite (wrap64_small (T * n)) by nia.
  set (target := 99 * ((n + 1) / 2 * T) / 100).
  set (minimum := T * n / 2).
  assert (Htarget : 0 <= target <= (n + 1) / 2 * T).
  { subst target. split; [apply Z.div_pos; nia|].
    apply Z.div_le_upper_bound; nia. }
  assert (Hmin : 1 <= minimum /\ T * n - 1 <= 2 * minimum).
  { subst minimum. split; [apply Z.div_le_lower_bound; nia|].
    Z.div_mod_to_equations. lia. }
  set (w := if v4_adjust s <? minimum then minimum else v4_adjust s).
  assert (Hw : minimum <= w) by (subst w; destruct (Z.ltb_spec (v4_adjust s) minimum); lia).
  assert (Htw : target <= 2 * w) by nia.
  clearbody w target minimum.
  rewrite mul_spec by nia.
  assert (Hbound : forall a b, head cds = Some a -> last cds = Some b ->
                               df = a /\ db <= b).
  { intros a b Ha Hb. rewrite head_lookup in Ha. rewrite last_lookup in Hb.
    change (Z.to_nat 0) with 0%nat in Hdf. split; [congruence|].
    destruct (decide (Z.to_nat (n - 1) = Nat.pred (length cds))) as [E|E].
    - rewrite E in Hdb. assert (db = b) by congruence. lia.
    - apply lookup_lt_Some in Hdb as Hlt.
      assert (db < b); [|lia].
      eapply (Hinc (Z.to_nat (n - 1)) (Nat.pred (length cds))); eauto. lia. }
  destruct (Z.eqb_spec ((db - df) * target / M64) 0) as [Hhigh|_]; simpl negb; cbv iota.
  - assert (Hlow : ((db - df) * target) mod M64 = (db - df) * target)
      by (Z.div_mod_to_equations; lia).
    rewrite Hlow. unfold udiv. destruct (Z.eqb_spec w 0); [lia|].
    eexists. split; [reflexivity|].
    split; [apply Z.div_pos; nia|].
    intros a b Ha Hb. destruct (Hbound a b Ha Hb) as [-> Hle].
    apply Z.div_le_upper_bound; [lia|].
    transitivity ((db - a) * (2 * w)); [apply Z.mul_le_mono_nonneg_l; lia | nia].
  - exists 0. split; [reflexivity|]. split; [lia|].
    intros a b Ha Hb. destruct (Hbound a b Ha Hb) as [-> Hle]. lia.
Qed.

Lemma next_difficulty_v4_returns_witness :
  exists d, next_difficulty_v4 false false (fun _ => 0) [0; 1000] [1; 2] 60 = Ret d
    /\ 0 <= d
    /\ forall a b, head [1; 2] = Some a -> last [1; 2] = Some b -> d <= 2 * (b - a).
Proof.
  apply (next_difficulty_v4_returns false false (fun _ => 0) [0; 1000] [1; 2] 60).
  - reflexivity.
  - simpl. lia.
  - repeat (apply List.Forall_cons; [unfold is_u64; lia|]). apply List.Forall_nil.
  - intros i j a b Hij Ha Hb.
    destruct i as [|[|i]], j as [|[|j]]; simpl in Ha, Hb; try discriminate; try lia.
    injection Ha as <-. injection Hb as <-. lia.
  - lia.
Defined.

(** ** More on checkpoints *)

(** X14: After [add_checkpoint(h, x)] has succeeded, [check_block] at [h] accepts
    the bytes of [x] and nothing else, and reports a checkpoint. *)
Theorem check_block_after_add (m_points m1 : gmap Z (list Z)) (h : Z) (x : string) :
  add_checkpoint h x m_points = (true, m1) ->
  exists hx, parse_tpod_from_hex_string x = Some hx
             /\ forall y, check_block m1 h y = (bool_decide (hx = y), true).
Proof.
  intros Hadd.
  destruct (add_checkpoint_cases h x m_points) as [(hx & Hx & _ & E)|[_ E]];
    rewrite E in Hadd; [|discriminate].
  injection Hadd as <-. exists hx. split; [assumption|].
  intros y. unfold check_block. rewrite lookup_insert_eq.
  destruct (bool_decide (hx = y)); reflexivity.
Qed.

Local Open Scope string_scope.
Lemma check_block_after_add_witness :
  let x := "4536e1e23ff7179a126a7e61cd9e89ded0e258176f2bc879c999caa155f68cc3" in
  exists hx, parse_tpod_from_hex_string x = Some hx
             /\ forall y, check_block (snd (add_checkpoint 1 x ∅)) 1 y
                          = (bool_decide (hx = y), true).
Proof. apply (check_block_after_add ∅). vm_compute. reflexivity. Defined.
Local Close Scope string_scope.

(** X15: A height is in the checkpoint zone exactly when some checkpoint is pinned
    at or above it; never on an empty registry. *)
Theorem is_in_checkpoint_zone_spec (m_points : gmap Z (list Z)) (height : Z) :
  is_in_checkpoint_zone m_points height = true
  <-> exists k, is_Some (m_points !! k) /\ height <= k.
Proof.
  unfold is_in_checkpoint_zone.
  destruct (greatest (heights m_points)) as [g|] eqn:E.
  - apply greatest_Some in E as [Hin Hmax]. apply elem_of_heights in Hin.
    rewrite Z.leb_le. split.
    + intros Hle. exists g. auto.
    + intros (k & Hk & Hle). apply elem_of_heights in Hk. specialize (Hmax k Hk). lia.
  - apply greatest_None in E. split; [discriminate|].
    intros (k & Hk & _). apply elem_of_heights in Hk. rewrite E in Hk. inversion Hk.
Qed.

Lemma get_max_height_Ret (m_points : gmap Z (list Z)) (g : Z) :
  get_max_height m_points = Ret g
  <-> is_Some (m_points !! g) /\ forall k, is_Some (m_points !! k) -> k <= g.
Proof.
  unfold get_max_height.
  destruct (greatest (heights m_points)) as [g'|] eqn:E.
  - apply greatest_Some in E as [Hin Hmax]. apply elem_of_heights in Hin.
    split.
    + intros [= <-]. split; [assumption|].
      intros k Hk. apply Hmax, elem_of_heights, Hk.
    + intros [Hg Hall]. f_equal.
      assert (g <= g') by (apply Hmax, elem_of_heights, Hg).
      assert (g' <= g) by auto. lia.
  - apply greatest_None in E. split; [discriminate|].
    intros [Hg _]. apply elem_of_heights in Hg. rewrite E in Hg. inversion Hg.
Qed.

(** X16: [get_max_height] is undefined exactly on the empty registry, and
    otherwise returns the pinned height that no pinned height exceeds. *)
Theorem get_max_height_spec (m_points : gmap Z (list Z)) (g : Z) :
  (get_max_height m_points = Undefined <-> m_points = ∅)
  /\ (get_max_height m_points = Ret g
      <-> is_Some (m_points !! g) /\ forall k, is_Some (m_points !! k) -> k <= g).
Proof.
  split; [|apply get_max_height_Ret].
  unfold get_max_height.
  destruct (greatest (heights m_points)) as [g'|] eqn:E.
  - apply greatest_Some in E as [Hin _]. apply elem_of_heights in Hin.
    split; [discriminate|]. intros ->. rewrite lookup_empty in Hin.
    destruct Hin; discriminate.
  - apply greatest_None in E. split; [|reflexivity]. intros _.
    apply map_empty. intros k. destruct (m_points !! k) as [v|] eqn:Hk; [|reflexivity].
    assert (Hin : k ∈ heights m_points) by (apply elem_of_heights; eauto).
    rewrite E in Hin. inversion Hin.
Qed.

(** X17: No call of [add_checkpoint], failed or not, lowers the greatest pinned
    height; a successful one raises it to the added height when that is
    greater. *)
Theorem get_max_height_add (m_points : gmap Z (list Z)) (h : Z) (x : string) (g : Z) :
  get_max_height m_points = Ret g ->
  get_max_height (snd (add_checkpoint h x m_points))
  = Ret (if fst (add_checkpoint h x m_points) then Z.max g h else g).
Proof.
  intros Hg. apply get_max_height_Ret in Hg as [Hin Hmax].
  destruct (add_checkpoint_cases h x m_points) as [(hx & _ & _ & ->)|[_ ->]];
    cbn [fst snd].
  - apply get_max_height_Ret. split.
    + destruct (Z.max_spec g h) as [[_ ->]|[_ ->]].
      * rewrite lookup_insert_eq. eauto.
      * destruct (decide (h = g)) as [->|Hne];
          [rewrite lookup_insert_eq; eauto | now rewrite lookup_insert_ne].
    + intros k Hk. destruct (decide (h = k)) as [->|Hne]; [lia|].
      rewrite lookup_insert_ne in Hk by assumption. specialize (Hmax k Hk). lia.
  - apply get_max_height_Ret. auto.
Qed.

Local Open Scope string_scope.
Lemma get_max_height_add_witness :
  let m := snd (init_default_checkpoints TESTNET ∅) in
  let x := "4536e1e23ff7179a126a7e61cd9e89ded0e258176f2bc879c999caa155f68cc3" in
  get_max_height (snd (add_checkpoint 2000000 x m))
  = Ret (if fst (add_checkpoint 2000000 x m) then Z.max 1000000 2000000 else 1000000).
Proof.
  apply (get_max_height_add (snd (init_default_checkpoints TESTNET ∅)) 2000000).
  vm_compute. reflexivity.
Defined.
Local Close Scope string_scope.

Lemma conflicts_loop_spec (points : list (Z * list Z)) (m : gmap Z (list Z)) :
  conflicts_loop points m = true
  <-> forall k h h', (k, h) ∈ points -> m !! k = Some h' -> h = h'.
Proof.
  induction points as [|[k h] rest IH]; cbn [conflicts_loop].
  - split; [|reflexivity]. intros _ k h h' Hin. inversion Hin.
  - destruct (m !! k) as [h0|] eqn:E.
    + destruct (bool_decide_reflect (h = h0)) as [->|Hne].
      * rewrite IH. split.
        -- intros H k' h' h'' Hin Hk'. apply elem_of_cons in Hin as [[= -> ->]|Hin];
             [congruence | eauto].
        -- intros H k' h' h'' Hin. apply H. now right.
      * split; [discriminate|]. intros H. exfalso. apply Hne. apply (H k h h0); [left | assumption].
    + rewrite IH. split.
      * intros H k' h' h'' Hin Hk'. apply elem_of_cons in Hin as [[= -> ->]|Hin];
          [congruence | eauto].
      * intros H k' h' h'' Hin. apply H. now right.
Qed.

(** X18: [check_for_conflicts] is [true] exactly when no height is pinned by both
    registries with different hashes; so it does not matter which of the
    two registries is asked. *)
Theorem check_for_conflicts_spec (m_points other : gmap Z (list Z)) :
  (check_for_conflicts m_points other = true
   <-> forall k h h', other !! k = Some h -> m_points !! k = Some h' -> h = h')
  /\ check_for_conflicts m_points other = check_for_conflicts other m_points.
Proof.
  assert (H : forall a b : gmap Z (list Z),
    check_for_conflicts a b = true
    <-> forall k h h', b !! k = Some h -> a !! k = Some h' -> h = h').
  { intros a b. unfold check_for_conflicts. rewrite conflicts_loop_spec. split.
    - intros Hc k h h' Hk. apply Hc. now apply elem_of_map_to_list.
    - intros Hc k h h' Hin. apply Hc. now apply elem_of_map_to_list. }
  split; [apply H|].
  destruct (check_for_conflicts m_points other) eqn:E1;
    destruct (check_for_conflicts other m_points) eqn:E2; try reflexivity.
  - pose proof (proj1 (H _ _) E1) as E1'.
    assert (E : check_for_conflicts other m_points = true)
      by (apply H; intros k h h' Hk Hk'; symmetry; eauto).
    congruence.
  - pose proof (proj1 (H _ _) E2) as E2'.
    assert (E : check_for_conflicts m_points other = true)
      by (apply H; intros k h h' Hk Hk'; symmetry; eauto).
    congruence.
Qed.

(** Adding what is pinned already succeeds and changes nothing. *)
Lemma ADD_CHECKPOINTS_again points (m : gmap Z (list Z)) :
  (forall h s, (h, s) ∈ points ->
     exists x, parse_tpod_from_hex_string s = Some x /\ m !! h = Some x) ->
  ADD_CHECKPOINTS points m = (true, m).
Proof.
  induction points as [|[h s] rest IH]; intros Hall; [reflexivity|].
  cbn [ADD_CHECKPOINTS].
  destruct (Hall h s) as (x & Hx & Hm); [left|].
  unfold add_checkpoint. rewrite Hx, Hm.
  rewrite bool_decide_eq_true_2 by reflexivity.
  rewrite insert_id by assumption.
  apply IH. intros h' s' Hin. apply Hall. now right.
Qed.

(** X19: [init_default_checkpoints] is idempotent: called again on the registry
    it has filled, it succeeds and changes nothing. *)
Theorem init_default_checkpoints_again (nettype : network_type)
    (m_points m1 : gmap Z (list Z)) :
  init_default_checkpoints nettype m_points = (true, m1) ->
  init_default_checkpoints nettype m1 = (true, m1).
Proof.
  assert (H : forall points, ADD_CHECKPOINTS points m_points = (true, m1) ->
                             ADD_CHECKPOINTS points m1 = (true, m1)).
  { intros points E. apply ADD_CHECKPOINTS_again. intros h s Hin.
    change m1 with (snd (true, m1)). rewrite <- E.
    apply ADD_CHECKPOINTS_pinned; [now rewrite E | assumption]. }
  unfold init_default_checkpoints. destruct nettype; apply H.
Qed.

Lemma init_default_checkpoints_again_witness :
  init_default_checkpoints MAINNET (snd (init_default_checkpoints MAINNET ∅))
  = (true, snd (init_default_checkpoints MAINNET ∅)).
Proof.
  apply (init_default_checkpoints_again MAINNET ∅). vm_compute. reflexivity.
Defined.

(** ** The DNS loader *)

Section DnsFacts.
Variable parse_height : string -> option Z.

Lemma load_records_points (records : list string) (m : gmap Z (list Z)) :
  load_records parse_height records m
  = ADD_CHECKPOINTS (omap (dns_point parse_height) records) m.
Proof.
  revert m. induction records as [|record rest IH]; intros m; [reflexivity|].
  cbn [load_records omap list_omap]. unfold dns_point at 1.
  destruct (String.index 0 ":" record) as [pos|]; cbn [mbind option_bind]; [|apply IH].
  destruct (parse_height _) as [height|]; cbn [mbind option_bind]; [|apply IH].
  destruct (parse_tpod_from_hex_string _) as [x|]; cbn [mbind option_bind]; [|apply IH].
  cbn [ADD_CHECKPOINTS].
  destruct (add_checkpoint height _ m) as [[] m']; [apply IH | reflexivity].
Qed.

Lemma ADD_CHECKPOINTS_fails points (m m' : gmap Z (list Z)) :
  ADD_CHECKPOINTS points m = (false, m') ->
  exists h s, (h, s) ∈ points
    /\ (parse_tpod_from_hex_string s = None
        \/ exists x y, parse_tpod_from_hex_string s = Some x /\ m' !! h = Some y /\ x <> y).
Proof.
  revert m. induction points as [|[h s] rest IH]; intros m; [discriminate|].
  cbn [ADD_CHECKPOINTS].
  destruct (add_checkpoint_cases h s m) as [(x & _ & _ & ->)|[Hwhy ->]].
  - intros E. destruct (IH _ E) as (h' & s' & Hin & Hw).
    exists h', s'. split; [now right | assumption].
  - intros [= <-]. exists h, s. split; [left | assumption].
Qed.

(** X20: When the DNS lookup fails [load_checkpoints_from_dns] returns [true] and
    changes nothing.  Otherwise it passes the records that have a colon, a
    height and a hash that parse, in order, to [add_checkpoint], and skips
    the others; it returns [false] only for a record whose hash differs from
    the one pinned at its height. *)
Theorem load_checkpoints_from_dns_spec (records : list string)
    (m_points : gmap Z (list Z)) :
  load_checkpoints_from_dns parse_height None m_points = (true, m_points)
  /\ load_checkpoints_from_dns parse_height (Some records) m_points
     = ADD_CHECKPOINTS (omap (dns_point parse_height) records) m_points
  /\ (forall m', load_checkpoints_from_dns parse_height (Some records) m_points
                 = (false, m') ->
        exists record height hashStr x y,
          record ∈ records
          /\ dns_point parse_height record = Some (height, hashStr)
          /\ parse_tpod_from_hex_string hashStr = Some x
          /\ m' !! height = Some y /\ x <> y).
Proof.
  split; [reflexivity|]. cbn [load_checkpoints_from_dns].
  rewrite load_records_points. split; [reflexivity|].
  intros m' E. apply ADD_CHECKPOINTS_fails in E as (h & s & Hin & Hwhy).
  apply list_elem_of_omap in Hin as (record & Hrec & Hpoint).
  assert (Hparse : is_Some (parse_tpod_from_hex_string s)).
  { unfold dns_point in Hpoint.
    destruct (String.index 0 ":" record) as [pos|]; [|discriminate].
    cbn [mbind option_bind] in Hpoint.
    destruct (parse_height _) as [height|]; [|discriminate].
    cbn [mbind option_bind] in Hpoint.
    destruct (parse_tpod_from_hex_string _) as [x|] eqn:Ex; [|discriminate].
    injection Hpoint as <- <-. rewrite Ex. eauto. }
  destruct Hwhy as [Hnone|(x & y & Hx & Hy & Hne)].
  - rewrite Hnone in Hparse. destruct Hparse; discriminate.
  - exists record, h, s, x, y. auto.
Qed.

(** X21: No loader removes or changes a pinned hash. *)
Theorem loaders_keep_pinned (m_points : gmap Z (list Z)) (k : Z) (v : list Z) :
  m_points !! k = Some v ->
  (forall nettype, snd (init_default_checkpoints nettype m_points) !! k = Some v)
  /\ (forall file r m', load_checkpoints_from_json file m_points = Ret (r, m') ->
        m' !! k = Some v)
  /\ (forall records,
        snd (load_checkpoints_from_dns parse_height records m_points) !! k = Some v)
  /\ (forall file records dns r m',
        load_new_checkpoints parse_height file records dns m_points = Ret (r, m') ->
        m' !! k = Some v).
Proof.
  intros Hk.
  assert (Hjson : forall file r m', load_checkpoints_from_json file m_points = Ret (r, m') ->
                    m' !! k = Some v).
  { intros file r m'. unfold load_checkpoints_from_json.
    destruct file as [| |hashlines]; [intros [= _ <-]; assumption| |].
    - destruct (get_max_height m_points); try discriminate.
      cbn [mbind outcome_bind]. intros [= _ <-]. assumption.
    - destruct (get_max_height m_points); try discriminate.
      cbn [mbind outcome_bind]. rewrite load_hashlines_filter. intros [= E].
      change m' with (snd (r, m')). rewrite <- E. now apply ADD_CHECKPOINTS_keeps. }
  assert (Hdns : forall (m : gmap Z (list Z)) records, m !! k = Some v ->
            snd (load_checkpoints_from_dns parse_height records m) !! k = Some v).
  { intros m [records|] Hm; [|exact Hm]. cbn [load_checkpoints_from_dns].
    rewrite load_records_points. now apply ADD_CHECKPOINTS_keeps. }
  split; [|split; [exact Hjson|split; [intros; now apply Hdns|]]].
  - intros nettype. unfold init_default_checkpoints.
    destruct nettype; now apply ADD_CHECKPOINTS_keeps.
  - intros file records dns r m'. unfold load_new_checkpoints.
    destruct (load_checkpoints_from_json file m_points) as [[r1 m1]| | |] eqn:E;
      try discriminate.
    cbn [mbind outcome_bind]. apply Hjson in E.
    destruct dns; [|intros [= _ <-]; assumption].
    pose proof (Hdns m1 records E) as Hd.
    destruct (load_checkpoints_from_dns parse_height records m1) as [r2 m2].
    intros [= _ <-]. exact Hd.
Qed.

End DnsFacts.

Lemma loaders_keep_pinned_witness :
  let m := snd (init_default_checkpoints STAGENET ∅) in
  let v := default [] (m !! 10000) in
  (forall nettype, snd (init_default_checkpoints nettype m) !! 10000 = Some v)
  /\ (forall file r m', load_checkpoints_from_json file m = Ret (r, m') ->
        m' !! 10000 = Some v)
  /\ (forall records,
        snd (load_checkpoints_from_dns (fun _ => None) records m) !! 10000 = Some v)
  /\ (forall file records dns r m',
        load_new_checkpoints (fun _ => None) file records dns m = Ret (r, m') ->
        m' !! 10000 = Some v).
Proof.
  apply (loaders_keep_pinned (fun _ => None)). vm_compute. reflexivity.
Defined.

(** ** Alternative blocks *)

(** X22: An alternative block that is allowed stays allowed at any greater
    height and on any registry with fewer checkpoints. *)
Theorem is_alternative_block_allowed_mono (m_points m' : gmap Z (list Z))
    (blockchain_height block_height block_height' : Z) :
  m_points ⊆ m' -> 0 <= block_height <= block_height' ->
  is_alternative_block_allowed m' blockchain_height block_height = true ->
  is_alternative_block_allowed m_points blockchain_height block_height' = true.
Proof.
  intros Hsub Hle. unfold is_alternative_block_allowed.
  destruct (Z.eqb_spec 0 block_height) as [|Hne]; [discriminate|].
  destruct (Z.eqb_spec 0 block_height') as [|_]; [lia|].
  destruct (before_upper_bound m_points blockchain_height) as [g|] eqn:E;
    [|reflexivity].
  apply before_upper_bound_Some in E as ([v Hv] & Hgt & _).
  assert (Hg : is_Some (m' !! g)) by (exists v; eapply lookup_weaken; eassumption).
  destruct (before_upper_bound m' blockchain_height) as [g'|] eqn:E'.
  - apply before_upper_bound_Some in E' as (_ & _ & Hall').
    rewrite !Z.ltb_lt. specialize (Hall' g Hg Hgt). lia.
  - pose proof (proj1 (before_upper_bound_None _ _) E') as Hno.
    exfalso. exact (Hno g Hg Hgt).
Qed.

Local Open Scope string_scope.
Lemma is_alternative_block_allowed_mono_witness :
  let one := snd (add_checkpoint 1
    "4536e1e23ff7179a126a7e61cd9e89ded0e258176f2bc879c999caa155f68cc3" ∅) in
  is_alternative_block_allowed one 400000 340001 = true.
Proof.
  apply (is_alternative_block_allowed_mono _
           (snd (init_default_checkpoints MAINNET ∅)) 400000 340000 340001);
    [ | lia | vm_compute; reflexivity].
  apply insert_subseteq_l; [vm_compute; reflexivity | apply map_empty_subseteq].
Defined.
Local Close Scope string_scope.

(** X23: Once a checkpoint is added at or below the chain tip, no alternative
    block is allowed at or below the checkpoint. *)
Theorem is_alternative_block_allowed_buried (m_points m1 : gmap Z (list Z))
    (h : Z) (x : string) (blockchain_height block_height : Z) :
  add_checkpoint h x m_points = (true, m1) ->
  h <= blockchain_height -> block_height <= h ->
  is_alternative_block_allowed m1 blockchain_height block_height = false.
Proof.
  intros Hadd Htip Hb.
  destruct (add_checkpoint_cases h x m_points) as [(hx & _ & _ & E)|[_ E]];
    rewrite E in Hadd; [|discriminate].
  injection Hadd as <-. unfold is_alternative_block_allowed.
  destruct (0 =? block_height); [reflexivity|].
  destruct (before_upper_bound _ blockchain_height) as [g|] eqn:Eg.
  - apply before_upper_bound_Some in Eg as (_ & _ & Hall).
    apply Z.ltb_ge. assert (h <= g); [|lia].
    apply Hall; [|assumption]. rewrite lookup_insert_eq. eauto.
  - pose proof (proj1 (before_upper_bound_None _ _) Eg) as Hno.
    exfalso. apply (Hno h); [|assumption]. rewrite lookup_insert_eq. eauto.
Qed.

Local Open Scope string_scope.
Lemma is_alternative_block_allowed_buried_witness :
  let x := "4536e1e23ff7179a126a7e61cd9e89ded0e258176f2bc879c999caa155f68cc3" in
  is_alternative_block_allowed (snd (add_checkpoint 100 x ∅)) 150 100 = false.
Proof.
  apply (is_alternative_block_allowed_buried ∅ _ 100
           "4536e1e23ff7179a126a7e61cd9e89ded0e258176f2bc879c999caa155f68cc3");
    [vm_compute; reflexivity | lia | lia].
Defined.
Local Close Scope string_scope.
